(* ===== verification/_CoqProject ===== *)
-Q . S2P
Prelude.v
JsNumber.v
ColorConvert.v
ChannelMapper.v
Binary64.v
DeviceState.v
JsMatch.v
Accessory.v
Services.v
System.v
Wire.v
