(* ===== verification/Prelude.v ===== *)
(** * homebridge-magicwifi: a verification development

    The repository is one Homebridge plugin, src/index.js.  Its parts:
    - the accessory object [MagicHomeAccessory]: its constructor reads a
      JSON configuration (setup, ip, port, purewhite, onlywhite,
      combinedwhite) through [||] defaults, keeps the light's color
      [{H, S, L}] and brightness, and answers HomeKit's get/set handlers
      for On, Hue, Saturation and Brightness;
    - [setToCurrentColor], the channel mapper: from color, brightness,
      setup and the white options it picks one of five policies and sends
      one [flux_led.py -x <setup> -V r,g,b,ww,cw] or [-c r,g,b] command;
    - [getState], which runs [flux_led.py -i] and reads the power state
      and color out of its output with three regular expressions;
    - [sendCommand], which runs each command with [child_process.exec];
      the execs complete later, in any order, and run their callbacks;
    - the npm library color-convert ([convert.hsl.rgb], [convert.rgb.hsl]),
      which the plugin calls but does not contain.
    [module.exports] registers the accessory type with Homebridge, which
    builds one accessory per configuration entry.
    HomeKit's handlers mutate the color and brightness and call
    [setToCurrentColor]; the constructor and [getPowerState] call
    [getState], whose callbacks write the device's color back into the
    state or answer HomeKit.

    ** Files
    - [Prelude] (this file): JavaScript numbers as the class [JsNumber]
      with the [js_scope] notations [+!], [-!], [*!], [/!], [<!], [<=!],
      [==!]; [Math.min]/[Math.max]; JSON configuration values [jsval] with
      truthiness ([js_or] is [||]), [==] against a string and string
      conversion; shared lemmas, the finite-range check [Z_range_forallb],
      the tactics [qbool] and [case_ifs], and the hint databases
      [magichome] and [magichome_rw].
    - [JsNumber]: two instances of [JsNumber].  [QNum] computes exactly
      in [Q] with [Math.round] as [floor (x + 1/2)].  [F64Num] is
      IEEE-754 binary64 as JavaScript computes it: the kernel's primitive
      floats ([PrimFloat]), with [Math.round] the half-up rounding of a
      float's exact value ([f64_round]).  The kernel and its checker
      evaluate primitive floats natively, so binary64 facts can be
      checked over whole input ranges.
    - [ColorConvert]: color-convert's two conversions over any [JsNumber]
      (modelled from the library's algorithm, since its code is not part
      of the repository), the interface [ColorConverter] /
      [ColorConverterLaws] the plugin relies on, and its proof for [Q].
    - [ChannelMapper]: [set_to_current_color] is [setToCurrentColor] over
      any number type and converter; [render_command] the string it
      sends.  The spec's policy table (spec section 4.2) is [spec_table]
      with the enumerated [policy] the spec's design notes ask for,
      instantiated with the spec's formulas rounded half up
      ([spec_compute]) and half down ([spec_compute_down]).  Its theorems
      are for exact arithmetic.
    - [Binary64]: the channel mapper in binary64.  The three level
      formulas are evaluated on every input of HomeKit's ranges; from
      them, the refinement of the policy table in binary64 and the exact
      binary64 levels of the RGBWW ends.
    - [DeviceState]: [get_state_settings] is [getState]'s parsing of the
      [flux_led.py -i] output; regular expressions are sequences of
      character classes, [/\d{3}/g] is the scanner [digit_runs].
    - [JsMatch]: [String.prototype.match] with a global expression as
      JavaScript runs it ([match_all]: [lastIndex], the leftmost match
      from it, the advance after an empty match), and [get_state_js],
      [getState]'s callback written as the source writes it, with the
      [null] and missing-component paths.
    - [Accessory]: the object's state [accessory] (its fields and the
      callbacks of the execs in flight), the constructor [new_accessory],
      the handlers, [step] for one event (a HomeKit handler or the
      completion of one exec, in any order) and [run] for a sequence;
      outputs are exec commands ([command_line] renders the line) and
      HomeKit replies.  [reachable] is the step relation's closure.
    - [Services]: [getServices]'s table ([get_services]: the information
      service's fixed values, the Lightbulb characteristics and the
      handlers bound to them); a HomeKit request is routed through it
      ([request_event], [homekit_request]); [run_inputs] interleaves
      requests and exec completions.
    - [Wire]: [/bin/sh]'s splitting of [sendCommand]'s line into words
      ([shell_words], for plain words) and a decoder of those words into
      the command [flux_led.py] is asked to run.
    - [System]: the registration [module.exports] makes
      ([plugin_registration]), the accessories Homebridge holds for a
      configuration entry of the spec ([configured]: the constructor's
      state and every state reached by [step]), and the composition of
      the components along the path of a HomeKit request.

    ** What is proved
    - Channel mapper, in binary64 ([Binary64]): for every configuration
      of the spec, every color rendered in 0..255 and every brightness
      0..100, the command sent has the form of the spec's policy table
      and each channel is the spec's value rounded half up, or one less
      where the exact value is a half ([set_to_current_color_refines]);
      the white level is exact; the color scaling is correctly rounded
      except at halves; at the RGBWW onlywhite ends the level is the
      spec's except at brightness 50 and 90, one less (the literal 2.55
      is below 255/100).
    - Channel mapper, exact arithmetic: channel values in 0..255 for any
      configuration values; the RGBWW warm/cold whites add up to at most
      255; the RGBW onlywhite, combinedwhite and purewhite policies; the
      brightness scaling is proportional.
    - color-convert: each conversion maps its range into the other's;
      greys come back with their lightness and hue 0; every saturated hue
      of lightness 50 survives the round trip (checked over the 360
      integer hues, for exact and binary64 arithmetic).
    - getState: a [(DDD, DDD, DDD)] tuple with no three-digit run before
      it is read as its color, while three runs before it (an address)
      replace it, and a tuple printed without padding with a component
      below 100 is never read; a match always yields three components;
      the callback as written, with JavaScript's global-match loop,
      never throws and equals [get_state_settings].
    - Accessory: color and brightness stay in range in every reachable
      state (rule induction on [reachable]) and every command it sends
      has channels in 0..255; the execs in flight can all complete, and
      in whatever order they complete HomeKit receives one answer per
      power request; the device's color reply and HomeKit's [setHue]
      race, the later write wins; two completions commute unless both
      are color syncs; a failed query resets the color to the default;
      an [onlywhite] option given as any non-empty string (["false"]
      included) turns the white-only mode on.
    - HomeKit wiring: every request HAP delivers to the Lightbulb service
      reaches a bound handler and is answered exactly once, whatever the
      completion order; Hue, Saturation and Brightness read back what
      was written; a read of On can overtake a write of On and report
      the old state.
    - Command line: for plain words the line reads back as the exact
      command (round trip); an address with a space gives [flux_led.py]
      an extra argument, for every command.
    - The whole plugin ([System]): an accessory built through the
      registration from a spec configuration keeps its configuration
      forever, and every color command a HomeKit request makes it send
      refines the spec's policy command in binary64
      ([homekit_command_refines]); a brightness above 100 is stored
      unclamped and drives white channels above 255.

    ** Bounds, fuel and the number model
    [match_all] is the only definition with fuel: each round moves
    [lastIndex] forward and keeps it at most one past the end, so
    [length s + 2] rounds suffice ([string_match_terminates]; more fuel
    gives the same result).  Every other function is structural.  The
    binary64 facts are finite checks over HomeKit's ranges: brightness
    0..100 (the white level), the 256 x 101 pairs of a rendered channel
    and a brightness (the color scaling and the RGBWW split), the 360
    integer hues; the byte printing of [getState]'s tuple over 0..255.
    The binary64 theorems therefore assume a brightness in 0..100 and a
    rendered color in 0..255, the ranges HomeKit and color-convert
    produce.  The general theorems of [ChannelMapper], [ColorConvert]
    and [Accessory] use exact rationals; binary64 differs from them only
    at exact halves, by one ([Binary64]).  Configuration numbers are
    integers ([JNum]).

    ** Not modelled
    Logging ([console.log], [this.log]) carries no state the plugin
    reads; the HAP-NodeJS objects are library code (only what
    [getServices] sets on them and the requests a Lightbulb service
    delivers are modelled); the process that [exec] runs and
    [flux_led.py] itself, which is not in the repository (its output is
    an input of [ExecDone], and the decoder of [Wire] states what the
    command lines ask of it); shell metacharacters other than the space
    (the round trip assumes plain words); NaN and infinities (the
    plugin's arithmetic never makes them on in-range inputs).  The
    range of [convert.hsl.rgb] in binary64 is not proved over its 3.7
    million inputs: the binary64 theorems take the rendered color in
    0..255 as a hypothesis.

    ** Further work
    From the commuting completions, the equivalence of any completion
    order with FIFO completion when at most one color sync is in flight;
    the range of color-convert in binary64 by a rounding argument. *)

From Stdlib Require Import ZArith QArith Qround String Ascii List Lia Lqa DecimalString.

(** ** JavaScript numbers as an interface

    The plugin computes with JavaScript numbers (IEEE binary64).  Every
    component is written against this class, so that the same definitions
    run on exact rationals and on binary64 floats (the program's own
    arithmetic).  [js_round] is [Math.round]: nearest integer, ties
    towards +infinity. *)

Class JsNumber (N : Type) := {
  js_of_Z : Z -> N;
  js_add : N -> N -> N;
  js_sub : N -> N -> N;
  js_mul : N -> N -> N;
  js_div : N -> N -> N;
  js_ltb : N -> N -> bool;
  js_leb : N -> N -> bool;
  js_eqb : N -> N -> bool;
  js_round : N -> Z
}.

Declare Scope js_scope.
Delimit Scope js_scope with js.

Abbreviation jz := js_of_Z.
Infix "+!" := js_add (at level 50, left associativity) : js_scope.
Infix "-!" := js_sub (at level 50, left associativity) : js_scope.
Infix "*!" := js_mul (at level 40, left associativity) : js_scope.
Infix "/!" := js_div (at level 40, left associativity) : js_scope.
Infix "<!" := js_ltb (at level 70, no associativity) : js_scope.
Infix "<=!" := js_leb (at level 70, no associativity) : js_scope.
Infix "==!" := js_eqb (at level 70, no associativity) : js_scope.

Section JsMinMax.
Context {N : Type} `{JsNumber N}.
Local Open Scope js_scope.

(** [Math.min(a, b)] and [Math.max(a, b)] on non-NaN arguments. *)
Definition js_min (a b : N) : N := if a <=! b then a else b.
Definition js_max (a b : N) : N := if b <=! a then a else b.

(** [Math.min(a, b, c)] and [Math.max(a, b, c)]. *)
Definition js_min3 (a b c : N) : N := js_min (js_min a b) c.
Definition js_max3 (a b c : N) : N := js_max (js_max a b) c.
End JsMinMax.

(** ** JavaScript values of the configuration

    The accessory's configuration is a JSON object: each field is
    undefined, null, a boolean, a number (integers only in this model) or
    a string.  The plugin reads them through [||] (truthiness), [==]
    against a string literal and [+] (string conversion). *)

Inductive jsval :=
| JUndefined
| JNull
| JBool (b : bool)
| JNum (z : Z)
| JStr (s : string).

Definition truthy (v : jsval) : bool :=
  match v with
  | JUndefined | JNull => false
  | JBool b => b
  | JNum z => negb (z =? 0)%Z
  | JStr s => negb (String.eqb s EmptyString)
  end.

(** [a || b]: [a] when it is truthy, else [b]. *)
Definition js_or (a b : jsval) : jsval := if truthy a then a else b.

(** [ToNumber] of a string of decimal digits; other strings give NaN
    ([None]), except the empty string, which is 0. *)
Definition string_to_Z (s : string) : option Z :=
  if String.eqb s EmptyString then Some 0%Z
  else option_map Z.of_uint (NilEmpty.uint_of_string s).

(** [v == "lit"]: strings compare as strings, numbers and booleans
    through [ToNumber], undefined and null are never equal to a string. *)
Definition loose_eq_string (v : jsval) (lit : string) : bool :=
  match v with
  | JStr s => String.eqb s lit
  | JNum z => match string_to_Z lit with Some n => (z =? n)%Z | None => false end
  | JBool b => match string_to_Z lit with
               | Some n => ((if b then 1 else 0) =? n)%Z
               | None => false
               end
  | JUndefined | JNull => false
  end.

(** Decimal printing of an integer, as [String(n)] prints it. *)
Definition Z_to_string (z : Z) : string := NilZero.string_of_int (Z.to_int z).

(** [String(v)], the conversion [+] applies to a non-string operand. *)
Definition js_to_string (v : jsval) : string :=
  match v with
  | JUndefined => "undefined"
  | JNull => "null"
  | JBool true => "true"
  | JBool false => "false"
  | JNum z => Z_to_string z
  | JStr s => s
  end.

(** An upper-case ASCII letter, such as the first letter of the setup
    names ["RGB"], ["RGBW"] and ["RGBWW"] the source compares with. *)
Definition is_upper (c : ascii) : bool :=
  (65 <=? nat_of_ascii c)%nat && (nat_of_ascii c <=? 90)%nat.

(** ** Shared lemmas *)

Create HintDb magichome.
Create Rewrite HintDb magichome_rw.

Lemma js_or_truthy (a b : jsval) : truthy a = true -> js_or a b = a.
Proof. unfold js_or. now intros ->. Qed.

Lemma js_or_falsy (a b : jsval) : truthy a = false -> js_or a b = b.
Proof. unfold js_or. now intros ->. Qed.

Lemma Z_div_between (n d lo hi : Z) :
  (0 < d -> lo * d <= n < (hi + 1) * d -> lo <= n / d <= hi)%Z.
Proof.
  intros Hd [Hlo Hhi]. split.
  - apply Z.div_le_lower_bound; lia.
  - apply Z.lt_succ_r, Z.div_lt_upper_bound; lia.
Qed.

Lemma Qfloor_between (x : Q) (lo hi : Z) :
  inject_Z lo <= x -> x < inject_Z (hi + 1) -> (lo <= Qfloor x <= hi)%Z.
Proof.
  intros Hlo Hhi. split.
  - rewrite <- (Qfloor_Z lo). now apply Qfloor_resp_le.
  - assert (Qfloor x < hi + 1)%Z; [|lia].
    rewrite Zlt_Qlt. eapply Qle_lt_trans; [apply Qfloor_le | exact Hhi].
Qed.

Lemma Qle_bool_false (x y : Q) : Qle_bool x y = false -> y < x.
Proof.
  intros E. apply Qnot_le_lt. intros Hle. apply Qle_bool_iff in Hle. congruence.
Qed.

Lemma Qlt_of_le_neq (x y : Q) : Qeq_bool y x = false -> x <= y -> x < y.
Proof.
  intros E Hle. destruct (Qle_lt_or_eq _ _ Hle) as [Hlt | Heq]; [exact Hlt|].
  apply Qeq_bool_neq in E. exfalso. apply E. now symmetry.
Qed.

(** [qbool] turns the boolean comparisons of the exact instance, in the
    hypotheses, into the propositions [lra] reads. *)
Ltac qbool :=
  repeat match goal with
  | H : Qle_bool _ _ = true |- _ => apply Qle_bool_iff in H
  | H : Qle_bool _ _ = false |- _ => apply Qle_bool_false in H
  | H : Qeq_bool _ _ = true |- _ => apply Qeq_bool_iff in H
  end.

(** [case_ifs] splits every [if] of the goal on its condition, keeping
    the equation. *)
Ltac case_ifs :=
  repeat match goal with
  | |- context [if ?c then _ else _] =>
      let E := fresh "E" in destruct c eqn:E
  end.

(** A boolean property checked on every integer of [[lo, lo + n)] holds
    on the whole range: the finite-domain checks of the development. *)
Definition Z_range (lo n : Z) : list Z :=
  map (fun i => (lo + Z.of_nat i)%Z) (seq 0 (Z.to_nat n)).

Lemma Z_range_forallb (P : Z -> bool) (lo n : Z) :
  forallb P (Z_range lo n) = true ->
  forall z, (lo <= z < lo + n)%Z -> P z = true.
Proof.
  unfold Z_range. intros Hall z Hz. rewrite forallb_forall in Hall.
  apply Hall, in_map_iff. exists (Z.to_nat (z - lo)). split; [lia|].
  apply in_seq. lia.
Qed.

(** The same on a rectangle of pairs. *)
Lemma Z_range_forallb2 (P : Z -> Z -> bool) (lo1 n1 lo2 n2 : Z) :
  forallb (fun x => forallb (P x) (Z_range lo2 n2)) (Z_range lo1 n1) = true ->
  forall x y, (lo1 <= x < lo1 + n1)%Z -> (lo2 <= y < lo2 + n2)%Z -> P x y = true.
Proof.
  intros Hall x y Hx Hy.
  exact (Z_range_forallb (P x) lo2 n2
           (Z_range_forallb (fun x => forallb (P x) (Z_range lo2 n2)) lo1 n1 Hall x Hx) y Hy).
Qed.

#[export] Hint Resolve Z_div_between Qfloor_between : magichome.

(** ** Strings *)

(** Every character of [s] satisfies [f]. *)
Fixpoint all_chars (f : ascii -> bool) (s : string) : bool :=
  match s with
  | EmptyString => true
  | String c s' => (f c && all_chars f s')%bool
  end.

Lemma all_chars_app (f : ascii -> bool) (a b : string) :
  all_chars f (a ++ b) = (all_chars f a && all_chars f b)%bool.
Proof. induction a as [|x a IH]; cbn; [reflexivity|]. now rewrite IH, Bool.andb_assoc. Qed.

(** ** Loose equality and string conversion *)

Lemma string_eqb_first_char (d c : ascii) (s r : string) :
  is_upper c = true -> is_upper d = false -> String.eqb (String d s) (String c r) = false.
Proof.
  intros Hc Hd. cbn. destruct (Ascii.eqb_spec d c) as [->|]; [congruence | reflexivity].
Qed.

(** A string that starts with a letter is NaN for [ToNumber]. *)
Lemma string_to_Z_upper (c : ascii) (rest : string) :
  is_upper c = true -> string_to_Z (String c rest) = None.
Proof.
  intros Hc. unfold string_to_Z. cbn [String.eqb NilEmpty.uint_of_string].
  destruct (NilEmpty.uint_of_string rest); [|reflexivity].
  destruct c as [[|] [|] [|] [|] [|] [|] [|] [|]]; cbn in Hc |- *;
    try discriminate; reflexivity.
Qed.

(** Type coercion: comparing a configuration value with [==] to a
    literal that starts with a letter (the source's ["RGBW"] and
    ["RGBWW"]) gives the same answer as comparing the text [+] makes of
    it: whatever JSON type the [setup] option has, the policy
    [setToCurrentColor] picks and the setup name it sends after [-x]
    agree. *)
Lemma loose_eq_string_to_string (v : jsval) (c : ascii) (rest : string) :
  is_upper c = true -> loose_eq_string v (String c rest) = String.eqb (js_to_string v) (String c rest).
Proof.
  intros Hc. destruct v as [| |b|z|s]; cbn [loose_eq_string js_to_string];
    try rewrite (string_to_Z_upper c rest Hc).
  - symmetry. now apply string_eqb_first_char.
  - symmetry. now apply string_eqb_first_char.
  - destruct b; symmetry; now apply string_eqb_first_char.
  - unfold Z_to_string. destruct (Z.to_int z) as [u|u]; [destruct u|];
      symmetry; now apply string_eqb_first_char.
  - reflexivity.
Qed.


