(* ===== verification/JsNumber.v ===== *)
(** * The two instances of the JavaScript number interface

    [QNum] reads every JavaScript number as the exact rational it would be
    without rounding error.  [F64Num] is IEEE-754 binary64, the numbers a
    JavaScript engine computes with: the kernel's primitive floats
    ([PrimFloat]: 53-bit significand, round to nearest even), which the
    kernel and its checker evaluate natively, so that the binary64
    behaviour of the plugin can be checked over whole input ranges.
    [Math.round] reads the exact value of the float ([Prim2SF]) and rounds
    it half up.  The two instances agree on every input the plugin's
    integer arithmetic produces except at exact halves, which a float
    computation may miss by one ulp (see [ChannelMapper]). *)

From Stdlib Require Import ZArith QArith Qround Lia Lqa SpecFloat PrimFloat FloatOps Uint63 Morphisms.
From S2P Require Import Prelude.

(** ** Exact rationals *)

(** [a < b] as the negation of [b <= a]. *)
Definition Qlt_bool (a b : Q) : bool := negb (Qle_bool b a).

Lemma Qlt_bool_true (a b : Q) : Qlt_bool a b = true -> a < b.
Proof.
  unfold Qlt_bool. intros E. apply Bool.negb_true_iff in E. now apply Qle_bool_false.
Qed.

Lemma Qlt_bool_false (a b : Q) : Qlt_bool a b = false -> b <= a.
Proof.
  unfold Qlt_bool. intros E. apply Bool.negb_false_iff in E. now apply Qle_bool_iff.
Qed.

(** [Math.round] on an exact value: [floor (x + 1/2)]. *)
Definition Qround_half_up (x : Q) : Z := Qfloor (x + (1 # 2)).

#[export] Instance QNum : JsNumber Q := {
  js_of_Z := inject_Z;
  js_add := Qplus;
  js_sub := Qminus;
  js_mul := Qmult;
  js_div := Qdiv;
  js_ltb := Qlt_bool;
  js_leb := Qle_bool;
  js_eqb := Qeq_bool;
  js_round := Qround_half_up
}.

#[export] Instance Qround_half_up_comp : Proper (Qeq ==> eq) Qround_half_up.
Proof.
  intros x y E. unfold Qround_half_up. apply Qfloor_comp. now rewrite E.
Qed.

(** Rounding a fraction is an integer division: the closed form every
    channel value of the plugin reduces to. *)
Lemma Qround_half_up_Qmake (a : Z) (d : positive) :
  Qround_half_up (a # d) = ((a * 2 + Zpos d) / (Zpos d * 2))%Z.
Proof. unfold Qround_half_up, Qfloor, Qplus. cbn [Qnum Qden]. f_equal; lia. Qed.

Lemma Qround_half_up_Z (z : Z) : Qround_half_up (inject_Z z) = z.
Proof.
  unfold inject_Z. rewrite Qround_half_up_Qmake.
  replace (z * 2 + 1)%Z with (1 + z * 2)%Z by lia.
  rewrite Z.div_add by lia. reflexivity.
Qed.

Lemma Qround_half_up_between (x : Q) (lo hi : Z) :
  inject_Z lo <= x -> x <= inject_Z hi -> (lo <= Qround_half_up x <= hi)%Z.
Proof.
  intros Hlo Hhi. unfold Qround_half_up. apply Qfloor_between.
  - apply Qle_trans with x; [exact Hlo|]. lra.
  - rewrite inject_Z_plus. unfold inject_Z at 2. lra.
Qed.

Lemma Qround_half_up_le (x y : Q) : x <= y -> (Qround_half_up x <= Qround_half_up y)%Z.
Proof. intros H. unfold Qround_half_up. apply Qfloor_resp_le. lra. Qed.

(** [qnum] unfolds the exact instance's operations into those of [Q]
    and its comparisons, in the hypotheses, into propositions. *)
Ltac closed_pos p :=
  lazymatch p with
  | xH => idtac
  | xO ?q => closed_pos q
  | xI ?q => closed_pos q
  end.

Ltac closed_Z z :=
  lazymatch z with
  | Z0 => idtac
  | Zpos ?p => closed_pos p
  | Zneg ?p => closed_pos p
  end.

(** [qconst] computes the quotients of two literals ([1 / 3], [0.5]
    written [1 / 2]), which [lra] does not read as constants. *)
Ltac qconst :=
  repeat match goal with
  | |- context [ (?a # ?b) / (?c # ?d) ] =>
      closed_Z a; closed_pos b; closed_Z c; closed_pos d;
      let v := eval vm_compute in ((a # b) / (c # d)) in
      change ((a # b) / (c # d)) with v
  | H : context [ (?a # ?b) / (?c # ?d) ] |- _ =>
      closed_Z a; closed_pos b; closed_Z c; closed_pos d;
      let v := eval vm_compute in ((a # b) / (c # d)) in
      change ((a # b) / (c # d)) with v in H
  end.

Ltac qnum :=
  cbn [js_of_Z js_add js_sub js_mul js_div js_ltb js_leb js_eqb js_round QNum] in *;
  unfold inject_Z in *; qconst;
  repeat match goal with
  | H : Qlt_bool _ _ = true |- _ => apply Qlt_bool_true in H
  | H : Qlt_bool _ _ = false |- _ => apply Qlt_bool_false in H
  end;
  qbool.

Lemma Qfrac_between (z : Z) (d : positive) :
  (0 <= z <= Zpos d)%Z -> 0 <= inject_Z z / inject_Z (Zpos d) <= 1.
Proof.
  intros Hz. unfold Qle, Qdiv, Qmult, Qinv, inject_Z. cbn. lia.
Qed.

(** [Math.round(a / d * k)] on integers, the shape of every scaling in
    the plugin ([brightness / 100 * 255], [converted[0] / 100 * brightness]). *)
Lemma Qround_frac_mul (a k : Z) (d : positive) :
  Qround_half_up (inject_Z a / inject_Z (Zpos d) * inject_Z k)
  = ((a * k * 2 + Zpos d) / (Zpos d * 2))%Z.
Proof.
  rewrite <- Qround_half_up_Qmake. apply Qround_half_up_comp.
  unfold Qeq, Qdiv, Qmult, Qinv, inject_Z. cbn. lia.
Qed.

Lemma Qjs_min_idem (a : Q) : js_min a a = a.
Proof. unfold js_min. cbn. now rewrite (proj2 (Qle_bool_iff a a) (Qle_refl a)). Qed.

Lemma Qjs_max_idem (a : Q) : js_max a a = a.
Proof. unfold js_max. cbn. now rewrite (proj2 (Qle_bool_iff a a) (Qle_refl a)). Qed.

Lemma Qeq_bool_same (a : Q) : Qeq_bool a a = true.
Proof. apply Qeq_bool_iff. reflexivity. Qed.

#[export] Hint Rewrite Qround_half_up_Qmake Qround_half_up_Z : magichome_rw.
#[export] Hint Resolve Qround_half_up_between Qround_half_up_le : magichome.

(** ** binary64 *)

Definition f64_prec : Z := 53.
Definition f64_emax : Z := 1024.

(** The float nearest to an integer: exact below 2^53 ([of_uint63]
    converts a machine integer), correctly rounded above. *)
Definition f64_of_Z (z : Z) : float :=
  if (Z.abs z <? 9007199254740992)%Z then (* 2^53 *)
    if (z <? 0)%Z then PrimFloat.opp (PrimFloat.of_uint63 (Uint63.of_Z (- z)))
    else PrimFloat.of_uint63 (Uint63.of_Z z)
  else SF2Prim (binary_normalize f64_prec f64_emax z 0 false).

(** The exact value of a finite float; zeros, infinities and NaN read as
    0 (the plugin's arithmetic never produces the last two). *)
Definition f64_to_Q (x : spec_float) : Q :=
  match x with
  | S754_finite s m e =>
      let n := (if s then Z.neg m else Z.pos m) in
      match e with
      | Z.neg p => n # Pos.pow 2 p
      | _ => inject_Z (n * 2 ^ e)
      end
  | _ => 0
  end.

(** [Math.round] of a float: [floor(n / 2^k + 1/2)] as a shift of the
    integer significand [n] (the same as [Qround_half_up] of the exact
    value, [f64_round_exact]). *)
Definition f64_round (x : spec_float) : Z :=
  match x with
  | S754_finite s m e =>
      let n := (if s then Z.neg m else Z.pos m) in
      match e with
      | Z.neg p => Z.shiftr (n * 2 + 2 ^ Zpos p) (Zpos p + 1)
      | _ => (n * 2 ^ e)%Z
      end
  | _ => 0%Z
  end.

Lemma f64_round_exact (x : spec_float) : f64_round x = Qround_half_up (f64_to_Q x).
Proof.
  destruct x as [| | |s m [|e|e]]; try reflexivity;
    cbn [f64_round f64_to_Q]; try (symmetry; apply Qround_half_up_Z).
  rewrite Qround_half_up_Qmake, Z.shiftr_div_pow2 by lia.
  rewrite Pos2Z.inj_pow, Z.pow_add_r, Z.pow_1_r by lia. reflexivity.
Qed.

#[export] Instance F64Num : JsNumber float := {
  js_of_Z := f64_of_Z;
  js_add := PrimFloat.add;
  js_sub := PrimFloat.sub;
  js_mul := PrimFloat.mul;
  js_div := PrimFloat.div;
  js_ltb := PrimFloat.ltb;
  js_leb := PrimFloat.leb;
  js_eqb := PrimFloat.eqb;
  js_round := fun x => f64_round (Prim2SF x)
}.

(** The binary64 instance is IEEE arithmetic, not exact: 0.1 + 0.2 is not
    0.3 there, while it is for the exact instance. *)
Example f64_tenths_inexact :
  (let x : float := jz 1 /! jz 10 +! jz 2 /! jz 10 in x ==! jz 3 /! jz 10)%js = false
  /\ (let x : Q := jz 1 /! jz 10 +! jz 2 /! jz 10 in x ==! jz 3 /! jz 10)%js = true.
Proof. split; vm_compute; reflexivity. Qed.
