(* ===== verification/ColorConvert.v ===== *)
(** * The color-convert library: [convert.hsl.rgb] and [convert.rgb.hsl]

    The plugin calls the npm package color-convert (not part of this
    repository): [convert.hsl.rgb] in [setToCurrentColor] and
    [convert.rgb.hsl] in [getState].  Both are the library's conversion
    functions wrapped by its [wrapRounded], which applies [Math.round] to
    each component of the result.  They are modelled here from the
    library's algorithm, over any [JsNumber], together with the interface
    [ColorConverter] the plugin relies on and its laws, which the exact
    instance discharges. *)

From Stdlib Require Import ZArith QArith Qround Lia Lqa List PrimFloat.
From S2P Require Import Prelude JsNumber.

(** Colors as the plugin holds them: [{H, S, L}] and an [[r, g, b]]
    array.  All components are integers after [wrapRounded]. *)
Record hsl := mkHSL { hue : Z; saturation : Z; lightness : Z }.
Record rgb := mkRGB { red : Z; green : Z; blue : Z }.

Section Conversions.
Context {N : Type} `{JsNumber N}.
Local Open Scope js_scope.

(** One turn of the loop of [convert.hsl.rgb], for channel [i]
    (0 red, 1 green, 2 blue): [t3 = h + 1/3 * -(i - 1)], brought
    into [[0, 1]] by one [t3++] or [t3--], then the piecewise-linear
    profile between [t1] and [t2], scaled by 255. *)
Definition hsl_channel (t1 t2 h : N) (i : Z) : N :=
  let t3 := h +! jz 1 /! jz 3 *! (jz 0 -! (jz i -! jz 1)) in
  let t3 := if t3 <! jz 0 then t3 +! jz 1 else t3 in
  let t3 := if jz 1 <! t3 then t3 -! jz 1 else t3 in
  let val :=
    if jz 6 *! t3 <! jz 1 then t1 +! (t2 -! t1) *! jz 6 *! t3
    else if jz 2 *! t3 <! jz 1 then t2
    else if jz 3 *! t3 <! jz 2 then t1 +! (t2 -! t1) *! (jz 2 /! jz 3 -! t3) *! jz 6
    else t1 in
  val *! jz 255.

(** [t2] of [convert.hsl.rgb]: [l < 0.5 ? l * (1 + s) : l + s - l * s]. *)
Definition hsl_t2 (s l : N) : N :=
  if l <! jz 1 /! jz 2 then l *! (jz 1 +! s) else l +! s -! l *! s.

(** [convert.hsl.rgb] before rounding. *)
Definition hsl_rgb_raw (c : hsl) : N * N * N :=
  let h := jz (hue c) /! jz 360 in
  let s := jz (saturation c) /! jz 100 in
  let l := jz (lightness c) /! jz 100 in
  if s ==! jz 0 then
    let val := l *! jz 255 in (val, val, val)
  else
    let t2 := hsl_t2 s l in
    let t1 := jz 2 *! l -! t2 in
    (hsl_channel t1 t2 h 0, hsl_channel t1 t2 h 1, hsl_channel t1 t2 h 2).

(** The hue sector of [convert.rgb.hsl], before [* 60]: the chain
    [max === min ? 0 : r === max ? (g - b) / delta : ...]. *)
Definition rgb_hue_sector (r g b mn mx delta : N) : N :=
  if mx ==! mn then jz 0
  else if r ==! mx then (g -! b) /! delta
  else if g ==! mx then jz 2 +! (b -! r) /! delta
  else if b ==! mx then jz 4 +! (r -! g) /! delta
  else jz 0 (* unreachable: max is one of r, g, b *).

(** The saturation of [convert.rgb.hsl], before [* 100]. *)
Definition rgb_saturation (mn mx delta l : N) : N :=
  if mx ==! mn then jz 0
  else if l <=! jz 1 /! jz 2 then delta /! (mx +! mn)
  else delta /! (jz 2 -! mx -! mn).

(** [convert.rgb.hsl] before rounding. *)
Definition rgb_hsl_raw (c : rgb) : N * N * N :=
  let r := jz (red c) /! jz 255 in
  let g := jz (green c) /! jz 255 in
  let b := jz (blue c) /! jz 255 in
  let mn := js_min3 r g b in
  let mx := js_max3 r g b in
  let delta := mx -! mn in
  let h := rgb_hue_sector r g b mn mx delta in
  let h := js_min (h *! jz 60) (jz 360) in
  let h := if h <! jz 0 then h +! jz 360 else h in
  let l := (mn +! mx) /! jz 2 in
  let s := rgb_saturation mn mx delta l in
  (h, s *! jz 100, l *! jz 100).

(** [wrapRounded]: [Math.round] on every component. *)
Definition round3 (v : N * N * N) : Z * Z * Z :=
  let '(a, b, c) := v in (js_round a, js_round b, js_round c).

Definition hsl_to_rgb (c : hsl) : rgb :=
  let '(r, g, b) := round3 (hsl_rgb_raw c) in mkRGB r g b.

Definition rgb_to_hsl (c : rgb) : hsl :=
  let '(h, s, l) := round3 (rgb_hsl_raw c) in mkHSL h s l.
End Conversions.

Arguments hsl_to_rgb N {_} c.
Arguments rgb_to_hsl N {_} c.

(** ** Ranges and the interface the plugin relies on *)

(** HomeKit's ranges: hue 0..360, saturation and lightness 0..100;
    channels 0..255. *)
Definition hsl_in_range (c : hsl) : bool :=
  ((0 <=? hue c) && (hue c <=? 360) && (0 <=? saturation c) && (saturation c <=? 100)
   && (0 <=? lightness c) && (lightness c <=? 100))%Z.

Definition rgb_in_range (c : rgb) : bool :=
  ((0 <=? red c) && (red c <=? 255) && (0 <=? green c) && (green c <=? 255)
   && (0 <=? blue c) && (blue c <=? 255))%Z.

Lemma hsl_in_range_spec (c : hsl) :
  hsl_in_range c = true <->
  (0 <= hue c <= 360 /\ 0 <= saturation c <= 100 /\ 0 <= lightness c <= 100)%Z.
Proof. unfold hsl_in_range. rewrite !Bool.andb_true_iff, !Z.leb_le. tauto. Qed.

Lemma rgb_in_range_spec (c : rgb) :
  rgb_in_range c = true <->
  (0 <= red c <= 255 /\ 0 <= green c <= 255 /\ 0 <= blue c <= 255)%Z.
Proof. unfold rgb_in_range. rewrite !Bool.andb_true_iff, !Z.leb_le. tauto. Qed.

(** What the plugin needs of a color converter: the two conversions, and
    that each maps its range into the other's.  The class is indexed by
    the number type the library computes with, so that each number type
    selects its own converter. *)
Class ColorConverter (N : Type) := {
  cc_hsl_rgb : hsl -> rgb;
  cc_rgb_hsl : rgb -> hsl
}.

Class ColorConverterLaws (N : Type) `{ColorConverter N} := {
  cc_hsl_rgb_range : forall c, hsl_in_range c = true -> rgb_in_range (cc_hsl_rgb c) = true;
  cc_rgb_hsl_range : forall c, rgb_in_range c = true -> hsl_in_range (cc_rgb_hsl c) = true
}.

(** color-convert over a number type. *)
#[export] Instance color_convert (N : Type) `{JsNumber N} : ColorConverter N := {
  cc_hsl_rgb := hsl_to_rgb N;
  cc_rgb_hsl := rgb_to_hsl N
}.

(** ** Bounds of [convert.hsl.rgb] on exact numbers *)

Lemma hsl_t2_between (s l : Q) :
  0 <= s <= 1 -> 0 <= l <= 1 ->
  l <= hsl_t2 s l <= 1 /\ 0 <= 2 * l - hsl_t2 s l.
Proof.
  intros Hs Hl. unfold hsl_t2.
  pose proof (Qmult_le_0_compat l (1 - s) ltac:(lra) ltac:(lra)).
  pose proof (Qmult_le_0_compat s (1 - l) ltac:(lra) ltac:(lra)).
  pose proof (Qmult_le_0_compat l s ltac:(lra) ltac:(lra)).
  pose proof (Qmult_le_0_compat (1 - s) (1 - l) ltac:(lra) ltac:(lra)).
  case_ifs; qnum; split; lra.
Qed.

Lemma hsl_channel_between (t1 t2 h : Q) (i : Z) :
  0 <= t1 <= t2 -> t2 <= 1 -> 0 <= h -> (0 <= i <= 2)%Z ->
  0 <= hsl_channel t1 t2 h i <= 255.
Proof.
  intros Ht Ht2 Hh Hi. unfold hsl_channel.
  assert (i = 0 \/ i = 1 \/ i = 2)%Z as [-> | [-> | ->]] by lia;
  case_ifs; qnum; nra.
Qed.

(** [qround_range] closes a bound on a rounded value from bounds on the
    exact one. *)
Ltac qround_range :=
  cbn [js_round QNum]; apply Qround_half_up_between; unfold inject_Z; lra.

Lemma hsl_to_rgb_range_Q (c : hsl) :
  hsl_in_range c = true -> rgb_in_range (hsl_to_rgb Q c) = true.
Proof.
  rewrite hsl_in_range_spec, rgb_in_range_spec. intros (Hh & Hs & Hl).
  unfold hsl_to_rgb, hsl_rgb_raw, round3.
  pose proof (Qfrac_between (saturation c) 100 ltac:(lia)) as Hs'.
  pose proof (Qfrac_between (lightness c) 100 ltac:(lia)) as Hl'.
  assert (0 <= inject_Z (hue c) / inject_Z 360) as Hh'.
  { apply (Qfrac_between (hue c) 360). lia. }
  cbn [js_of_Z js_div js_eqb js_mul js_sub QNum] in *.
  set (h := inject_Z (hue c) / _) in *.
  set (s := inject_Z (saturation c) / _) in *.
  set (l := inject_Z (lightness c) / _) in *.
  destruct (Qeq_bool s (inject_Z 0)).
  - cbn [round3 red green blue]. split; [|split]; qround_range.
  - destruct (hsl_t2_between s l Hs' Hl') as [Ht2 Ht1].
    pose proof (fun i Hi => hsl_channel_between (inject_Z 2 * l - hsl_t2 s l) (hsl_t2 s l) h i
                  ltac:(split; [exact Ht1 | unfold inject_Z; lra]) ltac:(lra) Hh' Hi) as Hch.
    cbn [round3 red green blue]. split; [|split]; cbn [js_round QNum];
      apply Qround_half_up_between; unfold inject_Z; apply Hch; lia.
Qed.

(** ** Bounds of [convert.rgb.hsl] on exact numbers *)

Lemma Qjs_min_spec (a b : Q) :
  js_min a b <= a /\ js_min a b <= b /\ (js_min a b = a \/ js_min a b = b).
Proof. unfold js_min. case_ifs; qnum; repeat split; auto; lra. Qed.

Lemma Qjs_max_spec (a b : Q) :
  a <= js_max a b /\ b <= js_max a b /\ (js_max a b = a \/ js_max a b = b).
Proof. unfold js_max. case_ifs; qnum; repeat split; auto; lra. Qed.

Lemma Qdiv_ge_m1 (a d : Q) : 0 < d -> - d <= a -> -1 <= a / d.
Proof. intros Hd Ha. apply Qle_shift_div_l; [exact Hd | lra]. Qed.

Lemma Qdiv_between01 (a d : Q) : 0 < d -> 0 <= a <= d -> 0 <= a / d <= 1.
Proof.
  intros Hd Ha. split.
  - apply Qle_shift_div_l; [exact Hd | lra].
  - apply Qle_shift_div_r; [exact Hd | lra].
Qed.

Lemma rgb_hue_sector_ge (r g b mn mx : Q) :
  mn <= r <= mx -> mn <= g <= mx -> mn <= b <= mx ->
  -1 <= rgb_hue_sector r g b mn mx (mx - mn).
Proof.
  intros Hr Hg Hb. unfold rgb_hue_sector. qnum.
  destruct (Qeq_bool mx mn) eqn:E; [lra|].
  apply Qlt_of_le_neq in E; [|lra].
  pose proof (Qdiv_ge_m1 (g - b) (mx - mn) ltac:(lra) ltac:(lra)).
  pose proof (Qdiv_ge_m1 (b - r) (mx - mn) ltac:(lra) ltac:(lra)).
  pose proof (Qdiv_ge_m1 (r - g) (mx - mn) ltac:(lra) ltac:(lra)).
  case_ifs; qnum; lra.
Qed.

Lemma rgb_saturation_between (mn mx : Q) :
  0 <= mn <= mx -> mx <= 1 ->
  0 <= rgb_saturation mn mx (mx - mn) ((mn + mx) / 2) <= 1.
Proof.
  intros Hmn Hmx. unfold rgb_saturation. qnum.
  destruct (Qeq_bool mx mn) eqn:E; [lra|].
  apply Qlt_of_le_neq in E; [|lra].
  case_ifs; qnum; apply Qdiv_between01; lra.
Qed.

Lemma Qjs_min3_between (a b c lo : Q) :
  lo <= a -> lo <= b -> lo <= c ->
  lo <= js_min3 a b c /\ js_min3 a b c <= a /\ js_min3 a b c <= b /\ js_min3 a b c <= c.
Proof.
  intros Ha Hb Hc. unfold js_min3.
  destruct (Qjs_min_spec a b) as (H1 & H2 & [E1 | E1]);
  destruct (Qjs_min_spec (js_min a b) c) as (H3 & H4 & [E2 | E2]);
  rewrite ?E2 in *; rewrite ?E1 in *; lra.
Qed.

Lemma Qjs_max3_between (a b c hi : Q) :
  a <= hi -> b <= hi -> c <= hi ->
  js_max3 a b c <= hi /\ a <= js_max3 a b c /\ b <= js_max3 a b c /\ c <= js_max3 a b c.
Proof.
  intros Ha Hb Hc. unfold js_max3.
  destruct (Qjs_max_spec a b) as (H1 & H2 & [E1 | E1]);
  destruct (Qjs_max_spec (js_max a b) c) as (H3 & H4 & [E2 | E2]);
  rewrite ?E2 in *; rewrite ?E1 in *; lra.
Qed.

Lemma rgb_to_hsl_range_Q (c : rgb) :
  rgb_in_range c = true -> hsl_in_range (rgb_to_hsl Q c) = true.
Proof.
  rewrite rgb_in_range_spec, hsl_in_range_spec. intros (Hr & Hg & Hb).
  pose proof (Qfrac_between (red c) 255 ltac:(lia)) as Hr'.
  pose proof (Qfrac_between (green c) 255 ltac:(lia)) as Hg'.
  pose proof (Qfrac_between (blue c) 255 ltac:(lia)) as Hb'.
  unfold rgb_to_hsl, rgb_hsl_raw, round3.
  cbn [js_of_Z js_div js_mul js_add js_sub js_ltb QNum] in *.
  set (r := inject_Z (red c) / _) in *.
  set (g := inject_Z (green c) / _) in *.
  set (b := inject_Z (blue c) / _) in *.
  destruct (Qjs_min3_between r g b 0 ltac:(lra) ltac:(lra) ltac:(lra)) as (Hmn & Hmnr & Hmng & Hmnb).
  destruct (Qjs_max3_between r g b 1 ltac:(lra) ltac:(lra) ltac:(lra)) as (Hmx & Hmxr & Hmxg & Hmxb).
  set (mn := js_min3 r g b) in *. set (mx := js_max3 r g b) in *.
  pose proof (rgb_hue_sector_ge r g b mn mx ltac:(lra) ltac:(lra) ltac:(lra)) as Hh.
  pose proof (rgb_saturation_between mn mx ltac:(lra) ltac:(lra)) as Hs.
  set (h0 := rgb_hue_sector _ _ _ _ _ _) in *.
  set (s0 := rgb_saturation _ _ _ _) in *.
  destruct (Qjs_min_spec (h0 * inject_Z 60) (inject_Z 360)) as (Hm1 & Hm2 & Hm3).
  pose proof (Qdiv_between01 (mn + mx) 2 ltac:(lra) ltac:(lra)) as Hl.
  set (hm := js_min _ _) in *. clearbody hm.
  cbn [hue saturation lightness].
  split; [|split]; [destruct (Qlt_bool hm (inject_Z 0)) eqn:E; qnum|..];
    cbn [js_round QNum]; apply Qround_half_up_between; unfold inject_Z in *;
    destruct Hm3 as [-> | ->]; lra.
Qed.

#[export] Instance color_convert_laws_Q : ColorConverterLaws Q.
Proof. split; [apply hsl_to_rgb_range_Q | apply rgb_to_hsl_range_Q]. Qed.

(** C12. [convert.hsl.rgb] maps HomeKit's color ranges into channel
    values 0..255. *)
Theorem hsl_to_rgb_in_range (c : hsl) :
  hsl_in_range c = true -> rgb_in_range (hsl_to_rgb Q c) = true.
Proof. apply hsl_to_rgb_range_Q. Qed.

Example hsl_to_rgb_in_range_witness :
  hsl_in_range (mkHSL 300 70 40) = true /\ rgb_in_range (hsl_to_rgb Q (mkHSL 300 70 40)) = true.
Proof. split; [reflexivity | apply hsl_to_rgb_in_range; reflexivity]. Defined.

(** C13. [convert.rgb.hsl] maps channel values 0..255 into HomeKit's color
    ranges: hue 0..360, saturation and lightness 0..100. *)
Theorem rgb_to_hsl_in_range (c : rgb) :
  rgb_in_range c = true -> hsl_in_range (rgb_to_hsl Q c) = true.
Proof. apply rgb_to_hsl_range_Q. Qed.

Example rgb_to_hsl_in_range_witness :
  rgb_in_range (mkRGB 12 200 99) = true /\ hsl_in_range (rgb_to_hsl Q (mkRGB 12 200 99)) = true.
Proof. split; [reflexivity | apply rgb_to_hsl_in_range; reflexivity]. Defined.

(** ** Round trips *)

Definition hsl_eqb (a b : hsl) : bool :=
  ((hue a =? hue b) && (saturation a =? saturation b) && (lightness a =? lightness b))%Z.

Lemma hsl_eqb_eq (a b : hsl) : hsl_eqb a b = true <-> a = b.
Proof.
  destruct a, b. unfold hsl_eqb. cbn. rewrite !Bool.andb_true_iff, !Z.eqb_eq.
  split; [intros ((-> & ->) & ->); reflexivity | intros [=]; auto].
Qed.

(** Greys: [convert.hsl.rgb] sends any [{H, 0, L}] to one channel value
    [round(L * 2.55)]. *)
Lemma hsl_to_rgb_grey_Q (h l : Z) :
  let v := ((l * 255 * 2 + 100) / 200)%Z in
  hsl_to_rgb Q (mkHSL h 0 l) = mkRGB v v v.
Proof.
  unfold hsl_to_rgb, hsl_rgb_raw, round3. cbn [hue saturation lightness].
  cbn [js_round js_mul js_div js_of_Z js_eqb QNum].
  change (Qeq_bool (inject_Z 0 / inject_Z 100) (inject_Z 0)) with true.
  cbn iota zeta beta. now rewrite Qround_frac_mul.
Qed.

(** On a grey [convert.rgb.hsl] gives hue and saturation 0 and the
    lightness [round(v / 2.55)]. *)
Lemma rgb_to_hsl_grey_Q (v : Z) :
  rgb_to_hsl Q (mkRGB v v v) = mkHSL 0 0 ((v * 100 * 2 + 255) / 510).
Proof.
  unfold rgb_to_hsl, rgb_hsl_raw, round3, js_min3, js_max3.
  cbn [red green blue]. rewrite !Qjs_min_idem, !Qjs_max_idem.
  unfold rgb_hue_sector, rgb_saturation. cbn [js_eqb QNum].
  rewrite Qeq_bool_same. cbn iota beta zeta.
  f_equal. rewrite <- Qround_half_up_Qmake. apply Qround_half_up_comp.
  unfold Qeq, Qdiv, Qmult, Qplus, Qinv, inject_Z. cbn. lia.
Qed.

(** C14. A grey [{H, 0, L}] read back through the device comes back as
    [{0, 0, L}]: the lightness survives the 0..255 rounding exactly, the
    hue is lost.  The spec's "round trip within 1 per component" fails
    for every grey of hue 2 or more. *)
Theorem grey_roundtrip_Q (h l : Z) :
  (0 <= l <= 100)%Z ->
  rgb_to_hsl Q (hsl_to_rgb Q (mkHSL h 0 l)) = mkHSL 0 0 l.
Proof.
  intros Hl. rewrite hsl_to_rgb_grey_Q, rgb_to_hsl_grey_Q. f_equal.
  assert (Hv : (l * 510 + 100 - 199 <= ((l * 255 * 2 + 100) / 200) * 200 <= l * 510 + 100)%Z).
  { pose proof (Z.div_mod (l * 255 * 2 + 100) 200 ltac:(lia)).
    pose proof (Z.mod_pos_bound (l * 255 * 2 + 100) 200 ltac:(lia)). lia. }
  apply Z.le_antisymm; [apply Z.lt_succ_r, Z.div_lt_upper_bound | apply Z.div_le_lower_bound]; lia.
Qed.

Example grey_roundtrip_Q_witness :
  (0 <= 50 <= 100)%Z /\ rgb_to_hsl Q (hsl_to_rgb Q (mkHSL 200 0 50)) = mkHSL 0 0 50.
Proof. split; [lia | apply (grey_roundtrip_Q 200 50); lia]. Defined.

(** C15. Every fully saturated hue of lightness 50 survives the round trip
    through 0..255 channels exactly, with exact arithmetic and with
    binary64 alike (checked over the 360 integer hues). *)
Theorem pure_hue_roundtrip (h : Z) :
  (0 <= h < 360)%Z ->
  rgb_to_hsl Q (hsl_to_rgb Q (mkHSL h 100 50)) = mkHSL h 100 50
  /\ rgb_to_hsl float (hsl_to_rgb float (mkHSL h 100 50)) = mkHSL h 100 50.
Proof.
  intros Hh. split; apply hsl_eqb_eq.
  - refine (Z_range_forallb
      (fun z => hsl_eqb (rgb_to_hsl Q (hsl_to_rgb Q (mkHSL z 100 50))) (mkHSL z 100 50))
      0 360 _ h Hh).
    vm_compute. reflexivity.
  - refine (Z_range_forallb
      (fun z => hsl_eqb (rgb_to_hsl float (hsl_to_rgb float (mkHSL z 100 50)))
                        (mkHSL z 100 50))
      0 360 _ h Hh).
    vm_compute. reflexivity.
Qed.

Example pure_hue_roundtrip_witness :
  (0 <= 200 < 360)%Z /\
  rgb_to_hsl Q (hsl_to_rgb Q (mkHSL 200 100 50)) = mkHSL 200 100 50
  /\ rgb_to_hsl float (hsl_to_rgb float (mkHSL 200 100 50)) = mkHSL 200 100 50.
Proof. split; [lia | apply (pure_hue_roundtrip 200); lia]. Defined.

(** The spec's round-trip tolerance of 1 per component does not hold
    for dark colors: [{10, 100, 1}] renders to [(5, 1, 0)], which reads
    back with hue 12, with exact arithmetic and with binary64. *)
Example dark_hue_drift :
  hsl_in_range (mkHSL 10 100 1) = true
  /\ hsl_to_rgb Q (mkHSL 10 100 1) = mkRGB 5 1 0
  /\ rgb_to_hsl Q (mkRGB 5 1 0) = mkHSL 12 100 1
  /\ rgb_to_hsl float (hsl_to_rgb float (mkHSL 10 100 1)) = mkHSL 12 100 1.
Proof. vm_compute. repeat split. Qed.

(** binary64 misses exact halves: [{0, 50, 20}] has green and blue
    exactly 25.5, which the float computation of color-convert rounds
    down to 25 and the exact one up to 26. *)
Example float_half_ulp :
  hsl_to_rgb float (mkHSL 0 50 20) = mkRGB 77 25 25
  /\ hsl_to_rgb Q (mkHSL 0 50 20) = mkRGB 77 26 26.
Proof. vm_compute. split; reflexivity. Qed.
