(* ===== verification/ChannelMapper.v ===== *)
(** * [setToCurrentColor]: from the light's state to a channel command

    [MagicHomeAccessory.prototype.setToCurrentColor] (src/index.js) reads
    the accessory's color, brightness, setup and white options, chooses
    one of five channel policies and sends one [flux_led.py] command.
    [set_to_current_color] is that function over any [JsNumber] and any
    [ColorConverter]; [render_command] is the command string it builds.
    The spec's policy table (its section 4.2) is [spec_table], instantiated
    with its level formulas rounded half up ([spec_compute]) and half down
    ([spec_compute_down]); with exact arithmetic the code computes
    [spec_compute] ([set_to_current_color_spec]).  The theorems of this
    file are proved for exact arithmetic; [Binary64] treats the program's
    binary64 arithmetic. *)

From Stdlib Require Import ZArith QArith Qround String List Lia Lqa PrimFloat.
From S2P Require Import Prelude JsNumber ColorConvert.
Import ListNotations.

(** The fields of the accessory that [setToCurrentColor] reads. *)
Record snapshot := mkSnapshot {
  sn_setup : jsval;
  sn_onlywhite : jsval;
  sn_combinedwhite : jsval;
  sn_purewhite : jsval;
  sn_color : hsl;
  sn_brightness : Z
}.

(** The two command forms the code sends: [-x <setup> -V r,g,b,ww,cw]
    sets all five channels, [-x <setup> -c r,g,b] only the colors. *)
Inductive channel_command :=
| SetAll (r g b ww cw : Z)
| SetRGB (r g b : Z).

(** The calibration constants of the RGBWW branch. *)
Definition wred : Z := 223.
Definition cred : Z := 98.

Section Mapper.
Context {N : Type} `{JsNumber N} `{ColorConverter N}.
Local Open Scope js_scope.

(** [Math.round(brightness/100*255)], the [ww] and [cw] of the code's
    first lines. *)
Definition white_level (brightness : Z) : Z :=
  js_round (jz brightness /! jz 100 *! jz 255).

(** [fac = (r-cred)/(wred-cred)], clamped by
    [Math.max(0.0, Math.min(1.0, fac))]. *)
Definition warm_factor (r : Z) : N :=
  let fac := (jz r -! jz cred) /! (jz wred -! jz cred) in
  js_max (jz 0) (js_min (jz 1) fac).

(** [Math.round(fac*brightness*2.55)]; the literal [2.55] is the
    number nearest to 255/100, which [jz 255 /! jz 100] also is. *)
Definition warm_level (fac : N) (brightness : Z) : Z :=
  js_round (fac *! jz brightness *! (jz 255 /! jz 100)).

(** [Math.round((converted[i] / 100) * brightness)]. *)
Definition scale_channel (c brightness : Z) : Z :=
  js_round (jz c /! jz 100 *! jz brightness).

Definition set_to_current_color (s : snapshot) : channel_command :=
  let color := sn_color s in
  let brightness := sn_brightness s in
  let ww := white_level brightness in
  let cw := white_level brightness in
  if loose_eq_string (sn_setup s) "RGBW" && truthy (sn_onlywhite s) then
    SetAll 0 0 0 ww 0
  else if loose_eq_string (sn_setup s) "RGBWW" && truthy (sn_onlywhite s) then
    let converted := cc_hsl_rgb color in
    let fac := warm_factor (red converted) in
    let ww := warm_level fac brightness in
    let cw := warm_level (jz 1 -! fac) brightness in
    SetAll 0 0 0 ww cw
  else
    let converted := cc_hsl_rgb color in
    let r := scale_channel (red converted) brightness in
    let g := scale_channel (green converted) brightness in
    let b := scale_channel (blue converted) brightness in
    if truthy (sn_combinedwhite s) then SetAll r g b ww cw
    else if ((saturation color =? 0) && (hue color =? 0))%Z && truthy (sn_purewhite s)
    then SetAll 0 0 0 ww cw
    else SetRGB r g b.
End Mapper.

Arguments set_to_current_color N {_ _} s.

(** ** The command string *)

Fixpoint join_values (vs : list Z) : string :=
  match vs with
  | [] => EmptyString
  | [v] => Z_to_string v
  | v :: rest => (Z_to_string v ++ "," ++ join_values rest)%string
  end.

(** [base + values], with [base = '-x ' + this.setup + ' -V'] or, for the
    color-only command, [' -c']. *)
Definition render_command (setup : jsval) (c : channel_command) : string :=
  match c with
  | SetAll r g b ww cw =>
      ("-x " ++ js_to_string setup ++ " -V" ++ join_values [r; g; b; ww; cw])%string
  | SetRGB r g b =>
      ("-x " ++ js_to_string setup ++ " -c" ++ join_values [r; g; b])%string
  end.

(** The argument [setToCurrentColor] passes to [sendCommand]. *)
Definition set_to_current_color_command (N : Type) `{JsNumber N} `{ColorConverter N}
    (s : snapshot) : string :=
  render_command (sn_setup s) (set_to_current_color N s).

(** ** The spec's policy table *)

(** The spec's configuration: a setup among three and three booleans. *)
Inductive setup_kind := RGB | RGBW | RGBWW.

Record config := mkConfig {
  setup : setup_kind;
  onlywhite : bool;
  combinedwhite : bool;
  purewhite : bool
}.

Definition setup_name (k : setup_kind) : string :=
  match k with RGB => "RGB" | RGBW => "RGBW" | RGBWW => "RGBWW" end.

(** The accessory's fields for a spec configuration, as the plugin
    stores them from a JSON configuration of strings and booleans. *)
Definition config_snapshot (c : config) (color : hsl) (brightness : Z) : snapshot :=
  mkSnapshot (JStr (setup_name (setup c))) (JBool (onlywhite c)) (JBool (combinedwhite c))
    (JBool (purewhite c)) color brightness.

(** The policies of the spec, section 4.2, in precedence order. *)
Inductive policy := OnlyWhiteRGBW | OnlyWhiteRGBWW | CombinedWhite | PureWhite | ColorOnly.

Definition spec_policy (c : config) (color : hsl) : policy :=
  match setup c, onlywhite c with
  | RGBW, true => OnlyWhiteRGBW
  | RGBWW, true => OnlyWhiteRGBWW
  | _, _ =>
      if combinedwhite c then CombinedWhite
      else if ((saturation color =? 0) && (hue color =? 0))%Z && purewhite c then PureWhite
      else ColorOnly
  end.

Inductive spec_command :=
| AllChannels (r g b ww cw : Z)
| WhiteOnly (ww cw : Z)
| RGBOnly (r g b : Z).

(** [round(n / d)] for [d > 0], half up. *)
Definition round_div (n : Z) (d : positive) : Z := ((n * 2 + Zpos d) / (Zpos d * 2))%Z.

Definition spec_white (b : Z) : Z := round_div (b * 255) 100.

(** The RGBWW warm/cold split: [fac] clamped to [[0, 1]] between the two
    calibration reds. *)
Definition spec_warm (r b : Z) : Z * Z :=
  if (r <=? cred)%Z then (0%Z, spec_white b)
  else if (wred <=? r)%Z then (spec_white b, 0%Z)
  else (round_div ((r - cred) * b * 255) 12500, round_div ((wred - r) * b * 255) 12500).

Definition spec_scale (c b : Z) : Z := round_div (c * b) 100.

(** The table of section 4.2, given the three level formulas. *)
Definition spec_table (white : Z -> Z) (warm : Z -> Z -> Z * Z) (scale : Z -> Z -> Z)
    (render : hsl -> rgb) (c : config) (color : hsl) (b : Z) : spec_command :=
  match spec_policy c color with
  | OnlyWhiteRGBW => AllChannels 0 0 0 (white b) 0
  | OnlyWhiteRGBWW =>
      let w := warm (red (render color)) b in AllChannels 0 0 0 (fst w) (snd w)
  | CombinedWhite =>
      let v := render color in
      AllChannels (scale (red v) b) (scale (green v) b) (scale (blue v) b) (white b) (white b)
  | PureWhite => WhiteOnly (white b) (white b)
  | ColorOnly =>
      let v := render color in RGBOnly (scale (red v) b) (scale (green v) b) (scale (blue v) b)
  end.

(** The spec's command: its formulas rounded half up, as [Math.round]
    rounds the exact value. *)
Definition spec_compute : (hsl -> rgb) -> config -> hsl -> Z -> spec_command :=
  spec_table spec_white spec_warm spec_scale.

(** The same formulas rounded half down: a value of the exact formula
    that is an exact half ([x.5]) rounds to [x]; every other value
    rounds as above. *)
Definition round_div_down (n : Z) (d : positive) : Z := ((n * 2 + Zpos d - 1) / (Zpos d * 2))%Z.

Definition spec_white_down (b : Z) : Z := round_div_down (b * 255) 100.

Definition spec_warm_down (r b : Z) : Z * Z :=
  if (r <=? cred)%Z then (0%Z, spec_white_down b)
  else if (wred <=? r)%Z then (spec_white_down b, 0%Z)
  else (round_div_down ((r - cred) * b * 255) 12500, round_div_down ((wred - r) * b * 255) 12500).

Definition spec_scale_down (c b : Z) : Z := round_div_down (c * b) 100.

Definition spec_compute_down : (hsl -> rgb) -> config -> hsl -> Z -> spec_command :=
  spec_table spec_white_down spec_warm_down spec_scale_down.

(** A white-only command is sent as [-V 0,0,0,ww,cw]. *)
Definition to_wire (c : spec_command) : channel_command :=
  match c with
  | AllChannels r g b ww cw => SetAll r g b ww cw
  | WhiteOnly ww cw => SetAll 0 0 0 ww cw
  | RGBOnly r g b => SetRGB r g b
  end.

(** [x] lies in [[lo, hi]]. *)
Definition between (lo x hi : Z) : bool := ((lo <=? x) && (x <=? hi))%Z.

(** Two commands of the same form whose channels bound those of a third
    of that form, channel by channel. *)
Definition command_between (lo x hi : channel_command) : bool :=
  match lo, x, hi with
  | SetAll r1 g1 b1 w1 c1, SetAll r g b w c, SetAll r2 g2 b2 w2 c2 =>
      between r1 r r2 && between g1 g g2 && between b1 b b2 && between w1 w w2 && between c1 c c2
  | SetRGB r1 g1 b1, SetRGB r g b, SetRGB r2 g2 b2 =>
      between r1 r r2 && between g1 g g2 && between b1 b b2
  | _, _, _ => false
  end.

(** ** The exact instance computes the integer formulas *)

Lemma round_div_0 (d : positive) : round_div 0 d = 0%Z.
Proof. unfold round_div. apply Z.div_small. lia. Qed.

Lemma white_level_Q (b : Z) : white_level (N := Q) b = spec_white b.
Proof. unfold white_level, spec_white, round_div. cbn [js_round js_mul js_div js_of_Z QNum].
  now rewrite Qround_frac_mul. Qed.

Lemma scale_channel_Q (c b : Z) : scale_channel (N := Q) c b = spec_scale c b.
Proof. unfold scale_channel, spec_scale, round_div. cbn [js_round js_mul js_div js_of_Z QNum].
  now rewrite Qround_frac_mul. Qed.

#[export] Instance warm_level_Q_proper : Proper (Qeq ==> eq ==> eq) (warm_level (N := Q)).
Proof.
  intros f f' Ef b b' <-. unfold warm_level. cbn [js_mul js_div js_of_Z QNum].
  now rewrite Ef.
Qed.

Lemma warm_level_frac (n b : Z) (d : positive) :
  warm_level (N := Q) (inject_Z n / inject_Z (Zpos d)) b = round_div (n * b * 255) (d * 100).
Proof.
  unfold warm_level, round_div. cbn [js_mul js_div js_of_Z js_round QNum].
  rewrite <- Qround_half_up_Qmake. apply Qround_half_up_comp.
  unfold Qeq, Qdiv, Qmult, Qinv, inject_Z. cbn. lia.
Qed.

(** [fac] after the clamp, in its three regimes. *)
Lemma warm_factor_Q (r : Z) :
  ((r <= cred)%Z /\ warm_factor (N := Q) r == 0)
  \/ ((wred <= r)%Z /\ warm_factor (N := Q) r == 1)
  \/ ((cred < r < wred)%Z /\ warm_factor (N := Q) r == inject_Z (r - cred) * (1 # 125)).
Proof.
  unfold warm_factor, js_max, js_min, wred, cred.
  cbn [js_sub js_div js_of_Z js_leb QNum].
  set (f := (inject_Z r - inject_Z 98) / (inject_Z 223 - inject_Z 98)).
  assert (Ef : f == inject_Z (r - 98) * (1 # 125)).
  { unfold f, Qeq, Qdiv, Qmult, Qminus, Qplus, Qopp, Qinv, inject_Z. cbn. lia. }
  clearbody f.
  destruct (Z.le_gt_cases r 98) as [Hr | Hr];
    [left | destruct (Z.le_gt_cases 223 r) as [Hr' | Hr']; [right; left | right; right]];
    (split; [lia|]);
    [ assert (inject_Z (r - 98) <= inject_Z 0) by (rewrite <- Zle_Qle; lia)
    | assert (inject_Z 125 <= inject_Z (r - 98)) by (rewrite <- Zle_Qle; lia)
    | assert (inject_Z 0 < inject_Z (r - 98) < inject_Z 125)
        by (split; rewrite <- Zlt_Qlt; lia) ];
    destruct (Qle_bool (inject_Z 1) f) eqn:E1; case_ifs; qbool; unfold inject_Z in *; lra.
Qed.

Lemma warm_level_eq (f : Q) (n b : Z) (d : positive) :
  f == inject_Z n / inject_Z (Zpos d) -> warm_level (N := Q) f b = round_div (n * b * 255) (d * 100).
Proof. intros Ef. rewrite Ef. apply warm_level_frac. Qed.

(** [qfrac] proves a [Qeq] between the exact values of the code and a
    fraction of integers, by cross-multiplication. *)
Ltac qfrac :=
  unfold Qeq, Qdiv, Qmult, Qminus, Qplus, Qopp, Qinv, inject_Z; cbn [Qnum Qden]; lia.

(** The RGBWW branch's two levels are the spec's warm/cold split. *)
Lemma warm_split_Q (r b : Z) :
  (warm_level (N := Q) (warm_factor r) b,
   warm_level (N := Q) (jz 1 -! warm_factor r)%js b) = spec_warm r b.
Proof.
  unfold spec_warm. cbn [js_sub js_of_Z QNum].
  destruct (warm_factor_Q r) as [[Hr Hf] | [[Hr Hf] | [Hr Hf]]];
    rewrite Hf; unfold spec_white, cred, wred in *.
  - rewrite (proj2 (Z.leb_le _ _) Hr).
    rewrite (warm_level_eq 0 0 b 1), (warm_level_eq _ 1 b 1) by qfrac.
    now rewrite !Z.mul_0_l, round_div_0, !Z.mul_1_l.
  - rewrite (proj2 (Z.leb_gt r 98)) by lia. rewrite (proj2 (Z.leb_le _ _) Hr).
    rewrite (warm_level_eq 1 1 b 1), (warm_level_eq _ 0 b 1) by qfrac.
    now rewrite !Z.mul_0_l, round_div_0, !Z.mul_1_l.
  - rewrite (proj2 (Z.leb_gt r 98)), (proj2 (Z.leb_gt 223 r)) by lia.
    rewrite (warm_level_eq _ (r - 98) b 125), (warm_level_eq _ (223 - r) b 125) by qfrac.
    reflexivity.
Qed.

(** With exact arithmetic the code computes the spec's table exactly;
    [Binary64] shows what binary64 changes. *)
Lemma set_to_current_color_spec `{ColorConverter Q} (c : config) (color : hsl) (b : Z) :
  set_to_current_color Q (config_snapshot c color b) = to_wire (spec_compute cc_hsl_rgb c color b).
Proof.
  unfold set_to_current_color, spec_compute, spec_table, spec_policy.
  destruct c as [[] [] [] []];
    cbn -[white_level scale_channel warm_level warm_factor cc_hsl_rgb js_sub js_of_Z spec_warm
          spec_white spec_scale];
    rewrite ?white_level_Q, ?scale_channel_Q;
    try (rewrite <- warm_split_Q; reflexivity);
    destruct ((saturation color =? 0) && (hue color =? 0))%Z; reflexivity.
Qed.

(** ** Channel values *)

Definition channel_ok (v : Z) : bool := ((0 <=? v) && (v <=? 255))%Z.

Definition command_in_range (c : channel_command) : bool :=
  match c with
  | SetAll r g b ww cw => channel_ok r && channel_ok g && channel_ok b && channel_ok ww && channel_ok cw
  | SetRGB r g b => channel_ok r && channel_ok g && channel_ok b
  end.

Lemma channel_ok_spec (v : Z) : channel_ok v = true <-> (0 <= v <= 255)%Z.
Proof. unfold channel_ok. rewrite Bool.andb_true_iff, !Z.leb_le. tauto. Qed.

Lemma round_div_between (n lo hi : Z) (d : positive) :
  (lo * Zpos d <= n <= hi * Zpos d)%Z -> (lo <= round_div n d <= hi)%Z.
Proof. intros Hn. unfold round_div. apply Z_div_between; lia. Qed.

Lemma spec_white_range (b : Z) : (0 <= b <= 100)%Z -> (0 <= spec_white b <= 255)%Z.
Proof. intros Hb. apply round_div_between. lia. Qed.

Lemma spec_scale_range (c b : Z) :
  (0 <= c <= 255)%Z -> (0 <= b <= 100)%Z -> (0 <= spec_scale c b <= 255)%Z.
Proof. intros Hc Hb. apply round_div_between. nia. Qed.

Lemma spec_warm_range (r b : Z) :
  (0 <= b <= 100)%Z ->
  (0 <= fst (spec_warm r b) <= 255)%Z /\ (0 <= snd (spec_warm r b) <= 255)%Z.
Proof.
  intros Hb. pose proof (spec_white_range b Hb). unfold spec_warm, cred, wred.
  case_ifs; cbn [fst snd]; rewrite ?Z.leb_le, ?Z.leb_gt in *;
    split; try lia; apply round_div_between; nia.
Qed.

#[export] Hint Resolve spec_white_range spec_scale_range : magichome.

(** [ctac] closes the range goals of one command with the spec lemmas. *)
Ltac channel_ranges :=
  repeat match goal with
  | |- (_ && _)%bool = true => apply Bool.andb_true_iff; split
  | |- channel_ok _ = true => apply channel_ok_spec
  end;
  first [lia | eauto with magichome].

(** The channel bound, shared by the accessory's safety theorem. *)
Lemma command_in_range_of_state `{ColorConverterLaws Q} (s : snapshot) :
  hsl_in_range (sn_color s) = true -> (0 <= sn_brightness s <= 100)%Z ->
  command_in_range (set_to_current_color Q s) = true.
Proof.
  intros Hc Hb. pose proof (cc_hsl_rgb_range _ Hc) as Hrgb.
  rewrite rgb_in_range_spec in Hrgb. destruct Hrgb as (Hr & Hg & Hbl).
  pose proof (spec_warm_range (red (cc_hsl_rgb (sn_color s))) _ Hb) as Hw.
  rewrite <- warm_split_Q in Hw. cbn [fst snd] in Hw.
  unfold set_to_current_color. cbv zeta. rewrite !white_level_Q, !scale_channel_Q.
  case_ifs; cbn [command_in_range]; channel_ranges.
Qed.

(** C2. Every command [setToCurrentColor] sends carries channel values in
    0..255, whatever the configuration values (any JSON values), when the
    color and brightness are in HomeKit's ranges and the color converter
    keeps its range. *)
Theorem set_to_current_color_in_range `{ColorConverterLaws Q} (s : snapshot) :
  hsl_in_range (sn_color s) = true -> (0 <= sn_brightness s <= 100)%Z ->
  command_in_range (set_to_current_color Q s) = true.
Proof. apply command_in_range_of_state. Qed.

Example set_to_current_color_in_range_witness :
  hsl_in_range (mkHSL 120 100 50) = true /\ (0 <= 60 <= 100)%Z /\
  command_in_range (set_to_current_color Q
    (mkSnapshot (JStr "RGBW") (JBool false) (JBool true) (JBool false) (mkHSL 120 100 50) 60)) = true.
Proof.
  split; [reflexivity | split; [lia |]].
  apply (set_to_current_color_in_range
    (mkSnapshot (JStr "RGBW") (JBool false) (JBool true) (JBool false) (mkHSL 120 100 50) 60));
    cbn; [reflexivity | lia].
Defined.

Lemma spec_warm_sum (r b : Z) :
  (0 <= b <= 100)%Z -> (fst (spec_warm r b) + snd (spec_warm r b) <= 255)%Z.
Proof.
  intros Hb. pose proof (spec_white_range b Hb). unfold spec_warm, cred, wred.
  case_ifs; cbn [fst snd]; rewrite ?Z.leb_le, ?Z.leb_gt in *; try lia.
  unfold round_div.
  assert (Hpq : ((r - 98) * b * 255 + (223 - r) * b * 255 = 31875 * b)%Z) by ring.
  set (p := ((r - 98) * b * 255)%Z) in *. set (q := ((223 - r) * b * 255)%Z) in *.
  assert (0 <= p)%Z by (unfold p; nia). assert (0 <= q)%Z by (unfold q; nia).
  pose proof (Z.mul_div_le (p * 2 + 12500) (12500 * 2) ltac:(lia)).
  pose proof (Z.mul_div_le (q * 2 + 12500) (12500 * 2) ltac:(lia)).
  destruct (Z.eq_dec b 100) as [-> | Hb'].
  - assert (p = 25500 * (r - 98))%Z by (unfold p; ring).
    pose proof (Z.mod_pos_bound (p * 2 + 12500) (12500 * 2) ltac:(lia)).
    pose proof (Z.div_mod (p * 2 + 12500) (12500 * 2) ltac:(lia)).
    lia.
  - lia.
Qed.

(** C5. On an RGBWW controller in onlywhite mode the two white levels
    never add up to more than 255: the warm/cold split divides one
    channel's worth of brightness (exact arithmetic, any converter). *)
Theorem onlywhite_rgbww_white_sum `{ColorConverter Q} (s : snapshot) (ww cw : Z) :
  (0 <= sn_brightness s <= 100)%Z ->
  loose_eq_string (sn_setup s) "RGBW" && truthy (sn_onlywhite s) = false ->
  loose_eq_string (sn_setup s) "RGBWW" && truthy (sn_onlywhite s) = true ->
  set_to_current_color Q s = SetAll 0 0 0 ww cw ->
  (ww + cw <= 255)%Z.
Proof.
  intros Hb H1 H2 Hcmd. unfold set_to_current_color in Hcmd. rewrite H1, H2 in Hcmd.
  injection Hcmd as <- <-.
  pose proof (spec_warm_sum (red (cc_hsl_rgb (sn_color s))) _ Hb) as Hs.
  rewrite <- warm_split_Q in Hs. exact Hs.
Qed.

Example onlywhite_rgbww_white_sum_witness :
  (0 <= 100 <= 100)%Z /\
  set_to_current_color Q
    (mkSnapshot (JStr "RGBWW") (JBool true) (JBool false) (JBool false) (mkHSL 30 100 80) 100)
  = SetAll 0 0 0 255 0 /\ (255 + 0 <= 255)%Z.
Proof.
  split; [lia | split; [vm_compute; reflexivity |]].
  apply (onlywhite_rgbww_white_sum
    (mkSnapshot (JStr "RGBWW") (JBool true) (JBool false) (JBool false) (mkHSL 30 100 80) 100));
    [cbn; lia | reflexivity | reflexivity | vm_compute; reflexivity].
Defined.

(** C6. On an RGBW controller in onlywhite mode the command drives the
    white channel alone at [round(brightness * 2.55)], whatever the color
    and the other options. *)
Theorem rgbw_onlywhite_white_only `{ColorConverter Q} (s : snapshot) :
  loose_eq_string (sn_setup s) "RGBW" && truthy (sn_onlywhite s) = true ->
  set_to_current_color Q s = SetAll 0 0 0 (spec_white (sn_brightness s)) 0.
Proof.
  intros Hb. unfold set_to_current_color. rewrite Hb. now rewrite white_level_Q.
Qed.

Example rgbw_onlywhite_white_only_witness :
  loose_eq_string (JStr "RGBW") "RGBW" && truthy (JBool true) = true /\
  set_to_current_color Q
    (mkSnapshot (JStr "RGBW") (JBool true) (JBool false) (JBool true) (mkHSL 200 40 30) 50)
  = SetAll 0 0 0 128 0.
Proof.
  split; [reflexivity|].
  rewrite (rgbw_onlywhite_white_only
    (mkSnapshot (JStr "RGBW") (JBool true) (JBool false) (JBool true) (mkHSL 200 40 30) 50))
    by reflexivity.
  reflexivity.
Defined.

(** The spec's test at brightness 50 holds for every color, with exact
    arithmetic and with binary64. *)
Example rgbw_onlywhite_half (color : hsl) (combined pure : jsval) :
  set_to_current_color Q (mkSnapshot (JStr "RGBW") (JBool true) combined pure color 50)
  = SetAll 0 0 0 128 0
  /\ set_to_current_color float (mkSnapshot (JStr "RGBW") (JBool true) combined pure color 50)
  = SetAll 0 0 0 128 0.
Proof. split; vm_compute; reflexivity. Qed.

(** The default branch: neither onlywhite case applies. *)
Lemma default_branch_command `{ColorConverter Q} (s : snapshot) :
  loose_eq_string (sn_setup s) "RGBW" && truthy (sn_onlywhite s) = false ->
  loose_eq_string (sn_setup s) "RGBWW" && truthy (sn_onlywhite s) = false ->
  set_to_current_color Q s
  = let v := cc_hsl_rgb (sn_color s) in
    let b := sn_brightness s in
    let r := spec_scale (red v) b in
    let g := spec_scale (green v) b in
    let bl := spec_scale (blue v) b in
    if truthy (sn_combinedwhite s) then SetAll r g bl (spec_white b) (spec_white b)
    else if ((saturation (sn_color s) =? 0) && (hue (sn_color s) =? 0))%Z
            && truthy (sn_purewhite s)
    then SetAll 0 0 0 (spec_white b) (spec_white b)
    else SetRGB r g bl.
Proof.
  intros H1 H2. unfold set_to_current_color. rewrite H1, H2. cbv zeta.
  now rewrite !white_level_Q, !scale_channel_Q.
Qed.

Lemma spec_white_pos (b : Z) : (1 <= b <= 100)%Z -> (0 < spec_white b)%Z.
Proof. intros Hb. unfold spec_white. pose proof (round_div_between (b * 255) 1 255 100). lia. Qed.

(** C9. combinedwhite: when neither onlywhite case applies, the command
    sets all five channels and both whites are [round(brightness * 2.55)],
    positive for every positive brightness, whatever the color. *)
Theorem combinedwhite_sets_whites `{ColorConverter Q} (s : snapshot) :
  loose_eq_string (sn_setup s) "RGBW" && truthy (sn_onlywhite s) = false ->
  loose_eq_string (sn_setup s) "RGBWW" && truthy (sn_onlywhite s) = false ->
  truthy (sn_combinedwhite s) = true ->
  (1 <= sn_brightness s <= 100)%Z ->
  exists r g b, set_to_current_color Q s
    = SetAll r g b (spec_white (sn_brightness s)) (spec_white (sn_brightness s))
    /\ (0 < spec_white (sn_brightness s))%Z.
Proof.
  intros H1 H2 Hc Hb. rewrite default_branch_command by assumption. cbv zeta. rewrite Hc.
  do 3 eexists. split; [reflexivity | now apply spec_white_pos].
Qed.

Example combinedwhite_sets_whites_witness :
  let s := mkSnapshot (JStr "RGB") (JBool false) (JBool true) (JBool false) (mkHSL 240 100 50) 40 in
  loose_eq_string (sn_setup s) "RGBW" && truthy (sn_onlywhite s) = false /\
  loose_eq_string (sn_setup s) "RGBWW" && truthy (sn_onlywhite s) = false /\
  exists r g b, set_to_current_color Q s = SetAll r g b (spec_white 40) (spec_white 40)
    /\ (0 < spec_white 40)%Z.
Proof.
  cbv zeta. split; [reflexivity | split; [reflexivity |]].
  apply (combinedwhite_sets_whites
    (mkSnapshot (JStr "RGB") (JBool false) (JBool true) (JBool false) (mkHSL 240 100 50) 40));
    [reflexivity | reflexivity | reflexivity | cbn; lia].
Defined.

(** The spec says combinedwhite "always" drives both whites; the onlywhite
    precedence overrides it: RGBWW with onlywhite and combinedwhite on a
    warm color sends a zero cold white. *)
Example combinedwhite_overridden_by_onlywhite :
  set_to_current_color Q
    (mkSnapshot (JStr "RGBWW") (JBool true) (JBool true) (JBool false) (mkHSL 30 100 80) 100)
  = SetAll 0 0 0 255 0.
Proof. vm_compute. reflexivity. Qed.

(** C10. purewhite: a white-sentinel color [{0, 0, L}] with purewhite on and
    combinedwhite off is sent on the white channels only, at
    [round(brightness * 2.55)], the color channels forced to 0. *)
Theorem purewhite_sentinel `{ColorConverter Q} (s : snapshot) (l : Z) :
  loose_eq_string (sn_setup s) "RGBW" && truthy (sn_onlywhite s) = false ->
  loose_eq_string (sn_setup s) "RGBWW" && truthy (sn_onlywhite s) = false ->
  truthy (sn_combinedwhite s) = false ->
  truthy (sn_purewhite s) = true ->
  sn_color s = mkHSL 0 0 l ->
  set_to_current_color Q s
  = SetAll 0 0 0 (spec_white (sn_brightness s)) (spec_white (sn_brightness s)).
Proof.
  intros H1 H2 Hc Hp Hcol. rewrite default_branch_command by assumption. cbv zeta.
  now rewrite Hc, Hp, Hcol.
Qed.

Example purewhite_sentinel_witness :
  set_to_current_color Q
    (mkSnapshot (JStr "RGBW") (JBool false) (JBool false) (JBool true) (mkHSL 0 0 50) 80)
  = SetAll 0 0 0 204 204.
Proof.
  rewrite (purewhite_sentinel
    (mkSnapshot (JStr "RGBW") (JBool false) (JBool false) (JBool true) (mkHSL 0 0 50) 80) 50);
    reflexivity.
Defined.

(** C11. The default branch scales each rendered channel by the brightness
    percentage, [round(c * brightness / 100)]: full brightness leaves the
    channel unchanged, the result never exceeds the channel, and it grows
    with the brightness.  (The spec's design notes call
    [converted[i] / 100 * brightness] a unit mismatch; it is the
    proportional scaling of a 0..255 value by a 0..100 percentage.) *)
Theorem scale_channel_proportional (c b b' : Z) :
  (0 <= c <= 255)%Z -> (0 <= b <= b')%Z -> (b' <= 100)%Z ->
  scale_channel (N := Q) c 100 = c
  /\ (scale_channel (N := Q) c b <= c)%Z
  /\ (scale_channel (N := Q) c b <= scale_channel (N := Q) c b')%Z.
Proof.
  intros Hc Hb Hb'. rewrite !scale_channel_Q. unfold spec_scale. split; [|split].
  - unfold round_div. apply Z.le_antisymm;
      [apply Z.lt_succ_r, Z.div_lt_upper_bound | apply Z.div_le_lower_bound]; lia.
  - enough (0 <= round_div (c * b) 100 <= c)%Z by lia. apply round_div_between. nia.
  - unfold round_div. apply Z.div_le_mono; nia.
Qed.

Example scale_channel_proportional_witness :
  (0 <= 200 <= 255)%Z /\ (0 <= 30 <= 70)%Z /\ (70 <= 100)%Z /\
  scale_channel (N := Q) 200 100 = 200%Z
  /\ (scale_channel (N := Q) 200 30 <= 200)%Z
  /\ (scale_channel (N := Q) 200 30 <= scale_channel (N := Q) 200 70)%Z.
Proof.
  split; [lia | split; [lia | split; [lia |]]].
  apply (scale_channel_proportional 200 30 70); lia.
Defined.

(** The spec's pure-green test: [{120, 100, 50}] at brightness 100 on an
    RGB controller is [-c0,255,0], with exact arithmetic and binary64. *)
Example pure_green_full_brightness :
  set_to_current_color_command Q
    (mkSnapshot (JStr "RGB") (JBool false) (JBool false) (JBool false) (mkHSL 120 100 50) 100)
  = "-x RGB -c0,255,0"%string
  /\ set_to_current_color_command float
    (mkSnapshot (JStr "RGB") (JBool false) (JBool false) (JBool false) (mkHSL 120 100 50) 100)
  = "-x RGB -c0,255,0"%string.
Proof. split; vm_compute; reflexivity. Qed.
