(* ===== verification/Binary64.v ===== *)
(** * The channel mapper in binary64

    JavaScript computes [setToCurrentColor]'s levels in binary64
    ([F64Num]).  The three level formulas of [ChannelMapper] are evaluated
    here on every input of HomeKit's ranges (brightness 0..100, rendered
    channels 0..255): each is its exact value rounded half up, except
    that an exact half may come out one less, when the float product
    falls just below it.  From these, the command the program sends is
    the spec's up to those halves ([set_to_current_color_refines]), the
    white level is exact, and the RGBWW onlywhite ends lose one at
    brightness 50 and 90. *)

From Stdlib Require Import ZArith QArith String List Lia PrimFloat.
From S2P Require Import Prelude JsNumber ColorConvert ChannelMapper.
Import ListNotations.

Lemma between_spec (lo x hi : Z) : between lo x hi = true <-> (lo <= x <= hi)%Z.
Proof. unfold between. rewrite Bool.andb_true_iff, !Z.leb_le. tauto. Qed.

(** Rounding half down differs from rounding half up on exact halves
    only, by one. *)
Lemma round_div_down_cases (n : Z) (d : positive) :
  round_div_down n d = round_div n d
  \/ ((n * 2 + Zpos d) mod (Zpos d * 2) = 0 /\ round_div_down n d = round_div n d - 1)%Z.
Proof.
  unfold round_div_down, round_div.
  set (m := (Zpos d * 2)%Z). set (x := (n * 2 + Zpos d)%Z).
  replace (n * 2 + Zpos d - 1)%Z with (x - 1)%Z by (unfold x; lia).
  assert (Hm : (0 < m)%Z) by (unfold m; lia).
  pose proof (Z.div_mod x m ltac:(lia)). pose proof (Z.mod_pos_bound x m Hm).
  destruct (Z.eq_dec (x mod m) 0) as [E | E].
  - right. split; [exact E|]. symmetry. apply Z.div_unique with (m - 1)%Z; lia.
  - left. symmetry. apply Z.div_unique with (x mod m - 1)%Z; lia.
Qed.

(** [Math.round(brightness/100*255)] in binary64 is exact. *)
Lemma white_level_f64 (b : Z) :
  (0 <= b <= 100)%Z -> white_level (N:=float) b = spec_white b.
Proof.
  intros Hb. apply Z.eqb_eq.
  refine (Z_range_forallb (fun b => white_level (N:=float) b =? spec_white b)%Z
            0 101 _ b ltac:(lia)).
  vm_compute. reflexivity.
Qed.

Lemma white_level_f64_between (b : Z) :
  (0 <= b <= 100)%Z -> between (spec_white_down b) (white_level (N:=float) b) (spec_white b) = true.
Proof.
  intros Hb. rewrite white_level_f64 by exact Hb. apply between_spec.
  destruct (round_div_down_cases (b * 255) 100) as [E | [_ E]];
    unfold spec_white_down, spec_white; lia.
Qed.

(** [Math.round((converted[i] / 100) * brightness)] in binary64. *)
Lemma scale_channel_f64_between (c b : Z) :
  (0 <= c <= 255)%Z -> (0 <= b <= 100)%Z ->
  between (spec_scale_down c b) (scale_channel (N:=float) c b) (spec_scale c b) = true.
Proof.
  intros Hc Hb.
  refine (Z_range_forallb2
            (fun c b => between (spec_scale_down c b) (scale_channel (N:=float) c b) (spec_scale c b))
            0 256 0 101 _ c b ltac:(lia) ltac:(lia)).
  vm_compute. reflexivity.
Qed.

(** [Math.round(b * 2.55)] at [fac] 0 or 1 in binary64: [2.55] is just
    below 255/100, and at brightness 50 and 90 the float product falls
    below the half ([127.49999999999999], [229.49999999999997]); at the
    other halves (10, 30, 70) it does not. *)
Definition white_255_f64 (b : Z) : Z :=
  if ((b =? 50) || (b =? 90))%Z then (spec_white b - 1)%Z else spec_white b.

(** The RGBWW split in binary64: both levels between the spec's values
    rounded half down and half up, and at the two clamped ends one level
    0 and the other [white_255_f64]. *)
Lemma warm_split_f64 (r b : Z) :
  (0 <= r <= 255)%Z -> (0 <= b <= 100)%Z ->
  between (fst (spec_warm_down r b)) (warm_level (N:=float) (warm_factor r) b) (fst (spec_warm r b))
  && between (snd (spec_warm_down r b)) (warm_level (N:=float) (jz 1 -! warm_factor r)%js b)
       (snd (spec_warm r b))
  && implb (r <=? cred)%Z
       ((warm_level (N:=float) (warm_factor r) b =? 0)%Z
        && (warm_level (N:=float) (jz 1 -! warm_factor r)%js b =? white_255_f64 b)%Z)
  && implb (wred <=? r)%Z
       ((warm_level (N:=float) (warm_factor r) b =? white_255_f64 b)%Z
        && (warm_level (N:=float) (jz 1 -! warm_factor r)%js b =? 0)%Z) = true.
Proof.
  intros Hr Hb.
  refine (Z_range_forallb2
    (fun r b =>
       between (fst (spec_warm_down r b)) (warm_level (N:=float) (warm_factor r) b) (fst (spec_warm r b))
       && between (snd (spec_warm_down r b)) (warm_level (N:=float) (jz 1 -! warm_factor r)%js b)
            (snd (spec_warm r b))
       && implb (r <=? cred)%Z
            ((warm_level (N:=float) (warm_factor r) b =? 0)%Z
             && (warm_level (N:=float) (jz 1 -! warm_factor r)%js b =? white_255_f64 b)%Z)
       && implb (wred <=? r)%Z
            ((warm_level (N:=float) (warm_factor r) b =? white_255_f64 b)%Z
             && (warm_level (N:=float) (jz 1 -! warm_factor r)%js b =? 0)%Z))
    0 256 0 101 _ r b ltac:(lia) ltac:(lia)).
  vm_compute. reflexivity.
Qed.

Lemma warm_f64_fst (r b : Z) :
  (0 <= r <= 255)%Z -> (0 <= b <= 100)%Z ->
  between (fst (spec_warm_down r b)) (warm_level (N:=float) (warm_factor r) b) (fst (spec_warm r b)) = true.
Proof. intros Hr Hb. pose proof (warm_split_f64 r b Hr Hb). now rewrite !Bool.andb_true_iff in H. Qed.

Lemma warm_f64_snd (r b : Z) :
  (0 <= r <= 255)%Z -> (0 <= b <= 100)%Z ->
  between (snd (spec_warm_down r b)) (warm_level (N:=float) (jz 1 -! warm_factor r)%js b)
    (snd (spec_warm r b)) = true.
Proof. intros Hr Hb. pose proof (warm_split_f64 r b Hr Hb). now rewrite !Bool.andb_true_iff in H. Qed.

Lemma warm_f64_cold (r b : Z) :
  (0 <= r <= cred)%Z -> (0 <= b <= 100)%Z ->
  warm_level (N:=float) (warm_factor r) b = 0%Z
  /\ warm_level (N:=float) (jz 1 -! warm_factor r)%js b = white_255_f64 b.
Proof.
  intros Hr Hb. pose proof (warm_split_f64 r b ltac:(unfold cred in *; lia) Hb) as H.
  rewrite !Bool.andb_true_iff, (proj2 (Z.leb_le r cred) (proj2 Hr)) in H. cbn [implb] in H.
  rewrite !Bool.andb_true_iff, !Z.eqb_eq in H. tauto.
Qed.

Lemma warm_f64_warm (r b : Z) :
  (wred <= r <= 255)%Z -> (0 <= b <= 100)%Z ->
  warm_level (N:=float) (warm_factor r) b = white_255_f64 b
  /\ warm_level (N:=float) (jz 1 -! warm_factor r)%js b = 0%Z.
Proof.
  intros Hr Hb. pose proof (warm_split_f64 r b ltac:(unfold wred in *; lia) Hb) as H.
  rewrite !Bool.andb_true_iff, (proj2 (Z.leb_le wred r) (proj1 Hr)) in H. cbn [implb] in H.
  rewrite !Bool.andb_true_iff, !Z.eqb_eq in H. tauto.
Qed.

#[export] Hint Resolve white_level_f64_between scale_channel_f64_between warm_f64_fst warm_f64_snd
  : magichome.

(** [f64_table_cbn] evaluates the policy table and the code's branches,
    keeping the level formulas folded. *)
Ltac f64_table_cbn :=
  cbn -[white_level scale_channel warm_level warm_factor cc_hsl_rgb js_sub js_of_Z spec_warm
        spec_white spec_scale spec_warm_down spec_white_down spec_scale_down between].



(** [f64_refinement] proves the binary64 refinement of a policy-table
    command: the code's branch against the table's row, channel by
    channel with the level bounds above. *)
Ltac f64_refinement c color :=
  intros Hb Hrgb; apply rgb_in_range_spec in Hrgb as (Hr & Hg & Hbl);
  unfold set_to_current_color, spec_compute_down, spec_compute, spec_table, spec_policy;
  destruct c as [[] [] [] []]; f64_table_cbn;
    try destruct ((saturation color =? 0) && (hue color =? 0))%Z; f64_table_cbn;
    rewrite ?Bool.andb_true_iff; repeat split; first [reflexivity | eauto with magichome].

(** ** Properties *)

(** C7. RGBWW onlywhite, warm end, in binary64: a color whose rendered
    red is at least [wred = 223] gets all the white on the warm channel
    ([fac] is clamped to 1), at [round(brightness * 2.55)] as binary64
    computes it: the spec's level, except at brightness 50 and 90 where
    it is one less (127 where the RGBW white channel gets 128). *)
Theorem rgbww_onlywhite_warm `{ColorConverter float} (s : snapshot) :
  loose_eq_string (sn_setup s) "RGBW" && truthy (sn_onlywhite s) = false ->
  loose_eq_string (sn_setup s) "RGBWW" && truthy (sn_onlywhite s) = true ->
  rgb_in_range (cc_hsl_rgb (sn_color s)) = true ->
  (wred <= red (cc_hsl_rgb (sn_color s)))%Z -> (0 <= sn_brightness s <= 100)%Z ->
  set_to_current_color float s = SetAll 0 0 0 (white_255_f64 (sn_brightness s)) 0
  /\ white_255_f64 (sn_brightness s)
     = (spec_white (sn_brightness s) - if (sn_brightness s =? 50) || (sn_brightness s =? 90) then 1 else 0)%Z.
Proof.
  intros H1 H2 Hrgb Hr Hb. apply rgb_in_range_spec in Hrgb as (Hr' & _).
  destruct (warm_f64_warm _ _ (conj Hr (proj2 Hr')) Hb) as [Hw Hc].
  unfold set_to_current_color.
  destruct (loose_eq_string (sn_setup s) "RGBW"), (truthy (sn_onlywhite s)),
    (loose_eq_string (sn_setup s) "RGBWW"); try discriminate; cbn [andb].
  rewrite Hw, Hc. split; [reflexivity|]. unfold white_255_f64. destruct (_ || _)%Z; lia.
Qed.

Example rgbww_onlywhite_warm_witness :
  let s := mkSnapshot (JStr "RGBWW") (JBool true) (JBool false) (JBool false) (mkHSL 30 100 80) 50 in
  rgb_in_range (cc_hsl_rgb (N:=float) (mkHSL 30 100 80)) = true /\
  (223 <= red (cc_hsl_rgb (N:=float) (mkHSL 30 100 80)))%Z /\
  set_to_current_color float s = SetAll 0 0 0 (white_255_f64 50) 0 /\ white_255_f64 50 = 127%Z.
Proof.
  cbv zeta.
  assert (Hin : rgb_in_range (cc_hsl_rgb (N:=float) (mkHSL 30 100 80)) = true) by (vm_compute; reflexivity).
  assert (Hr : (223 <= red (cc_hsl_rgb (N:=float) (mkHSL 30 100 80)))%Z) by (vm_compute; discriminate).
  split; [exact Hin | split; [exact Hr |]]. split; [|reflexivity].
  exact (proj1 (@rgbww_onlywhite_warm (color_convert float)
    (mkSnapshot (JStr "RGBWW") (JBool true) (JBool false) (JBool false) (mkHSL 30 100 80) 50)
    eq_refl eq_refl Hin Hr ltac:(cbn; lia))).
Defined.

(** C8. RGBWW onlywhite, cold end, in binary64: a rendered red of at
    most [cred = 98] puts all the white on the cold channel, at the same
    binary64 level (one less than the spec's at brightness 50 and 90). *)
Theorem rgbww_onlywhite_cold `{ColorConverter float} (s : snapshot) :
  loose_eq_string (sn_setup s) "RGBW" && truthy (sn_onlywhite s) = false ->
  loose_eq_string (sn_setup s) "RGBWW" && truthy (sn_onlywhite s) = true ->
  rgb_in_range (cc_hsl_rgb (sn_color s)) = true ->
  (red (cc_hsl_rgb (sn_color s)) <= cred)%Z -> (0 <= sn_brightness s <= 100)%Z ->
  set_to_current_color float s = SetAll 0 0 0 0 (white_255_f64 (sn_brightness s))
  /\ white_255_f64 (sn_brightness s)
     = (spec_white (sn_brightness s) - if (sn_brightness s =? 50) || (sn_brightness s =? 90) then 1 else 0)%Z.
Proof.
  intros H1 H2 Hrgb Hr Hb. apply rgb_in_range_spec in Hrgb as (Hr' & _).
  destruct (warm_f64_cold _ _ (conj (proj1 Hr') Hr) Hb) as [Hw Hc].
  unfold set_to_current_color.
  destruct (loose_eq_string (sn_setup s) "RGBW"), (truthy (sn_onlywhite s)),
    (loose_eq_string (sn_setup s) "RGBWW"); try discriminate; cbn [andb].
  rewrite Hw, Hc. split; [reflexivity|]. unfold white_255_f64. destruct (_ || _)%Z; lia.
Qed.

Example rgbww_onlywhite_cold_witness :
  let s := mkSnapshot (JStr "RGBWW") (JBool true) (JBool false) (JBool false) (mkHSL 200 100 50) 90 in
  rgb_in_range (cc_hsl_rgb (N:=float) (mkHSL 200 100 50)) = true /\
  (red (cc_hsl_rgb (N:=float) (mkHSL 200 100 50)) <= 98)%Z /\
  set_to_current_color float s = SetAll 0 0 0 0 (white_255_f64 90) /\ white_255_f64 90 = 229%Z.
Proof.
  cbv zeta.
  assert (Hin : rgb_in_range (cc_hsl_rgb (N:=float) (mkHSL 200 100 50)) = true) by (vm_compute; reflexivity).
  assert (Hr : (red (cc_hsl_rgb (N:=float) (mkHSL 200 100 50)) <= 98)%Z) by (vm_compute; discriminate).
  split; [exact Hin | split; [exact Hr |]]. split; [|reflexivity].
  exact (proj1 (@rgbww_onlywhite_cold (color_convert float)
    (mkSnapshot (JStr "RGBWW") (JBool true) (JBool false) (JBool false) (mkHSL 200 100 50) 90)
    eq_refl eq_refl Hin Hr ltac:(cbn; lia))).
Defined.

(** C1. Refinement, in binary64: for every configuration of the spec,
    every color the converter renders in 0..255 and every brightness of
    HomeKit's range, the command [setToCurrentColor] sends has the form
    of the spec's policy table (RGBW+onlywhite drives the white channel
    only, RGBWW+onlywhite splits warm and cold white by the red proxy,
    combinedwhite adds the whites to the scaled colors, purewhite routes
    the sentinel [{0, 0, _}] to the whites, otherwise only the colors are
    set), and each channel is the spec's value: its exact formula rounded
    half up, or, when that value is an exact half, possibly rounded
    down. *)
Theorem set_to_current_color_refines `{ColorConverter float} (c : config) (color : hsl) (b : Z) :
  (0 <= b <= 100)%Z -> rgb_in_range (cc_hsl_rgb color) = true ->
  command_between (to_wire (spec_compute_down cc_hsl_rgb c color b))
    (set_to_current_color float (config_snapshot c color b))
    (to_wire (spec_compute cc_hsl_rgb c color b)) = true.
Proof. f64_refinement c color. Qed.

Example set_to_current_color_refines_witness :
  (0 <= 50 <= 100)%Z /\ rgb_in_range (cc_hsl_rgb (N:=float) (mkHSL 0 100 50)) = true /\
  command_between (to_wire (spec_compute_down (cc_hsl_rgb (N:=float)) (mkConfig RGB false false false)
                              (mkHSL 0 100 50) 50))
    (set_to_current_color float (config_snapshot (mkConfig RGB false false false) (mkHSL 0 100 50) 50))
    (to_wire (spec_compute (cc_hsl_rgb (N:=float)) (mkConfig RGB false false false) (mkHSL 0 100 50) 50))
  = true.
Proof.
  assert (Hrgb : rgb_in_range (cc_hsl_rgb (N:=float) (mkHSL 0 100 50)) = true)
    by (vm_compute; reflexivity).
  split; [lia | split; [exact Hrgb |]].
  exact (@set_to_current_color_refines (color_convert float) (mkConfig RGB false false false) (mkHSL 0 100 50) 50
           ltac:(lia) Hrgb).
Defined.

(** The binary64 refinement, shared with the composition of the whole
    plugin. *)
Lemma set_to_current_color_f64_spec `{ColorConverter float} (c : config) (color : hsl) (b : Z) :
  (0 <= b <= 100)%Z -> rgb_in_range (cc_hsl_rgb color) = true ->
  command_between (to_wire (spec_compute_down cc_hsl_rgb c color b))
    (set_to_current_color float (config_snapshot c color b))
    (to_wire (spec_compute cc_hsl_rgb c color b)) = true.
Proof. f64_refinement c color. Qed.


(** C31. Equivalence: in binary64, the white level
    [Math.round(brightness/100*255)] is exactly the spec's
    [round(brightness/100 * 255)] for every brightness of HomeKit's range
    (no rounding tie of the exact value is lost or gained). *)
Theorem white_level_f64_exact (b : Z) :
  (0 <= b <= 100)%Z -> white_level (N:=float) b = spec_white b.
Proof. apply white_level_f64. Qed.

Example white_level_f64_exact_witness :
  (0 <= 50 <= 100)%Z /\ white_level (N:=float) 50 = spec_white 50 /\ spec_white 50 = 128%Z.
Proof. split; [lia | split; [apply white_level_f64_exact; lia | reflexivity]]. Defined.

(** C16. Bounds of the color scaling in binary64: for every rendered
    channel 0..255 and brightness 0..100, [Math.round((c / 100) *
    brightness)] is [c * brightness / 100] rounded half up, except when
    that value is an exact half, where the float product may fall below
    it and the channel is one less (pure red at brightness 50 gives 127,
    not 128). *)
Theorem scale_channel_f64_rounding (c b : Z) :
  (0 <= c <= 255)%Z -> (0 <= b <= 100)%Z ->
  scale_channel (N:=float) c b = spec_scale c b
  \/ ((c * b) mod 100 = 50 /\ scale_channel (N:=float) c b = spec_scale c b - 1)%Z.
Proof.
  intros Hc Hb. pose proof (scale_channel_f64_between c b Hc Hb) as H.
  apply between_spec in H. unfold spec_scale_down, spec_scale in *.
  destruct (round_div_down_cases (c * b) 100) as [E | [Hm E]]; [left; lia|].
  destruct (Z.eq_dec (scale_channel (N:=float) c b) (round_div (c * b) 100)); [left; exact e|].
  right. split; [|lia].
  pose proof (Z.div_mod (c * b * 2 + 100) (100 * 2) ltac:(lia)).
  pose proof (Z.div_mod (c * b) 100 ltac:(lia)). pose proof (Z.mod_pos_bound (c * b) 100 ltac:(lia)).
  lia.
Qed.

Example scale_channel_f64_rounding_witness :
  (0 <= 255 <= 255)%Z /\ (0 <= 50 <= 100)%Z /\
  (scale_channel (N:=float) 255 50 = spec_scale 255 50
   \/ ((255 * 50) mod 100 = 50 /\ scale_channel (N:=float) 255 50 = spec_scale 255 50 - 1)%Z)
  /\ scale_channel (N:=float) 255 50 = 127%Z /\ spec_scale 255 50 = 128%Z.
Proof.
  split; [lia | split; [lia | split; [apply scale_channel_f64_rounding; lia |]]].
  split; vm_compute; reflexivity.
Defined.
