(* ===== verification/DeviceState.v ===== *)
(** * [getState]: reading the device's state from [flux_led.py -i]

    [MagicHomeAccessory.prototype.getState] (src/index.js) runs
    [flux_led.py <ip> -i] and reads its standard output with three
    regular expressions: [/\(\d{3}\, \d{3}, \d{3}\)/g] decides whether a
    color is present, [/\] ON /g] whether the light is on, and
    [/\d{3}/g] collects every run of three digits, of which the first
    three are handed to [convert.rgb.hsl].  The regular expressions are
    modelled as patterns of character classes matched at every position,
    the global [\d{3}] match as the left-to-right scan JavaScript
    performs.  The theorems show what the scan reads: the tuple when no
    three-digit run precedes it, the first three runs otherwise, and
    nothing when a number of the tuple is printed with fewer than three
    digits. *)

From Stdlib Require Import ZArith QArith String Ascii List Lia.
From S2P Require Import Prelude JsNumber ColorConvert.
Import ListNotations.

(** ** Regular expressions of fixed width *)

Definition is_digit (c : ascii) : bool :=
  (48 <=? nat_of_ascii c)%nat && (nat_of_ascii c <=? 57)%nat.

(** A regular expression without repetition of variable length is a
    sequence of character classes. *)
Definition pattern := list (ascii -> bool).

Definition lit (c : ascii) : ascii -> bool := fun x => Ascii.eqb x c.

Fixpoint match_here (p : pattern) (s : string) : bool :=
  match p, s with
  | [], _ => true
  | k :: p', String c s' => k c && match_here p' s'
  | _ :: _, EmptyString => false
  end.

(** [s.match(re)] is non-null: the pattern matches at some position. *)
Fixpoint regex_exists (p : pattern) (s : string) : bool :=
  match_here p s ||
  match s with
  | EmptyString => false
  | String _ s' => regex_exists p s'
  end.

Definition d3 : pattern := [is_digit; is_digit; is_digit].

(** [/\(\d{3}\, \d{3}, \d{3}\)/] *)
Definition color_pattern : pattern :=
  [lit "("%char] ++ d3 ++ [lit ","%char; lit " "%char] ++ d3 ++ [lit ","%char; lit " "%char]
  ++ d3 ++ [lit ")"%char].

(** [/\] ON /] *)
Definition on_pattern : pattern :=
  [lit "]"%char; lit " "%char; lit "O"%char; lit "N"%char; lit " "%char].

(** [stdout.match(/\d{3}/g)]: at each position a run of three digits is
    a match and the scan resumes after it; otherwise it moves on by one. *)
Fixpoint digit_runs (s : string) : list string :=
  match s with
  | String a (String b (String c rest) as s') =>
      if is_digit a && is_digit b && is_digit c
      then String a (String b (String c EmptyString)) :: digit_runs rest
      else digit_runs s'
  | _ => []
  end.

(** [ToNumber] of a string of digits. *)
Fixpoint digits_value_aux (acc : Z) (s : string) : Z :=
  match s with
  | EmptyString => acc
  | String c s' => digits_value_aux (acc * 10 + Z.of_nat (nat_of_ascii c - 48))%Z s'
  end.

Definition digits_value (s : string) : Z := digits_value_aux 0 s.

(** ** [getState] *)

(** The object [getState] hands to its callback. *)
Record settings := mkSettings { st_on : bool; st_color : hsl }.

(** [{H: 255, S: 100, L: 50}], the color [getState] reports when it
    finds none (and the constructor's initial color). *)
Definition default_color : hsl := mkHSL 255 100 50.

(** The first three matches, as [convert.rgb.hsl] reads [rgb[0..2]];
    with fewer than three it would read undefined (NaN): [None]. *)
Definition first_rgb (runs : list string) : option rgb :=
  match runs with
  | a :: b :: c :: _ => Some (mkRGB (digits_value a) (digits_value b) (digits_value c))
  | _ => None
  end.

Section GetState.
Context {N : Type} `{ColorConverter N}.

Definition get_state_settings (stdout : string) : settings :=
  let colors := regex_exists color_pattern stdout in
  let isOn := regex_exists on_pattern stdout in
  let color :=
    if colors then
      match first_rgb (digit_runs stdout) with
      | Some c => cc_rgb_hsl c
      | None => default_color
      end
    else default_color in
  mkSettings isOn color.
End GetState.

Arguments get_state_settings N {_} stdout.

(** ** The scanner *)

Lemma digit_runs_step (a b c : ascii) (rest : string) :
  digit_runs (String a (String b (String c rest)))
  = if is_digit a && is_digit b && is_digit c
    then String a (String b (String c EmptyString)) :: digit_runs rest
    else digit_runs (String b (String c rest)).
Proof. reflexivity. Qed.

Lemma digit_runs_short (a b : ascii) : digit_runs (String a (String b EmptyString)) = [].
Proof. reflexivity. Qed.

Lemma digit_runs_app (p rest : string) (c : ascii) :
  is_digit c = false ->
  digit_runs (p ++ String c rest) = digit_runs p ++ digit_runs (String c rest).
Proof.
  intros Hc.
  assert (Hgen : forall n p, (String.length p <= n)%nat ->
            digit_runs (p ++ String c rest) = digit_runs p ++ digit_runs (String c rest)).
  { induction n as [|n IH]; intros [|a [|b [|d p']]] Hlen; cbn in Hlen; try reflexivity; try lia.
    - cbn [append]. destruct rest as [|x rest]; [reflexivity|].
      rewrite digit_runs_step, Hc, Bool.andb_false_r. reflexivity.
    - cbn [append]. rewrite digit_runs_step, Hc, Bool.andb_false_r.
      rewrite digit_runs_short. apply (IH (String b EmptyString)). cbn. lia.
    - cbn [append]. rewrite !digit_runs_step.
      destruct (is_digit a && is_digit b && is_digit d).
      + cbn [List.app]. f_equal. apply IH. lia.
      + apply (IH (String b (String d p'))). cbn. lia. }
  apply (Hgen (String.length p)). lia.
Qed.

Lemma regex_exists_split (p : pattern) (s : string) :
  regex_exists p s = true <-> exists pre post, s = (pre ++ post)%string /\ match_here p post = true.
Proof.
  induction s as [|c s IH]; cbn.
  - rewrite Bool.orb_false_r. split.
    + intros H. exists EmptyString, EmptyString. auto.
    + intros (pre & post & Hs & Hm). destruct pre, post; try discriminate. exact Hm.
  - rewrite Bool.orb_true_iff, IH. split.
    + intros [Hm | (pre & post & -> & Hm)].
      * exists EmptyString, (String c s). auto.
      * exists (String c pre), post. auto.
    + intros (pre & post & Hs & Hm). destruct pre as [|c' pre].
      * left. cbn in Hs. now subst post.
      * right. cbn in Hs. injection Hs as <- ->. eauto.
Qed.

(** A string of exactly three digits. *)
Definition digit3 (s : string) : bool :=
  match s with
  | String a (String b (String c EmptyString)) => is_digit a && is_digit b && is_digit c
  | _ => false
  end.

(** The text [(DDD, DDD, DDD)] the first expression looks for. *)
Definition color_tuple (s1 s2 s3 : string) : string :=
  ("(" ++ s1 ++ ", " ++ s2 ++ ", " ++ s3 ++ ")")%string.

(** Every match of the color expression is such a tuple. *)
Lemma match_color_pattern (post : string) :
  match_here color_pattern post = true ->
  exists s1 s2 s3 q, post = (color_tuple s1 s2 s3 ++ q)%string
    /\ digit3 s1 = true /\ digit3 s2 = true /\ digit3 s3 = true.
Proof.
  intros Hm.
  do 15 (destruct post as [|?c post];
    [cbn in Hm; rewrite ?Bool.andb_false_r in Hm; discriminate|]).
  cbn in Hm. unfold lit in Hm. repeat (apply Bool.andb_true_iff in Hm as [? Hm]).
  repeat match goal with H : Ascii.eqb _ _ = true |- _ => apply Ascii.eqb_eq in H; subst end.
  exists (String c0 (String c1 (String c2 EmptyString))),
    (String c5 (String c6 (String c7 EmptyString))),
    (String c10 (String c11 (String c12 EmptyString))), post.
  split; [reflexivity|]. cbn. rewrite !Bool.andb_true_iff. tauto.
Qed.

Lemma digit_runs_tuple (s1 s2 s3 q : string) :
  digit3 s1 = true -> digit3 s2 = true -> digit3 s3 = true ->
  digit_runs (color_tuple s1 s2 s3 ++ q) = s1 :: s2 :: s3 :: digit_runs (")" ++ q).
Proof.
  intros H1 H2 H3.
  destruct s1 as [|a1 [|b1 [|c1 [|]]]]; try discriminate;
  destruct s2 as [|a2 [|b2 [|c2 [|]]]]; try discriminate;
  destruct s3 as [|a3 [|b3 [|c3 [|]]]]; try discriminate.
  cbn in H1, H2, H3 |- *. now rewrite H1, H2, H3.
Qed.

Lemma digit_runs_before_tuple (pre s1 s2 s3 q : string) :
  digit3 s1 = true -> digit3 s2 = true -> digit3 s3 = true ->
  digit_runs (pre ++ (color_tuple s1 s2 s3 ++ q)) = digit_runs pre ++ s1 :: s2 :: s3 :: digit_runs (")" ++ q).
Proof.
  intros H1 H2 H3. rewrite <- (digit_runs_tuple s1 s2 s3 q) by assumption.
  exact (digit_runs_app pre _ "("%char eq_refl).
Qed.

Lemma first_rgb_app (l : list string) (s1 s2 s3 : string) (rest : list string) :
  exists c, first_rgb (l ++ s1 :: s2 :: s3 :: rest) = Some c.
Proof. destruct l as [|a [|b [|c l]]]; cbn; eauto. Qed.

Lemma color_match_first_rgb (s : string) :
  regex_exists color_pattern s = true -> exists c, first_rgb (digit_runs s) = Some c.
Proof.
  rewrite regex_exists_split. intros (pre & post & -> & Hm).
  destruct (match_color_pattern post Hm) as (s1 & s2 & s3 & q & -> & H1 & H2 & H3).
  rewrite digit_runs_before_tuple by assumption. apply first_rgb_app.
Qed.

(** C18. Whenever the color expression matches, the scan finds at least
    three runs of three digits: [convert.rgb.hsl] never reads an
    undefined component. *)
Theorem color_match_has_three_runs (s : string) :
  regex_exists color_pattern s = true -> exists c, first_rgb (digit_runs s) = Some c.
Proof. apply color_match_first_rgb. Qed.

Example color_match_has_three_runs_witness :
  regex_exists color_pattern "[LED] ON  [Color: (255, 128, 064)]" = true /\
  exists c, first_rgb (digit_runs "[LED] ON  [Color: (255, 128, 064)]") = Some c.
Proof.
  split; [vm_compute; reflexivity|].
  apply color_match_has_three_runs. vm_compute. reflexivity.
Defined.

Lemma match_here_tuple (s1 s2 s3 q : string) :
  digit3 s1 = true -> digit3 s2 = true -> digit3 s3 = true ->
  match_here color_pattern (color_tuple s1 s2 s3 ++ q) = true.
Proof.
  intros H1 H2 H3.
  destruct s1 as [|a1 [|b1 [|c1 [|]]]]; try discriminate;
  destruct s2 as [|a2 [|b2 [|c2 [|]]]]; try discriminate;
  destruct s3 as [|a3 [|b3 [|c3 [|]]]]; try discriminate.
  cbn in H1, H2, H3 |- *. rewrite !Bool.andb_true_iff in H1, H2, H3.
  destruct H1 as [[-> ->] ->], H2 as [[-> ->] ->], H3 as [[-> ->] ->]. reflexivity.
Qed.

(** C17. [getState] reads the color of a [(DDD, DDD, DDD)] tuple: when no
    run of three digits precedes it in the output, the reported color is
    [convert.rgb.hsl] of the tuple's three numbers. *)
Theorem get_state_reads_tuple {N : Type} `{ColorConverter N} (pre s1 s2 s3 q : string) :
  digit3 s1 = true -> digit3 s2 = true -> digit3 s3 = true ->
  digit_runs pre = [] ->
  st_color (get_state_settings N (pre ++ (color_tuple s1 s2 s3 ++ q)))
  = cc_rgb_hsl (mkRGB (digits_value s1) (digits_value s2) (digits_value s3)).
Proof.
  intros H1 H2 H3 Hpre. unfold get_state_settings.
  replace (regex_exists color_pattern _) with true.
  2:{ symmetry. apply regex_exists_split. eexists _, _. split; [reflexivity|].
      now apply match_here_tuple. }
  rewrite digit_runs_before_tuple, Hpre by assumption. reflexivity.
Qed.

Example get_state_reads_tuple_witness :
  digit3 "255" = true /\ digit3 "128" = true /\ digit3 "064" = true /\
  digit_runs "[LED] ON  [Color: " = [] /\
  st_color (get_state_settings Q ("[LED] ON  [Color: " ++ (color_tuple "255" "128" "064" ++ "]")))
  = mkHSL 20 100 63.
Proof.
  do 4 (split; [reflexivity|]).
  rewrite (get_state_reads_tuple "[LED] ON  [Color: " "255" "128" "064" "]") by reflexivity.
  vm_compute. reflexivity.
Defined.

(** ** What the scan misses *)

(** [s] has no opening parenthesis, where a match of the color
    expression starts. *)
Definition no_open_paren (s : string) : bool :=
  all_chars (fun c => negb (Ascii.eqb c "("%char)) s.

(** A number printed with one or two digits. *)
Definition short_digits (s : string) : bool :=
  match s with
  | String a EmptyString => is_digit a
  | String a (String b EmptyString) => is_digit a && is_digit b
  | _ => false
  end.

(** No match of an expression starting with [\(] starts inside a text
    without parenthesis. *)
Lemma regex_exists_skip (p : pattern) (s t : string) :
  no_open_paren s = true -> regex_exists (lit "("%char :: p) (s ++ t) = regex_exists (lit "("%char :: p) t.
Proof.
  induction s as [|c s IH]; cbn; [reflexivity|].
  rewrite Bool.andb_true_iff, Bool.negb_true_iff. intros [Hc Hs].
  unfold lit at 1. rewrite Hc. cbn. now apply IH.
Qed.

Lemma regex_exists_paren_free (p : pattern) (s : string) :
  no_open_paren s = true -> regex_exists (lit "("%char :: p) s = false.
Proof.
  induction s as [|c s IH]; cbn; [reflexivity|].
  rewrite Bool.andb_true_iff, Bool.negb_true_iff. intros [Hc Hs].
  unfold lit at 1. rewrite Hc. cbn. now apply IH.
Qed.

(** A byte is printed with three digits from 100 on, with one or two
    below, and never with a parenthesis. *)
Lemma Z_to_string_byte (v : Z) :
  (0 <= v <= 255)%Z ->
  (if (100 <=? v)%Z then digit3 (Z_to_string v) else short_digits (Z_to_string v))
  && no_open_paren (Z_to_string v) = true.
Proof.
  intros Hv.
  refine (Z_range_forallb
    (fun v => (if (100 <=? v)%Z then digit3 (Z_to_string v) else short_digits (Z_to_string v))
              && no_open_paren (Z_to_string v)) 0 256 _ v ltac:(lia)).
  vm_compute. reflexivity.
Qed.

Lemma match_d3_short (u x : string) (d : ascii) (p : pattern) :
  short_digits u = true -> is_digit d = false ->
  match_here (is_digit :: is_digit :: is_digit :: p) (u ++ String d x) = false.
Proof.
  destruct u as [|a [|b [|c u]]]; try discriminate; intros _ Hd; cbn; rewrite Hd;
    now rewrite ?Bool.andb_false_r.
Qed.

Lemma match_d3_full (u x : string) (p : pattern) :
  digit3 u = true -> match_here (is_digit :: is_digit :: is_digit :: p) (u ++ x) = match_here p x.
Proof.
  destruct u as [|a [|b [|c [|]]]]; try discriminate; cbn.
  rewrite !Bool.andb_true_iff. intros [[-> ->] ->]. reflexivity.
Qed.

Lemma match_here_lit (c : ascii) (p : pattern) (s : string) :
  match_here (lit c :: p) (String c s) = match_here p s.
Proof. cbn. unfold lit. now rewrite Ascii.eqb_refl. Qed.

(** A tuple printed without padding matches the color expression only
    if all three numbers have three digits. *)
Lemma match_unpadded_tuple (r g b : Z) (q : string) :
  (0 <= r <= 255)%Z -> (0 <= g <= 255)%Z -> (0 <= b <= 255)%Z ->
  (r < 100 \/ g < 100 \/ b < 100)%Z ->
  match_here color_pattern
    ("(" ++ Z_to_string r ++ ", " ++ Z_to_string g ++ ", " ++ Z_to_string b ++ ")" ++ q)%string = false.
Proof.
  intros Hr Hg Hb Hsmall.
  pose proof (Z_to_string_byte r Hr) as Er. pose proof (Z_to_string_byte g Hg) as Eg.
  pose proof (Z_to_string_byte b Hb) as Eb.
  unfold color_pattern, d3. cbn [app append].
  rewrite !Bool.andb_true_iff in Er, Eg, Eb. destruct Er as [Er _], Eg as [Eg _], Eb as [Eb _].
  destruct (100 <=? r)%Z eqn:Lr; [apply Z.leb_le in Lr | apply Z.leb_gt in Lr];
  destruct (100 <=? g)%Z eqn:Lg; [apply Z.leb_le in Lg | apply Z.leb_gt in Lg | |];
  destruct (100 <=? b)%Z eqn:Lb; try apply Z.leb_le in Lb; try apply Z.leb_gt in Lb; try lia;
    repeat first [ rewrite match_here_lit
                 | rewrite match_d3_short by (assumption || reflexivity); reflexivity
                 | rewrite match_d3_full by assumption ].
Qed.

(** C19. The color expression demands three digits per component, while
    a number is printed without leading zeros: whenever the device
    reports its color as a tuple [(r, g, b)] with some component below
    100, and the rest of its output has no parenthesis, [getState]
    reports the default color [{255, 100, 50}] instead of the device's
    color. *)
Theorem get_state_unpadded_color {N : Type} `{ColorConverter N} (pre q : string) (r g b : Z) :
  no_open_paren pre = true -> no_open_paren q = true ->
  (0 <= r <= 255)%Z -> (0 <= g <= 255)%Z -> (0 <= b <= 255)%Z ->
  (r < 100 \/ g < 100 \/ b < 100)%Z ->
  st_color (get_state_settings N
    (pre ++ "(" ++ Z_to_string r ++ ", " ++ Z_to_string g ++ ", " ++ Z_to_string b ++ ")" ++ q))
  = default_color.
Proof.
  intros Hpre Hq Hr Hg Hb Hsmall. unfold get_state_settings.
  replace (regex_exists color_pattern _) with false; [reflexivity|]. symmetry.
  pose proof (match_unpadded_tuple r g b q Hr Hg Hb Hsmall) as Hm.
  assert (Hp : color_pattern = lit "("%char :: tl color_pattern) by reflexivity.
  rewrite Hp in Hm |- *. rewrite regex_exists_skip by exact Hpre.
  cbn [append] in Hm |- *. cbn [regex_exists]. rewrite Hm. cbn [orb].
  apply regex_exists_paren_free.
  pose proof (proj2 (proj1 (Bool.andb_true_iff _ _) (Z_to_string_byte r Hr))) as Nr.
  pose proof (proj2 (proj1 (Bool.andb_true_iff _ _) (Z_to_string_byte g Hg))) as Ng.
  pose proof (proj2 (proj1 (Bool.andb_true_iff _ _) (Z_to_string_byte b Hb))) as Nb.
  unfold no_open_paren in *. repeat (rewrite all_chars_app; cbn [all_chars]).
  rewrite Nr, Ng, Nb, Hq. reflexivity.
Qed.

Example get_state_unpadded_color_witness :
  no_open_paren "[LED] ON  [Color: " = true /\ no_open_paren "]" = true /\
  (0 <= 255 <= 255)%Z /\ (0 <= 0 <= 255)%Z /\ (0 <= 0 <= 255)%Z /\
  (255 < 100 \/ 0 < 100 \/ 0 < 100)%Z /\
  st_color (get_state_settings Q
    ("[LED] ON  [Color: " ++ "(" ++ Z_to_string 255 ++ ", " ++ Z_to_string 0 ++ ", "
     ++ Z_to_string 0 ++ ")" ++ "]")) = default_color.
Proof.
  do 5 (split; [reflexivity || lia |]). split; [lia|].
  apply (get_state_unpadded_color "[LED] ON  [Color: " "]" 255 0 0);
    (reflexivity || lia).
Defined.

Lemma first_rgb_prefix (l m : list string) (c : rgb) :
  first_rgb l = Some c -> first_rgb (l ++ m) = Some c.
Proof. destruct l as [|a [|b [|d l]]]; cbn; congruence. Qed.

(** C20. The components are the first three runs of three digits
    anywhere in the output, not those of the tuple: whenever the output
    holds three runs of three digits before a [(DDD, DDD, DDD)] tuple
    (an address, a firmware version), the reported color is built from
    those runs, whatever the tuple says. *)
Theorem get_state_digits_before_tuple {N : Type} `{ColorConverter N} (pre s1 s2 s3 q : string) (c : rgb) :
  digit3 s1 = true -> digit3 s2 = true -> digit3 s3 = true ->
  first_rgb (digit_runs pre) = Some c ->
  st_color (get_state_settings N (pre ++ (color_tuple s1 s2 s3 ++ q))) = cc_rgb_hsl c.
Proof.
  intros H1 H2 H3 Hpre. unfold get_state_settings.
  replace (regex_exists color_pattern _) with true.
  2:{ symmetry. apply regex_exists_split. eexists _, _. split; [reflexivity|].
      now apply match_here_tuple. }
  rewrite digit_runs_before_tuple by assumption. now rewrite (first_rgb_prefix _ _ c Hpre).
Qed.

Example get_state_digits_before_tuple_witness :
  digit3 "255" = true /\ digit3 "128" = true /\ digit3 "064" = true /\
  first_rgb (digit_runs "192.168.001.010 [LED] ON  [Color: ") = Some (mkRGB 192 168 1) /\
  st_color (get_state_settings Q ("192.168.001.010 [LED] ON  [Color: "
                                   ++ (color_tuple "255" "128" "064" ++ "]")))
  = cc_rgb_hsl (N:=Q) (mkRGB 192 168 1).
Proof.
  do 4 (split; [reflexivity|]).
  exact (@get_state_digits_before_tuple Q (color_convert Q) "192.168.001.010 [LED] ON  [Color: "
           "255" "128" "064" "]" (mkRGB 192 168 1) eq_refl eq_refl eq_refl eq_refl).
Defined.
