(* ===== verification/JsMatch.v ===== *)
(** * [String.prototype.match] with a global regular expression

    [getState] (src/index.js) calls [stdout.match(re)] three times with
    global expressions.  For such an expression JavaScript runs a loop
    ([RegExp.prototype[@@match]]): from [lastIndex = 0] it looks for the
    leftmost match at or after [lastIndex] ([RegExpBuiltinExec], which
    fails once [lastIndex] is past the end), collects the matched text,
    sets [lastIndex] to the end of the match and, after an empty match,
    advances it by one more; the result is the array of matches, or
    [null] when there is none.  [match_all] is that loop with fuel, and
    [string_match_g] the call.  The file proves that the loop finishes
    within [length s + 2] rounds, that it computes the scanner
    [digit_runs] for [/\d{3}/g] and is non-null exactly when
    [regex_exists] holds, and, from these, that [getState] as the source
    writes it ([get_state_js], with the [null] and missing-component
    paths) never fails and equals [get_state_settings]. *)

From Stdlib Require Import String Ascii List Lia Arith.
From S2P Require Import Prelude ColorConvert DeviceState.
Import ListNotations.

(** The characters of [s] from index [i] on. *)
Fixpoint drop_chars (i : nat) (s : string) : string :=
  match i, s with
  | O, _ => s
  | S i', String _ s' => drop_chars i' s'
  | S _, EmptyString => EmptyString
  end.

(** The index, from the start of [t], of the leftmost match of [p]. *)
Fixpoint find_first (p : pattern) (t : string) : option nat :=
  if match_here p t then Some O
  else match t with
       | EmptyString => None
       | String _ t' => option_map S (find_first p t')
       end.

(** [RegExpBuiltinExec] of a global expression at [lastIndex = i]: the
    index of the leftmost match at or after [i]; none once [i] is past
    the end of the string. *)
Definition regexp_exec (p : pattern) (s : string) (i : nat) : option nat :=
  if String.length s <? i then None
  else option_map (Nat.add i) (find_first p (drop_chars i s)).

(** The [lastIndex] after a match at [j]: the end of the match, and one
    further when the matched text is empty ([AdvanceStringIndex]). *)
Definition next_index (p : pattern) (s : string) (j : nat) : nat :=
  let e := j + List.length p in
  if String.eqb (substring j (List.length p) s) EmptyString then S e else e.

(** The loop of [RegExp.prototype[@@match]] for a global expression,
    from [lastIndex = i]: collect each match and go on from
    [next_index].  [None]: the fuel ran out. *)
Fixpoint match_all (fuel : nat) (p : pattern) (s : string) (i : nat) : option (list string) :=
  match fuel with
  | O => None
  | S fuel' =>
      match regexp_exec p s i with
      | None => Some []
      | Some j =>
          option_map (cons (substring j (List.length p) s)) (match_all fuel' p s (next_index p s j))
      end
  end.

(** [s.match(re)] for a global [re]: the array of matches, [None] for
    [null]. *)
Definition string_match_g (p : pattern) (s : string) : option (list string) :=
  match match_all (String.length s + 2) p s 0 with
  | Some (m :: ms) => Some (m :: ms)
  | _ => None
  end.

Section GetStateJs.
Context {N : Type} `{ColorConverter N}.

(** [getState]'s callback as the source writes it: [settings.on] is set
    when [isOn && isOn.length > 0]; when [colors && colors.length > 0],
    [convert.rgb.hsl] gets [stdout.match(/\d{3}/g)], which throws a
    TypeError on [null] ([None]) and reads NaN from a missing component
    (outside the number model, also [None]). *)
Definition get_state_js (stdout : string) : option settings :=
  let colors := string_match_g color_pattern stdout in
  let isOn := string_match_g on_pattern stdout in
  let on := match isOn with Some (_ :: _) => true | _ => false end in
  match colors with
  | Some (_ :: _) =>
      match string_match_g d3 stdout with
      | Some runs => option_map (fun c => mkSettings on (cc_rgb_hsl c)) (first_rgb runs)
      | None => None
      end
  | _ => Some (mkSettings on default_color)
  end.
End GetStateJs.

Arguments get_state_js N {_} stdout.

(** ** Bounds of one round *)

Lemma match_here_length (p : pattern) (t : string) :
  match_here p t = true -> List.length p <= String.length t.
Proof.
  revert t. induction p as [|k p IH]; intros [|c t] Hm; cbn in *; try lia; try discriminate.
  apply Bool.andb_true_iff in Hm as [_ Hm]. specialize (IH t Hm). lia.
Qed.

Lemma find_first_bound (p : pattern) (t : string) (k : nat) :
  find_first p t = Some k -> k + List.length p <= String.length t.
Proof.
  revert k. induction t as [|c t IH]; intros k Hf; cbn in Hf;
    destruct (match_here p _) eqn:Hm; try discriminate.
  - injection Hf as <-. apply match_here_length in Hm. cbn in *. lia.
  - injection Hf as <-. apply match_here_length in Hm. cbn in *. lia.
  - destruct (find_first p t) as [k'|] eqn:E; [|discriminate]. injection Hf as <-.
    specialize (IH k' eq_refl). cbn. lia.
Qed.

Lemma find_first_short (p : pattern) (t : string) :
  String.length t < List.length p -> find_first p t = None.
Proof.
  intros Hlt. destruct (find_first p t) as [k|] eqn:E; [|reflexivity].
  apply find_first_bound in E. lia.
Qed.

Lemma drop_chars_length (i : nat) (s : string) :
  String.length (drop_chars i s) = String.length s - i.
Proof. revert s. induction i as [|i IH]; intros [|c s]; cbn; auto with arith. Qed.

Lemma regexp_exec_bound (p : pattern) (s : string) (i j : nat) :
  regexp_exec p s i = Some j -> i <= j /\ j + List.length p <= String.length s.
Proof.
  unfold regexp_exec. destruct (String.length s <? i) eqn:E; [discriminate|].
  apply Nat.ltb_ge in E.
  destruct (find_first p (drop_chars i s)) as [k|] eqn:Ef; [|discriminate].
  intros Hj. injection Hj as <-. apply find_first_bound in Ef.
  rewrite drop_chars_length in Ef. lia.
Qed.

Lemma substring_zero (j : nat) (s : string) : substring j 0 s = EmptyString.
Proof. revert s. induction j as [|j IH]; intros [|c s]; cbn; auto. Qed.

(** Each round moves [lastIndex] forward and keeps it at most one past
    the end. *)
Lemma next_index_bound (p : pattern) (s : string) (i j : nat) :
  regexp_exec p s i = Some j -> i < next_index p s j <= String.length s + 1.
Proof.
  intros Hj. apply regexp_exec_bound in Hj as [Hij Hlen]. unfold next_index.
  destruct (String.eqb _ EmptyString) eqn:Em; [lia|].
  destruct (List.length p) eqn:Hp; [|lia].
  rewrite substring_zero in Em. discriminate.
Qed.

(** ** Termination *)

Lemma match_all_S (p : pattern) (s : string) (fuel i : nat) :
  match_all (S fuel) p s i
  = match regexp_exec p s i with
    | None => Some []
    | Some j =>
        option_map (cons (substring j (List.length p) s)) (match_all fuel p s (next_index p s j))
    end.
Proof. reflexivity. Qed.

Lemma match_all_some (p : pattern) (s : string) (fuel i : nat) :
  i <= String.length s + 1 -> String.length s + 2 <= fuel + i ->
  exists ms, match_all fuel p s i = Some ms.
Proof.
  revert i. induction fuel as [|fuel IH]; intros i Hi Hf; [lia|].
  cbn [match_all]. destruct (regexp_exec p s i) as [j|] eqn:E; [|eauto].
  pose proof (next_index_bound p s i j E).
  destruct (IH (next_index p s j)) as [ms ->]; try lia. eexists. reflexivity.
Qed.

(** More fuel does not change a result. *)
Lemma match_all_fuel_mono (p : pattern) (s : string) (fuel k i : nat) (ms : list string) :
  match_all fuel p s i = Some ms -> match_all (fuel + k) p s i = Some ms.
Proof.
  revert i ms. induction fuel as [|fuel IH]; intros i ms Hm; [discriminate|].
  cbn [match_all Nat.add] in *. destruct (regexp_exec p s i) as [j|]; [|exact Hm].
  destruct (match_all fuel p s (next_index p s j)) as [ms'|] eqn:E; [|discriminate].
  rewrite (IH _ _ E). exact Hm.
Qed.

(** ** The loop on a string and on its tail *)

Lemma regexp_exec_cons (p : pattern) (c : ascii) (t : string) (i : nat) :
  regexp_exec p (String c t) (S i) = option_map S (regexp_exec p t i).
Proof.
  unfold regexp_exec. cbn [String.length drop_chars].
  change (S (String.length t) <? S i) with (String.length t <? i).
  destruct (String.length t <? i); [reflexivity|].
  destruct (find_first p (drop_chars i t)); reflexivity.
Qed.

(** No match at the first character: the leftmost match is one further
    in the tail. *)
Lemma regexp_exec_skip (p : pattern) (c : ascii) (t : string) :
  match_here p (String c t) = false ->
  regexp_exec p (String c t) 0 = option_map S (regexp_exec p t 0).
Proof.
  intros Hm. unfold regexp_exec. cbn [drop_chars find_first]. rewrite Hm.
  destruct (find_first p t); reflexivity.
Qed.

(** One round on [String c t] that finds the same matches as on [t],
    shifted by one, continues as on [t]. *)
Lemma match_all_shift_round (p : pattern) (c : ascii) (t : string) (fuel i i' : nat) :
  regexp_exec p (String c t) i = option_map S (regexp_exec p t i') ->
  (forall k, match_all fuel p (String c t) (S k) = match_all fuel p t k) ->
  match_all (S fuel) p (String c t) i = match_all (S fuel) p t i'.
Proof.
  intros He Hrest. cbn [match_all]. rewrite He.
  destruct (regexp_exec p t i') as [j|]; [|reflexivity]. cbn [option_map].
  unfold next_index. cbn [substring Nat.add].
  destruct (String.eqb _ EmptyString); rewrite Hrest; reflexivity.
Qed.

Lemma match_all_cons (p : pattern) (c : ascii) (t : string) (fuel i : nat) :
  match_all fuel p (String c t) (S i) = match_all fuel p t i.
Proof.
  revert i. induction fuel as [|fuel IH]; intros i; [reflexivity|].
  apply match_all_shift_round; [apply regexp_exec_cons | exact IH].
Qed.

Lemma match_all_skip (p : pattern) (c : ascii) (t : string) (fuel : nat) :
  match_here p (String c t) = false ->
  match_all fuel p (String c t) 0 = match_all fuel p t 0.
Proof.
  intros Hm. destruct fuel as [|fuel]; [reflexivity|].
  apply match_all_shift_round; [now apply regexp_exec_skip | apply match_all_cons].
Qed.

Lemma match_all_hit (p : pattern) (s : string) (fuel : nat) :
  match_here p s = true ->
  match_all (S fuel) p s 0
  = option_map (cons (substring 0 (List.length p) s)) (match_all fuel p s (next_index p s 0)).
Proof.
  intros Hm. cbn [match_all]. unfold regexp_exec. cbn [drop_chars].
  destruct s; cbn [find_first]; rewrite Hm; reflexivity.
Qed.

(** ** [/\d{3}/g] is the scanner [digit_runs] *)

Lemma match_here_d3 (a b c : ascii) (rest : string) :
  match_here d3 (String a (String b (String c rest))) = (is_digit a && is_digit b && is_digit c)%bool.
Proof. cbn. now rewrite Bool.andb_true_r, Bool.andb_assoc. Qed.

Lemma match_all_d3 (n : nat) :
  forall s fuel, String.length s <= n -> String.length s + 2 <= fuel ->
  match_all fuel d3 s 0 = Some (digit_runs s).
Proof.
  induction n as [|n IH]; intros s fuel Hn Hf; (destruct fuel as [|fuel]; [lia|]).
  - destruct s; [reflexivity | cbn in Hn; lia].
  - destruct s as [|a [|b [|c rest]]];
      try (cbn [match_all]; unfold regexp_exec; cbn [drop_chars];
           rewrite find_first_short by (cbn; lia); reflexivity).
    cbn [String.length] in Hn, Hf. rewrite digit_runs_step.
    destruct (is_digit a && is_digit b && is_digit c)%bool eqn:E.
    + rewrite match_all_hit by now rewrite match_here_d3. unfold next_index.
      change (List.length d3) with 3. cbn [substring String.eqb Nat.add].
      rewrite !match_all_cons, (IH rest fuel), substring_zero by lia. reflexivity.
    + rewrite match_all_skip by now rewrite match_here_d3.
      apply IH; cbn; lia.
Qed.

Lemma string_match_g_d3 (s : string) :
  string_match_g d3 s = match digit_runs s with [] => None | runs => Some runs end.
Proof.
  unfold string_match_g. rewrite (match_all_d3 (String.length s)) by lia.
  destruct (digit_runs s); reflexivity.
Qed.

(** ** [m && m.length > 0] is [regex_exists] *)

Lemma find_first_none (p : pattern) (t : string) :
  find_first p t = None <-> regex_exists p t = false.
Proof.
  induction t as [|c t IH]; cbn; destruct (match_here p _); cbn;
    try (split; discriminate); try tauto.
  rewrite <- IH. destruct (find_first p t); cbn; split; congruence.
Qed.

Lemma regexp_exec_start (p : pattern) (s : string) : regexp_exec p s 0 = find_first p s.
Proof. unfold regexp_exec. cbn [drop_chars]. destruct (find_first p s); reflexivity. Qed.

Lemma string_match_g_nonnull (p : pattern) (s : string) :
  match string_match_g p s with Some (_ :: _) => true | _ => false end = regex_exists p s.
Proof.
  unfold string_match_g. replace (String.length s + 2) with (S (S (String.length s))) by lia.
  rewrite match_all_S, regexp_exec_start.
  destruct (find_first p s) as [j|] eqn:E.
  - pose proof (next_index_bound p s 0 j (eq_trans (regexp_exec_start p s) E)).
    destruct (match_all_some p s (S (String.length s)) (next_index p s j)) as [ms ->]; try lia.
    cbn. symmetry. destruct (regex_exists p s) eqn:R; [reflexivity|].
    apply find_first_none in R. congruence.
  - symmetry. now apply find_first_none.
Qed.

(** ** [getState] as written *)

Lemma get_state_js_eq {N : Type} `{ColorConverter N} (stdout : string) :
  get_state_js N stdout = Some (get_state_settings N stdout).
Proof.
  unfold get_state_js, get_state_settings.
  pose proof (string_match_g_nonnull on_pattern stdout) as Hon.
  pose proof (string_match_g_nonnull color_pattern stdout) as Hcol.
  revert Hon Hcol. destruct (string_match_g on_pattern stdout) as [[|]|]; intros <-;
    destruct (string_match_g color_pattern stdout) as [[|]|]; intros Hcol; rewrite <- Hcol;
    try reflexivity.
  all: destruct (color_match_first_rgb stdout (eq_sym Hcol)) as [c Hc].
  all: rewrite string_match_g_d3; destruct (digit_runs stdout) eqn:Ed; [discriminate|].
  all: rewrite Hc; reflexivity.
Qed.

(** Termination: the loop of [s.match(re)] for a global expression
    ends within [length s + 2] rounds, whatever the pattern (also one
    that matches the empty string, thanks to the advance after an empty
    match), and more fuel gives the same array. *)
Lemma string_match_terminates (p : pattern) (s : string) :
  exists ms, forall fuel, String.length s + 2 <= fuel -> match_all fuel p s 0 = Some ms.
Proof.
  destruct (match_all_some p s (String.length s + 2) 0) as [ms Hms]; [lia | lia |].
  exists ms. intros fuel Hf. replace fuel with (String.length s + 2 + (fuel - (String.length s + 2))) by lia.
  now apply match_all_fuel_mono.
Qed.

(** C24. Equivalence and absence of errors: [getState]'s callback as
    the source writes it never throws (the third [match] is never
    [null] when a color tuple is present) and never reads a missing
    component; it reports the settings of [get_state_settings]. *)
Theorem get_state_js_settings {N : Type} `{ColorConverter N} (stdout : string) :
  get_state_js N stdout = Some (get_state_settings N stdout).
Proof. apply get_state_js_eq. Qed.
