(* ===== verification/Accessory.v ===== *)
(** * The accessory: state, constructor, HomeKit handlers and exec callbacks

    [MagicHomeAccessory] (src/index.js) keeps the light's color and
    brightness, set by HomeKit's handlers, and talks to the controller by
    running [flux_led.py] with [child_process.exec].  Each exec completes
    later, in any order, and runs its callback.  [accessory] is the
    object's state together with the execs still in flight ([acc_pending],
    the callbacks that will run); [step] runs one event: a HomeKit [get]
    or [set] handler, or the completion of one exec.  Its outputs are the
    commands handed to [exec] and the values passed to HomeKit's
    callbacks, in order.  Logging is not modelled. *)

From Stdlib Require Import ZArith QArith String List Lia Permutation.
From S2P Require Import Prelude JsNumber ColorConvert ChannelMapper DeviceState.
Import ListNotations.

(** The accessory's JSON configuration. *)
Record config_json := mkConfigJson {
  cfg_name : jsval;
  cfg_setup : jsval;
  cfg_port : jsval;
  cfg_ip : jsval;
  cfg_purewhite : jsval;
  cfg_onlywhite : jsval;
  cfg_combinedwhite : jsval
}.

(** The [flux_led.py] invocations the plugin makes. *)
Inductive flux_command :=
| FColor (setup : jsval) (c : channel_command)   (* setToCurrentColor *)
| FInfo                                          (* getState: [-i] *)
| FPower (on : bool)                             (* setPowerState: [--on] / [--off] *)
| FWarmWhite (brightness : Z).                   (* setToWarmWhite: [-w <brightness>] *)

(** The callback an exec in flight will run. *)
Inductive request :=
| ColorSync      (* getColorFromDevice: sets this.color *)
| PowerQuery     (* getPowerState: answers HomeKit with settings.on *)
| PowerSet.      (* setPowerState: answers HomeKit *)

(** Values passed to HomeKit's callbacks. *)
Inductive hk_reply :=
| HKNumber (v : Z)
| HKBool (b : bool)
| HKDone.

Inductive output :=
| Exec (ip : jsval) (c : flux_command)
| Reply (r : hk_reply).

Record accessory := mkAccessory {
  acc_name : jsval;
  acc_setup : jsval;
  acc_port : jsval;
  acc_ip : jsval;
  acc_color : hsl;
  acc_brightness : Z;
  acc_purewhite : jsval;
  acc_onlywhite : jsval;
  acc_combinedwhite : jsval;
  acc_pending : list request
}.

(** ** Commands as strings *)

(** The argument of [sendCommand] for each invocation. *)
Definition flux_argument (c : flux_command) : string :=
  match c with
  | FColor setup cmd => render_command setup cmd
  | FInfo => "-i"
  | FPower on => if on then "--on" else "--off"
  | FWarmWhite b => ("-w " ++ Z_to_string b)%string
  end.

(** [__dirname + '/flux_led.py ' + this.ip + ' ' + command], the line
    [sendCommand] runs. *)
Definition command_line (dirname : string) (ip : jsval) (c : flux_command) : string :=
  (dirname ++ "/flux_led.py " ++ js_to_string ip ++ " " ++ flux_argument c)%string.

(** ** The object *)

Definition with_color (a : accessory) (c : hsl) : accessory :=
  mkAccessory (acc_name a) (acc_setup a) (acc_port a) (acc_ip a) c (acc_brightness a)
    (acc_purewhite a) (acc_onlywhite a) (acc_combinedwhite a) (acc_pending a).

Definition with_brightness (a : accessory) (b : Z) : accessory :=
  mkAccessory (acc_name a) (acc_setup a) (acc_port a) (acc_ip a) (acc_color a) b
    (acc_purewhite a) (acc_onlywhite a) (acc_combinedwhite a) (acc_pending a).

Definition with_pending (a : accessory) (p : list request) : accessory :=
  mkAccessory (acc_name a) (acc_setup a) (acc_port a) (acc_ip a) (acc_color a)
    (acc_brightness a) (acc_purewhite a) (acc_onlywhite a) (acc_combinedwhite a) p.

Definition snapshot_of (a : accessory) : snapshot :=
  mkSnapshot (acc_setup a) (acc_onlywhite a) (acc_combinedwhite a) (acc_purewhite a)
    (acc_color a) (acc_brightness a).

(** [sendCommand(command, callback)]: one exec, whose callback, when it
    has one, joins the requests in flight. *)
Definition send_command (a : accessory) (c : flux_command) (cb : option request)
    : accessory * list output :=
  (match cb with
   | Some r => with_pending a (acc_pending a ++ [r])
   | None => a
   end, [Exec (acc_ip a) c]).

Section Handlers.
Context {N : Type} `{JsNumber N} `{ColorConverter N}.

(** [setToCurrentColor]: one exec, no callback. *)
Definition set_to_current_color_effect (a : accessory) : accessory * list output :=
  send_command a (FColor (acc_setup a) (set_to_current_color N (snapshot_of a))) None.

(** [getColorFromDevice]: [getState] with the color-sync callback. *)
Definition get_color_from_device (a : accessory) : accessory * list output :=
  send_command a FInfo (Some ColorSync).

(** The constructor: the configuration read through [||], the initial
    color and brightness, then [getColorFromDevice]. *)
Definition new_accessory (cfg : config_json) : accessory * list output :=
  let a := mkAccessory (js_or (cfg_name cfg) (JStr "LED Controller"))
             (js_or (cfg_setup cfg) (JStr "RGBW"))
             (js_or (cfg_port cfg) (JNum 5577))
             (cfg_ip cfg)
             default_color 100
             (js_or (cfg_purewhite cfg) (JBool false))
             (js_or (cfg_onlywhite cfg) (JBool false))
             (js_or (cfg_combinedwhite cfg) (JBool false))
             [] in
  get_color_from_device a.

(** [setHue], [setSaturation], [setBrightness]: update the state, send
    the current color, answer HomeKit. *)
Definition set_and_render (a : accessory) : accessory * list output :=
  let '(a', outs) := set_to_current_color_effect a in (a', outs ++ [Reply HKDone]).

Definition set_hue (a : accessory) (v : Z) : accessory * list output :=
  let c := acc_color a in set_and_render (with_color a (mkHSL v (saturation c) (lightness c))).

Definition set_saturation (a : accessory) (v : Z) : accessory * list output :=
  let c := acc_color a in set_and_render (with_color a (mkHSL (hue c) v (lightness c))).

Definition set_brightness (a : accessory) (v : Z) : accessory * list output :=
  set_and_render (with_brightness a v).

(** [setPowerState]: HomeKit is answered when the exec completes. *)
Definition set_power_state (a : accessory) (v : bool) : accessory * list output :=
  send_command a (FPower v) (Some PowerSet).

(** [getPowerState]: a [getState] whose callback answers HomeKit. *)
Definition get_power_state (a : accessory) : accessory * list output :=
  send_command a FInfo (Some PowerQuery).

(** [setToWarmWhite] (defined in the source, called by no handler). *)
Definition set_to_warm_white (a : accessory) : accessory * list output :=
  send_command a (FWarmWhite (acc_brightness a)) None.

(** The callback of a completed exec, with the [stdout] it received. *)
Definition run_callback (a : accessory) (r : request) (stdout : string)
    : accessory * list output :=
  match r with
  | ColorSync => (with_color a (st_color (get_state_settings N stdout)), [])
  | PowerQuery => (a, [Reply (HKBool (st_on (get_state_settings N stdout)))])
  | PowerSet => (a, [Reply HKDone])
  end.
End Handlers.

Arguments set_to_current_color_effect N {_ _} a.
Arguments set_hue N {_ _} a v.
Arguments set_saturation N {_ _} a v.
Arguments set_brightness N {_ _} a v.
Arguments run_callback N {_} a r stdout.

(** ** Events *)

Inductive event :=
| SetHue (v : Z)
| SetSaturation (v : Z)
| SetBrightness (v : Z)
| SetPower (v : bool)
| GetHue
| GetSaturation
| GetBrightness
| GetPower
| Identify
| ExecDone (i : nat) (stdout : string).

(** Remove the [i]-th request in flight. *)
Fixpoint take_nth {A : Type} (i : nat) (l : list A) : option (A * list A) :=
  match i, l with
  | _, [] => None
  | O, x :: l' => Some (x, l')
  | S i', x :: l' => option_map (fun '(y, r) => (y, x :: r)) (take_nth i' l')
  end.

Section Step.
Context {N : Type} `{JsNumber N} `{ColorConverter N}.

(** One event; [None] for the completion of an exec that is not in
    flight. *)
Definition step (a : accessory) (e : event) : option (accessory * list output) :=
  match e with
  | SetHue v => Some (set_hue N a v)
  | SetSaturation v => Some (set_saturation N a v)
  | SetBrightness v => Some (set_brightness N a v)
  | SetPower v => Some (set_power_state a v)
  | GetHue => Some (a, [Reply (HKNumber (hue (acc_color a)))])
  | GetSaturation => Some (a, [Reply (HKNumber (saturation (acc_color a)))])
  | GetBrightness => Some (a, [Reply (HKNumber (acc_brightness a))])
  | GetPower => Some (get_power_state a)
  | Identify => Some (a, [Reply HKDone])
  | ExecDone i stdout =>
      match take_nth i (acc_pending a) with
      | Some (r, rest) => Some (run_callback N (with_pending a rest) r stdout)
      | None => None
      end
  end.

(** A sequence of events from a state, with all outputs in order. *)
Fixpoint run (a : accessory) (es : list event) : option (accessory * list output) :=
  match es with
  | [] => Some (a, [])
  | e :: es' =>
      match step a e with
      | Some (a', outs) =>
          match run a' es' with
          | Some (a'', outs') => Some (a'', outs ++ outs')
          | None => None
          end
      | None => None
      end
  end.
End Step.

Arguments step N {_ _} a e.
Arguments run N {_ _} a es.

(** ** Well-formed inputs and states *)

(** What the device prints: every run of three digits is a byte value. *)
Definition reply_ok (stdout : string) : bool :=
  forallb (fun r => (digits_value r <=? 255)%Z) (digit_runs stdout).

(** HomeKit's ranges for the values it sets. *)
Definition event_ok (e : event) : bool :=
  match e with
  | SetHue v => (0 <=? v) && (v <=? 360)
  | SetSaturation v | SetBrightness v => (0 <=? v) && (v <=? 100)
  | ExecDone _ stdout => reply_ok stdout
  | _ => true
  end%Z.

Definition acc_ok (a : accessory) : bool :=
  hsl_in_range (acc_color a) && (0 <=? acc_brightness a)%Z && (acc_brightness a <=? 100)%Z.

Lemma digits_value_aux_nonneg (acc : Z) (s : string) :
  (0 <= acc)%Z -> (0 <= digits_value_aux acc s)%Z.
Proof.
  revert acc. induction s as [|c s IH]; intros acc Hacc; cbn; [lia|]. apply IH. lia.
Qed.

Lemma first_rgb_in_range (runs : list string) (c : rgb) :
  forallb (fun r => (digits_value r <=? 255)%Z) runs = true ->
  first_rgb runs = Some c -> rgb_in_range c = true.
Proof.
  intros Hall Hf. destruct runs as [|x [|y [|z rest]]]; try discriminate.
  injection Hf as <-. cbn in Hall. rewrite !Bool.andb_true_iff, !Z.leb_le in Hall.
  apply rgb_in_range_spec. cbn.
  pose proof (digits_value_aux_nonneg 0 x ltac:(lia)).
  pose proof (digits_value_aux_nonneg 0 y ltac:(lia)).
  pose proof (digits_value_aux_nonneg 0 z ltac:(lia)).
  unfold digits_value in *. lia.
Qed.

Section Invariant.
Context `{ColorConverterLaws Q}.

(** A device reply that prints byte values gives a color in range. *)
Lemma get_state_color_in_range (stdout : string) :
  reply_ok stdout = true -> hsl_in_range (st_color (get_state_settings Q stdout)) = true.
Proof.
  intros Hok. unfold get_state_settings. cbn [st_color].
  destruct (regex_exists color_pattern stdout); [|reflexivity].
  destruct (first_rgb (digit_runs stdout)) as [c|] eqn:Hf; [|reflexivity].
  apply cc_rgb_hsl_range. eapply first_rgb_in_range; eassumption.
Qed.

(** Every handler and callback keeps the color and the brightness in
    range. *)
Lemma step_acc_ok (a a' : accessory) (e : event) (outs : list output) :
  acc_ok a = true -> event_ok e = true -> step Q a e = Some (a', outs) -> acc_ok a' = true.
Proof.
  unfold acc_ok. intros Ha He Hs. rewrite !Bool.andb_true_iff, !Z.leb_le in Ha |- *.
  destruct a as [n st p ip [h s l] b pw ow cw pend]; cbn in Ha.
  destruct e as [v|v|v|v| | | | | |i stdout].
  10:{ unfold step in Hs; cbn [acc_pending] in Hs.
       destruct (take_nth i pend) as [[r rest]|]; [|discriminate].
       destruct r; unfold run_callback in Hs; injection Hs as <- <-;
         cbn [with_color with_pending acc_color acc_brightness];
         (split; [split|]); try lia;
         first [exact (get_state_color_in_range stdout He) | tauto]. }
  all: cbn in He, Hs; rewrite ?Bool.andb_true_iff, ?Z.leb_le in He;
    injection Hs as <- <-; rewrite hsl_in_range_spec in *; cbn in *; lia.
Qed.

(** The states the accessory reaches from its constructor through
    events with HomeKit-range values and device replies that print byte
    values. *)
Inductive reachable : accessory -> Prop :=
| reachable_new (cfg : config_json) : reachable (fst (new_accessory cfg))
| reachable_step (a a' : accessory) (e : event) (outs : list output) :
    reachable a -> event_ok e = true -> step Q a e = Some (a', outs) -> reachable a'.

(** The invariant, shared by the safety theorem. *)
Lemma reachable_invariant (a : accessory) : reachable a -> acc_ok a = true.
Proof.
  induction 1 as [cfg | a a' e outs _ IH He Hs]; [reflexivity|].
  eapply step_acc_ok; eassumption.
Qed.

(** C4. Invariant: in every reachable state the color is in HomeKit's
    ranges (hue 0..360, saturation and lightness 0..100) and the
    brightness in 0..100; the device's color, read back by
    [getColorFromDevice], keeps it there. *)
Theorem reachable_acc_ok (a : accessory) : reachable a -> acc_ok a = true.
Proof. apply reachable_invariant. Qed.
End Invariant.

Example reachable_acc_ok_witness :
  let a := fst (new_accessory (mkConfigJson JUndefined (JStr "RGBWW") JUndefined (JStr "10.0.0.7")
                                 JUndefined JUndefined JUndefined)) in
  reachable (fst (set_brightness Q a 30)) /\ acc_ok (fst (set_brightness Q a 30)) = true.
Proof.
  cbv zeta. assert (Hr : reachable (fst (set_brightness Q (fst (new_accessory (mkConfigJson
    JUndefined (JStr "RGBWW") JUndefined (JStr "10.0.0.7") JUndefined JUndefined JUndefined))) 30))).
  { refine (reachable_step _ _ (SetBrightness 30) _ (reachable_new _) eq_refl eq_refl). }
  split; [exact Hr | apply reachable_acc_ok; exact Hr].
Defined.

(** Every color command a step sends is [setToCurrentColor] of the state
    after the step. *)
Lemma step_color_command {N : Type} `{JsNumber N} `{ColorConverter N}
    (a a' : accessory) (e : event) (outs : list output) (ip setup : jsval) (c : channel_command) :
  step N a e = Some (a', outs) -> In (Exec ip (FColor setup c)) outs ->
  c = set_to_current_color N (snapshot_of a').
Proof.
  intros Hs Hin. destruct e as [v|v|v|v| | | | | |i stdout].
  10:{ unfold step in Hs. destruct (take_nth i (acc_pending a)) as [[r rest]|]; [|discriminate].
       destruct r; injection Hs as <- <-; cbn in Hin; intuition discriminate. }
  all: injection Hs as <- <-; cbn in Hin; intuition congruence.
Qed.

(** C3. Safety: every color command the accessory sends from a reachable
    state, on an event with in-range values, has channel values in
    0..255. *)
Theorem reachable_commands_in_range `{ColorConverterLaws Q}
    (a a' : accessory) (e : event) (outs : list output) (ip setup : jsval) (c : channel_command) :
  reachable a -> event_ok e = true -> step Q a e = Some (a', outs) ->
  In (Exec ip (FColor setup c)) outs -> command_in_range c = true.
Proof.
  intros Hr He Hs Hin. rewrite (step_color_command _ _ _ _ _ _ _ Hs Hin).
  pose proof (reachable_invariant a' (reachable_step _ _ _ _ Hr He Hs)) as Hok.
  unfold acc_ok in Hok. rewrite !Bool.andb_true_iff, !Z.leb_le in Hok.
  apply command_in_range_of_state; cbn; tauto.
Qed.

Example reachable_commands_in_range_witness :
  let cfg := mkConfigJson (JStr "Desk") JUndefined JUndefined (JStr "10.0.0.7") JUndefined
               JUndefined (JBool true) in
  let a := fst (new_accessory cfg) in
  reachable a /\ event_ok (SetHue 120) = true /\
  step Q a (SetHue 120) = Some (fst (set_hue Q a 120), snd (set_hue Q a 120)) /\
  command_in_range (SetAll 0 255 0 255 255) = true.
Proof.
  cbv zeta. split; [apply reachable_new | split; [reflexivity | split; [reflexivity |]]].
  apply (reachable_commands_in_range
    (fst (new_accessory (mkConfigJson (JStr "Desk") JUndefined JUndefined (JStr "10.0.0.7")
                           JUndefined JUndefined (JBool true))))
    (fst (set_hue Q (fst (new_accessory (mkConfigJson (JStr "Desk") JUndefined JUndefined
                           (JStr "10.0.0.7") JUndefined JUndefined (JBool true)))) 120))
    (SetHue 120)
    (snd (set_hue Q (fst (new_accessory (mkConfigJson (JStr "Desk") JUndefined JUndefined
                           (JStr "10.0.0.7") JUndefined JUndefined (JBool true)))) 120))
    (JStr "10.0.0.7") (JStr "RGBW")).
  - apply reachable_new.
  - reflexivity.
  - reflexivity.
  - vm_compute. left. reflexivity.
Defined.

(** ** Ordering of HomeKit updates and device replies *)

(** C21. The device's color and HomeKit's hue are written to the same
    state, and the later write wins: a [setHue] made while the
    constructor's [getColorFromDevice] is in flight is overwritten when
    the reply arrives (HomeKit then reads the device's hue), while a
    [setHue] after the reply persists. *)
Theorem color_sync_last_writer_wins {N : Type} `{JsNumber N} `{ColorConverter N}
    (a : accessory) (rest : list request) (v : Z) (stdout : string) :
  acc_pending a = ColorSync :: rest ->
  (exists a' outs, run N a [SetHue v; ExecDone 0 stdout; GetHue]
     = Some (a', outs ++ [Reply (HKNumber (hue (st_color (get_state_settings N stdout))))]))
  /\ (exists a' outs, run N a [ExecDone 0 stdout; SetHue v; GetHue]
     = Some (a', outs ++ [Reply (HKNumber v)])).
Proof.
  intros Hp. destruct a as [n st p ip c b pw ow cw pend]; cbn in Hp; subst pend.
  split; do 2 eexists; reflexivity.
Qed.

Example color_sync_last_writer_wins_witness :
  let a := fst (new_accessory (mkConfigJson JUndefined JUndefined JUndefined (JStr "10.0.0.7")
                                 JUndefined JUndefined JUndefined)) in
  acc_pending a = [ColorSync] /\
  ((exists a' outs, run Q a [SetHue 10; ExecDone 0 "[LED] ON  [Color: (255, 128, 064)]"; GetHue]
     = Some (a', outs ++ [Reply (HKNumber (hue (st_color (get_state_settings Q
                            "[LED] ON  [Color: (255, 128, 064)]"))))]))
  /\ (exists a' outs, run Q a [ExecDone 0 "[LED] ON  [Color: (255, 128, 064)]"; SetHue 10; GetHue]
     = Some (a', outs ++ [Reply (HKNumber 10)])))
  /\ hue (st_color (get_state_settings Q "[LED] ON  [Color: (255, 128, 064)]")) = 20%Z.
Proof.
  cbv zeta. split; [reflexivity|]. split; [|vm_compute; reflexivity].
  apply (color_sync_last_writer_wins _ []). reflexivity.
Defined.

(** C30. Error path: the exec's error argument is ignored.  When
    [flux_led.py] fails (its output, for instance empty, has no color
    tuple), the completion of [getColorFromDevice] still writes the
    color: the default [{255, 100, 50}] replaces the color HomeKit set,
    and nothing reports the failure. *)
Theorem failed_query_resets_color {N : Type} `{JsNumber N} `{ColorConverter N}
    (a a' : accessory) (i : nat) (rest : list request) (stdout : string) (outs : list output) :
  take_nth i (acc_pending a) = Some (ColorSync, rest) ->
  regex_exists color_pattern stdout = false ->
  step N a (ExecDone i stdout) = Some (a', outs) ->
  acc_color a' = default_color /\ acc_pending a' = rest /\ outs = [].
Proof.
  intros Ht Hc Hs. unfold step in Hs. rewrite Ht in Hs. injection Hs as <- <-.
  cbn [run_callback with_color with_pending acc_color acc_pending].
  unfold get_state_settings. rewrite Hc. auto.
Qed.

Example failed_query_resets_color_witness :
  let a := fst (set_hue Q (fst (new_accessory (mkConfigJson JUndefined JUndefined JUndefined
             (JStr "10.0.0.7") JUndefined JUndefined JUndefined))) 120) in
  take_nth 0 (acc_pending a) = Some (ColorSync, []) /\
  regex_exists color_pattern EmptyString = false /\
  step Q a (ExecDone 0 EmptyString) = Some (with_color (with_pending a []) default_color, []) /\
  hue (acc_color a) = 120%Z /\
  (acc_color (with_color (with_pending a []) default_color) = default_color
   /\ acc_pending (with_color (with_pending a []) default_color) = [] /\ @nil output = []).
Proof.
  cbv zeta. do 4 (split; [reflexivity|]).
  match goal with
  | |- acc_color (with_color (with_pending ?a _) _) = _ /\ _ =>
      apply (failed_query_resets_color a _ 0 [] EmptyString []); reflexivity
  end.
Defined.

(** C35. Ordering of exec completions: two execs in flight whose
    callbacks are not both color syncs can complete in either order;
    the accessory ends in the same state and HomeKit receives the same
    answers, in the other order.  (Two color syncs do not commute: the
    later one's color stays, see [color_sync_last_writer_wins].) *)
Theorem exec_completions_commute {N : Type} `{JsNumber N} `{ColorConverter N}
    (a : accessory) (r1 r2 : request) (rest : list request) (s1 s2 : string) :
  acc_pending a = r1 :: r2 :: rest -> (r1 <> ColorSync \/ r2 <> ColorSync) ->
  exists a' o1 o2,
    run N a [ExecDone 0 s1; ExecDone 0 s2] = Some (a', o1)
    /\ run N a [ExecDone 1 s2; ExecDone 0 s1] = Some (a', o2)
    /\ Permutation o1 o2.
Proof.
  intros Hp Hr. destruct a as [n st p ip c b pw ow cw pend]; cbn in Hp; subst pend.
  destruct r1, r2; (destruct Hr as [Hr | Hr]; [|]); try congruence;
    do 3 eexists; (split; [reflexivity | split; [reflexivity |]]); cbn;
    first [apply Permutation_refl | apply perm_swap].
Qed.

Example exec_completions_commute_witness :
  let a := fst (get_power_state (fst (new_accessory (mkConfigJson JUndefined JUndefined
              JUndefined (JStr "10.0.0.7") JUndefined JUndefined JUndefined)))) in
  acc_pending a = [ColorSync; PowerQuery] /\ (ColorSync <> ColorSync \/ PowerQuery <> ColorSync) /\
  exists a' o1 o2,
    run Q a [ExecDone 0 "[LED] ON  [Color: (255, 000, 000)]"; ExecDone 0 "[LED] OFF"] = Some (a', o1)
    /\ run Q a [ExecDone 1 "[LED] OFF"; ExecDone 0 "[LED] ON  [Color: (255, 000, 000)]"] = Some (a', o2)
    /\ Permutation o1 o2.
Proof.
  cbv zeta. split; [reflexivity|]. split; [right; discriminate|].
  apply (exec_completions_commute _ ColorSync PowerQuery []); [reflexivity | right; discriminate].
Defined.

(** ** Every request in flight is answered *)

Definition owed (r : request) : nat :=
  match r with ColorSync => 0 | PowerQuery | PowerSet => 1 end.

Definition is_reply (o : output) : bool :=
  match o with Reply _ => true | Exec _ _ => false end.

Lemma run_callback_replies {N : Type} `{ColorConverter N} (a : accessory) (r : request) (s : string) :
  acc_pending (fst (run_callback N a r s)) = acc_pending a
  /\ length (filter is_reply (snd (run_callback N a r s))) = owed r.
Proof. destruct r; split; reflexivity. Qed.

Lemma drain_answers {N : Type} `{JsNumber N} `{ColorConverter N}
    (stdouts : list string) (a : accessory) :
  length stdouts = length (acc_pending a) ->
  exists a' outs, run N a (map (ExecDone 0) stdouts) = Some (a', outs)
    /\ acc_pending a' = []
    /\ length (filter is_reply outs) = list_sum (map owed (acc_pending a)).
Proof.
  revert a. induction stdouts as [|s stdouts IH]; intros a Hlen.
  - destruct (acc_pending a) eqn:E; [|discriminate]. exists a, []. auto.
  - destruct (acc_pending a) as [|r rest] eqn:E; [discriminate|]. cbn in Hlen.
    cbn [map run step]. rewrite E. cbn [take_nth].
    destruct (run_callback_replies (with_pending a rest) r s) as [Hp Hr].
    destruct (run_callback N (with_pending a rest) r s) as [a1 outs1] eqn:Ecb.
    cbn [fst snd] in Hp, Hr.
    destruct (IH a1 ltac:(rewrite Hp; cbn; lia)) as (a' & outs & Hrun & Hnil & Hcount).
    rewrite Hrun. exists a', (outs1 ++ outs). split; [reflexivity|]. split; [exact Hnil|].
    rewrite filter_app, length_app, Hr, Hcount, Hp. reflexivity.
Qed.

(** Completions of execs, in any order: the [i]-th exec in flight
    completes with output [stdout]. *)
Definition exec_events (sched : list (nat * string)) : list event :=
  map (fun '(i, stdout) => ExecDone i stdout) sched.

Lemma exec_events_fifo (stdouts : list string) :
  exec_events (map (fun s => (0%nat, s)) stdouts) = map (ExecDone 0) stdouts.
Proof. unfold exec_events. now rewrite map_map. Qed.

Lemma take_nth_owed (i : nat) (l rest : list request) (r : request) :
  take_nth i l = Some (r, rest) -> list_sum (map owed l) = (owed r + list_sum (map owed rest))%nat.
Proof.
  revert l rest. induction i as [|i IH]; intros [|x l] rest E; cbn in E; try discriminate.
  - injection E as <- <-. reflexivity.
  - destruct (take_nth i l) as [[y r']|] eqn:Ei; cbn in E; [|discriminate].
    injection E as <- <-.
    change (list_sum (map owed (x :: l))) with (owed x + list_sum (map owed l))%nat.
    change (list_sum (map owed (x :: r'))) with (owed x + list_sum (map owed r'))%nat.
    rewrite (IH _ _ Ei). lia.
Qed.

(** Whatever exec completes, it answers HomeKit as much as its callback
    owed. *)
Lemma completions_owed {N : Type} `{JsNumber N} `{ColorConverter N}
    (sched : list (nat * string)) (a a' : accessory) (outs : list output) :
  run N a (exec_events sched) = Some (a', outs) ->
  (length (filter is_reply outs) + list_sum (map owed (acc_pending a'))
   = list_sum (map owed (acc_pending a)))%nat.
Proof.
  revert a outs. induction sched as [|[i s] sched IH]; intros a outs Hrun.
  - cbn in Hrun. injection Hrun as <- <-. reflexivity.
  - change (exec_events ((i, s) :: sched)) with (ExecDone i s :: exec_events sched) in Hrun.
    cbn [run step] in Hrun.
    destruct (take_nth i (acc_pending a)) as [[r rest]|] eqn:Ei; [|discriminate].
    destruct (run_callback_replies (with_pending a rest) r s) as [Hp Hr].
    destruct (run_callback N (with_pending a rest) r s) as [a1 outs1] eqn:Ecb.
    destruct (run N a1 (exec_events sched)) as [[a2 outs2]|] eqn:Erun; [|discriminate].
    injection Hrun as <- <-. cbn [fst snd] in Hp, Hr.
    rewrite filter_app, length_app, Hr, (take_nth_owed _ _ _ _ Ei).
    specialize (IH _ _ Erun). rewrite Hp in IH. cbn [acc_pending with_pending] in IH. lia.
Qed.

Lemma drain_completions {N : Type} `{JsNumber N} `{ColorConverter N} (a : accessory) :
  (exists sched a' outs, run N a (exec_events sched) = Some (a', outs) /\ acc_pending a' = [])
  /\ (forall sched a' outs, run N a (exec_events sched) = Some (a', outs) -> acc_pending a' = [] ->
       length (filter is_reply outs) = list_sum (map owed (acc_pending a))).
Proof.
  split.
  - destruct (drain_answers (repeat EmptyString (length (acc_pending a))) a (repeat_length _ _))
      as (a' & outs & Hrun & Hnil & _).
    exists (map (fun s => (0%nat, s)) (repeat EmptyString (length (acc_pending a)))), a', outs.
    now rewrite exec_events_fifo.
  - intros sched a' outs Hrun Hnil. pose proof (completions_owed sched a a' outs Hrun) as E.
    rewrite Hnil in E. cbn in E. lia.
Qed.

(** C22. Every request in flight is answered, in whatever order the
    execs complete: the execs can all complete (for instance in the order
    they were started), and whenever a sequence of completions, in any
    order and with any outputs, leaves no callback in flight, HomeKit
    has received exactly one answer per [getPowerState] and
    [setPowerState] that was in flight. *)
Theorem drain_pending_answers {N : Type} `{JsNumber N} `{ColorConverter N} (a : accessory) :
  (exists sched a' outs, run N a (exec_events sched) = Some (a', outs) /\ acc_pending a' = [])
  /\ (forall sched a' outs, run N a (exec_events sched) = Some (a', outs) -> acc_pending a' = [] ->
       length (filter is_reply outs) = list_sum (map owed (acc_pending a))).
Proof. apply drain_completions. Qed.

Example drain_pending_answers_witness :
  let a := fst (get_power_state (fst (new_accessory (mkConfigJson JUndefined JUndefined
              JUndefined (JStr "10.0.0.7") JUndefined JUndefined JUndefined)))) in
  run Q a (exec_events [(1%nat, "[LED] OFF"%string); (0%nat, "[LED] ON  x"%string)])
  = Some (fst (run_callback Q (with_pending a []) ColorSync "[LED] ON  x"),
          [Reply (HKBool false)]) /\
  list_sum (map owed (acc_pending a)) = 1%nat /\
  length (filter is_reply [Reply (HKBool false)]) = list_sum (map owed (acc_pending a)).
Proof.
  cbv zeta.
  match goal with
  | |- run Q ?a ?ev = Some (?a', ?o) /\ _ =>
      assert (Hr : run Q a ev = Some (a', o)) by (vm_compute; reflexivity);
      split; [exact Hr | split; [reflexivity |]];
      exact (proj2 (drain_pending_answers a) _ a' o Hr ltac:(vm_compute; reflexivity))
  end.
Defined.

(** ** Configuration values *)

(** C23. The options are read by truthiness, not as booleans: for every
    configuration of an RGBW controller (the default setup) whose
    [onlywhite] is a non-empty string, the string ["false"] included,
    the white-only mode is on: whatever brightness HomeKit sets, the
    controller receives it on the white channel only. *)
Theorem onlywhite_string_is_on {N : Type} `{JsNumber N} `{ColorConverter N}
    (cfg : config_json) (s : string) (v : Z) :
  loose_eq_string (js_or (cfg_setup cfg) (JStr "RGBW")) "RGBW" = true ->
  cfg_onlywhite cfg = JStr s -> s <> EmptyString ->
  snd (set_brightness N (fst (new_accessory cfg)) v)
  = [Exec (cfg_ip cfg) (FColor (js_or (cfg_setup cfg) (JStr "RGBW")) (SetAll 0 0 0 (white_level v) 0));
     Reply HKDone].
Proof.
  intros Hsetup Hs Hne. destruct s as [|c s]; [contradiction|].
  unfold set_brightness, set_and_render, set_to_current_color_effect, new_accessory,
    get_color_from_device, send_command, set_to_current_color.
  cbn [fst snd acc_ip acc_setup acc_onlywhite with_pending with_brightness snapshot_of
       sn_setup sn_onlywhite sn_brightness acc_brightness app].
  rewrite Hsetup, Hs. reflexivity.
Qed.

Example onlywhite_string_is_on_witness :
  let cfg := mkConfigJson JUndefined JUndefined JUndefined (JStr "10.0.0.7") JUndefined
               (JStr "false") JUndefined in
  loose_eq_string (js_or (cfg_setup cfg) (JStr "RGBW")) "RGBW" = true /\
  cfg_onlywhite cfg = JStr "false" /\ "false"%string <> EmptyString /\
  snd (set_brightness Q (fst (new_accessory cfg)) 50)
  = [Exec (cfg_ip cfg) (FColor (js_or (cfg_setup cfg) (JStr "RGBW")) (SetAll 0 0 0 (white_level (N:=Q) 50) 0));
     Reply HKDone].
Proof.
  cbv zeta. split; [reflexivity | split; [reflexivity | split; [discriminate |]]].
  apply (onlywhite_string_is_on _ "false"); [reflexivity | reflexivity | discriminate].
Defined.
