(* ===== verification/Services.v ===== *)
(** * [getServices]: the HomeKit services and their handlers

    [MagicHomeAccessory.prototype.getServices] (src/index.js) builds two
    HAP services: an AccessoryInformation service with three fixed
    strings, and a Lightbulb service named after the accessory whose
    characteristics On, Hue, Saturation and Brightness have [get] and
    [set] handlers bound to the object's methods.  [get_services] is that
    table; a HomeKit read or write of a characteristic is routed through
    it to the bound handler ([homekit_request]), which runs as the
    accessory's [step].  HAP-NodeJS checks a written value against the
    characteristic's format before it calls the handler: a value of the
    wrong type never reaches the plugin ([None]). *)

From Stdlib Require Import ZArith QArith String List Lia.
From S2P Require Import Prelude JsNumber ColorConvert ChannelMapper DeviceState Accessory.
Import ListNotations.

Inductive characteristic :=
| Manufacturer | Model | SerialNumber | On | Hue | Saturation | Brightness.

Definition characteristic_eqb (c d : characteristic) : bool :=
  match c, d with
  | Manufacturer, Manufacturer | Model, Model | SerialNumber, SerialNumber
  | On, On | Hue, Hue | Saturation, Saturation | Brightness, Brightness => true
  | _, _ => false
  end.

(** The methods [getServices] binds with [.on('get'|'set', ...)]. *)
Inductive handler :=
| HGetPowerState | HSetPowerState | HGetHue | HSetHue
| HGetSaturation | HSetSaturation | HGetBrightness | HSetBrightness.

(** One characteristic of a service: a value fixed by
    [setCharacteristic], or the handlers bound to it. *)
Record binding := mkBinding {
  bd_char : characteristic;
  bd_value : option string;
  bd_get : option handler;
  bd_set : option handler
}.

Inductive service_type := AccessoryInformation | Lightbulb.

Definition service_type_eqb (s t : service_type) : bool :=
  match s, t with
  | AccessoryInformation, AccessoryInformation | Lightbulb, Lightbulb => true
  | _, _ => false
  end.

Record service := mkService {
  sv_type : service_type;
  sv_name : option jsval;
  sv_chars : list binding
}.

(** [getServices]: [[informationService, lightbulbService]]. *)
Definition get_services (a : accessory) : list service :=
  [mkService AccessoryInformation None
     [mkBinding Manufacturer (Some "ACME Ltd."%string) None None;
      mkBinding Model (Some "LED-controller"%string) None None;
      mkBinding SerialNumber (Some "123456789"%string) None None];
   mkService Lightbulb (Some (acc_name a))
     [mkBinding On None (Some HGetPowerState) (Some HSetPowerState);
      mkBinding Hue None (Some HGetHue) (Some HSetHue);
      mkBinding Saturation None (Some HGetSaturation) (Some HSetSaturation);
      mkBinding Brightness None (Some HGetBrightness) (Some HSetBrightness)]].

(** The characteristic [c] of the service of type [t]. *)
Definition find_binding (svcs : list service) (t : service_type) (c : characteristic)
    : option binding :=
  match find (fun sv => service_type_eqb (sv_type sv) t) svcs with
  | Some sv => find (fun b => characteristic_eqb (bd_char b) c) (sv_chars sv)
  | None => None
  end.

(** Values HomeKit writes: a boolean or a number (controllers write
    On as [true]/[false] or as [1]/[0]). *)
Inductive hk_value := HVBool (b : bool) | HVNum (z : Z).

(** [value ? ... : ...] in [setPowerState]: JavaScript truthiness. *)
Definition hk_truthy (v : hk_value) : bool :=
  match v with
  | HVBool b => b
  | HVNum z => negb (z =? 0)%Z
  end.

(** The handler's call as an event of the accessory. *)
Definition get_event (h : handler) : option event :=
  match h with
  | HGetPowerState => Some GetPower
  | HGetHue => Some GetHue
  | HGetSaturation => Some GetSaturation
  | HGetBrightness => Some GetBrightness
  | _ => None
  end.

Definition set_event (h : handler) (v : hk_value) : option event :=
  match h, v with
  | HSetPowerState, v => Some (SetPower (hk_truthy v))
  | HSetHue, HVNum z => Some (SetHue z)
  | HSetSaturation, HVNum z => Some (SetSaturation z)
  | HSetBrightness, HVNum z => Some (SetBrightness z)
  | _, _ => None
  end.

(** A request of the HomeKit controller to the Lightbulb service. *)
Inductive hk_request :=
| HKRead (c : characteristic)
| HKWrite (c : characteristic) (v : hk_value)
| HKIdentify.

(** The event a request causes: the handler bound to the characteristic
    in [getServices]'s table, or [identify]. *)
Definition request_event (a : accessory) (r : hk_request) : option event :=
  match r with
  | HKRead c =>
      match find_binding (get_services a) Lightbulb c with
      | Some b => match bd_get b with Some h => get_event h | None => None end
      | None => None
      end
  | HKWrite c v =>
      match find_binding (get_services a) Lightbulb c with
      | Some b => match bd_set b with Some h => set_event h v | None => None end
      | None => None
      end
  | HKIdentify => Some Identify
  end.

(** The requests HAP-NodeJS delivers to a Lightbulb service, from the
    characteristics' permissions and formats: reads of On, Hue,
    Saturation and Brightness, writes of On (a boolean, or a number
    some controllers send) and numeric writes of the other three, and
    identify. *)
Definition lightbulb_request (r : hk_request) : bool :=
  match r with
  | HKRead (On | Hue | Saturation | Brightness) => true
  | HKWrite On _ => true
  | HKWrite (Hue | Saturation | Brightness) (HVNum _) => true
  | HKIdentify => true
  | _ => false
  end.

Section Requests.
Context {N : Type} `{JsNumber N} `{ColorConverter N}.

Definition homekit_request (a : accessory) (r : hk_request) : option (accessory * list output) :=
  match request_event a r with
  | Some e => step N a e
  | None => None
  end.

(** HomeKit's requests and the completions of execs, interleaved. *)
Inductive input := FromHomeKit (r : hk_request) | FromExec (i : nat) (stdout : string).

Definition input_event (a : accessory) (x : input) : option event :=
  match x with
  | FromHomeKit r => request_event a r
  | FromExec i stdout => Some (ExecDone i stdout)
  end.

Fixpoint run_inputs (a : accessory) (xs : list input) : option (accessory * list output) :=
  match xs with
  | [] => Some (a, [])
  | x :: xs' =>
      match input_event a x with
      | Some e =>
          match step N a e with
          | Some (a', outs) =>
              match run_inputs a' xs' with
              | Some (a'', outs') => Some (a'', outs ++ outs')
              | None => None
              end
          | None => None
          end
      | None => None
      end
  end.
End Requests.

Arguments homekit_request N {_ _} a r.
Arguments run_inputs N {_ _} a xs.

(** ** Routing *)

(** [getServices] binds a handler to every request HAP delivers. *)
Lemma lightbulb_routed (a : accessory) (r : hk_request) :
  lightbulb_request r = true -> exists e, request_event a r = Some e.
Proof.
  destruct r as [c|c v|]; [destruct c | destruct c, v |]; cbn; intros H;
    try discriminate; eexists; reflexivity.
Qed.

(** Every request routed to a handler makes a step: the handlers are
    total. *)
Lemma request_event_step {N : Type} `{JsNumber N} `{ColorConverter N}
    (a : accessory) (r : hk_request) (e : event) :
  request_event a r = Some e -> exists a' outs, step N a e = Some (a', outs).
Proof.
  intros Hr. destruct r as [c|c v|]; [destruct c | destruct c, v |]; cbn in Hr;
    try discriminate; injection Hr as <-; do 2 eexists; reflexivity.
Qed.

(** A routed request answers HomeKit now, or leaves one callback in
    flight that will. *)
Lemma request_owes_one {N : Type} `{JsNumber N} `{ColorConverter N}
    (a a' : accessory) (r : hk_request) (e : event) (outs : list output) :
  request_event a r = Some e -> step N a e = Some (a', outs) ->
  (length (filter is_reply outs) + list_sum (map owed (acc_pending a'))
   = S (list_sum (map owed (acc_pending a))))%nat.
Proof.
  intros Hr Hs. destruct a as [n st p ip col b pw ow cw pend].
  destruct r as [c|c v|]; [destruct c | destruct c, v |]; cbn in Hr;
    try discriminate; injection Hr as <-; injection Hs as <- <-; cbn;
    rewrite ?map_app, ?list_sum_app; cbn; unfold list_sum; lia.
Qed.

(** C25. Liveness: every request HAP delivers to the Lightbulb service
    reaches a handler [getServices] bound to it, and, whatever order the
    execs in flight complete in, once none is left HomeKit has received
    exactly one answer for it (besides one per power request that was
    already in flight); completing them all is always possible. *)
Theorem homekit_request_answered_once {N : Type} `{JsNumber N} `{ColorConverter N}
    (a : accessory) (r : hk_request) :
  lightbulb_request r = true ->
  exists a1 outs1, homekit_request N a r = Some (a1, outs1) /\
    (exists sched a2 outs2, run N a1 (exec_events sched) = Some (a2, outs2) /\ acc_pending a2 = []) /\
    (forall sched a2 outs2, run N a1 (exec_events sched) = Some (a2, outs2) -> acc_pending a2 = [] ->
       length (filter is_reply (outs1 ++ outs2)) = S (list_sum (map owed (acc_pending a)))).
Proof.
  intros Hr. unfold homekit_request.
  destruct (lightbulb_routed a r Hr) as [e He]. rewrite He.
  destruct (request_event_step a r e He) as (a1 & outs1 & Hs).
  exists a1, outs1. split; [exact Hs|].
  destruct (drain_completions a1) as [Hex Hall]. split; [exact Hex|].
  intros sched a2 outs2 Hrun Hnil.
  rewrite filter_app, length_app, (Hall sched a2 outs2 Hrun Hnil).
  exact (request_owes_one a a1 r e outs1 He Hs).
Qed.

Example homekit_request_answered_once_witness :
  let a := fst (new_accessory (mkConfigJson JUndefined JUndefined JUndefined (JStr "10.0.0.7")
                                 JUndefined JUndefined JUndefined)) in
  lightbulb_request (HKWrite Hue (HVNum 120)) = true /\
  exists a1 outs1, homekit_request Q a (HKWrite Hue (HVNum 120)) = Some (a1, outs1) /\
    (exists sched a2 outs2, run Q a1 (exec_events sched) = Some (a2, outs2) /\ acc_pending a2 = []) /\
    (forall sched a2 outs2, run Q a1 (exec_events sched) = Some (a2, outs2) -> acc_pending a2 = [] ->
       length (filter is_reply (outs1 ++ outs2)) = S (list_sum (map owed (acc_pending a)))).
Proof.
  cbv zeta. split; [reflexivity|]. apply homekit_request_answered_once. reflexivity.
Defined.

(** C26. Round trip through the wiring: a value HomeKit writes to Hue,
    Saturation or Brightness is the value it reads back next. *)
Theorem write_read_roundtrip {N : Type} `{JsNumber N} `{ColorConverter N}
    (a : accessory) (c : characteristic) (v : Z) :
  In c [Hue; Saturation; Brightness] ->
  exists a' outs,
    run_inputs N a [FromHomeKit (HKWrite c (HVNum v)); FromHomeKit (HKRead c)]
    = Some (a', outs ++ [Reply (HKNumber v)]).
Proof.
  intros Hin. destruct a as [n st p ip col b pw ow cw pend].
  destruct c; cbn in Hin; intuition discriminate || (do 2 eexists; reflexivity).
Qed.

Example write_read_roundtrip_witness :
  let a := fst (new_accessory (mkConfigJson JUndefined JUndefined JUndefined (JStr "10.0.0.7")
                                 JUndefined JUndefined JUndefined)) in
  In Saturation [Hue; Saturation; Brightness] /\
  exists a' outs,
    run_inputs Q a [FromHomeKit (HKWrite Saturation (HVNum 40)); FromHomeKit (HKRead Saturation)]
    = Some (a', outs ++ [Reply (HKNumber 40)]).
Proof.
  cbv zeta. split; [cbn; tauto|]. apply write_read_roundtrip. cbn; tauto.
Defined.

(** C27. The On characteristic is not kept by the plugin: a read runs
    [flux_led.py -i] and answers with what the device prints.  When
    HomeKit writes On and then reads it, and the read's exec completes
    before the write's, the answer is the device's state before the
    write, whatever value was written. *)
Theorem on_read_overtakes_write {N : Type} `{JsNumber N} `{ColorConverter N}
    (a : accessory) (b : bool) (stdout : string) :
  acc_pending a = [] ->
  run_inputs N a [FromHomeKit (HKWrite On (HVBool b)); FromHomeKit (HKRead On); FromExec 1 stdout]
  = Some (with_pending a [PowerSet],
          [Exec (acc_ip a) (FPower b); Exec (acc_ip a) FInfo;
           Reply (HKBool (st_on (get_state_settings N stdout)))]).
Proof.
  intros Hp. destruct a as [n st p ip col br pw ow cw pend]; cbn in Hp; subst pend.
  reflexivity.
Qed.

Example on_read_overtakes_write_witness :
  let a := fst (new_accessory (mkConfigJson JUndefined JUndefined JUndefined (JStr "10.0.0.7")
                                 JUndefined JUndefined JUndefined)) in
  let a0 := fst (run_callback Q (with_pending a []) ColorSync "[LED] OFF") in
  acc_pending a0 = [] /\
  run_inputs Q a0 [FromHomeKit (HKWrite On (HVBool true)); FromHomeKit (HKRead On);
                   FromExec 1 "[LED] OFF"]
  = Some (with_pending a0 [PowerSet],
          [Exec (acc_ip a0) (FPower true); Exec (acc_ip a0) FInfo;
           Reply (HKBool (st_on (get_state_settings Q "[LED] OFF")))])
  /\ st_on (get_state_settings Q "[LED] OFF") = false.
Proof.
  cbv zeta. split; [reflexivity|]. split; [|vm_compute; reflexivity].
  apply on_read_overtakes_write. reflexivity.
Defined.
