(* ===== verification/System.v ===== *)
(** * The plugin in Homebridge: registration and the path of a request

    [module.exports] (src/index.js) is called by Homebridge with its API
    object: it keeps the HAP classes [Service] and [Characteristic] (used
    by [getServices], see [Services]) and registers one accessory type,
    ['MagicHome'] of the plugin ['homebridge-magichome'], whose
    constructor is [MagicHomeAccessory]; the last argument [false] says
    it is not a dynamic platform.  Homebridge then builds an accessory
    from each configuration entry of that type.  [plugin_registration]
    is what the call leaves with Homebridge (the log line it prints is
    not modelled).

    This file composes the components: an accessory built through the
    registration from a configuration of the spec ([json_of_config]),
    after any sequence of HomeKit handlers and exec completions
    ([configured]), keeps its configuration, and every color command a
    HomeKit request makes it send refines, in binary64, the spec's policy
    table ([spec_compute], [spec_compute_down]) for the state the request
    leaves; a brightness above HomeKit's range is not clamped. *)

From Stdlib Require Import ZArith QArith String List Lia PrimFloat.
From S2P Require Import Prelude JsNumber ColorConvert ChannelMapper Binary64 DeviceState Accessory Services.
Import ListNotations.

(** What [module.exports(homebridge)] leaves with Homebridge: the
    plugin and accessory names, the constructor, and the dynamic flag. *)
Record registration := mkRegistration {
  reg_plugin : string;
  reg_accessory : string;
  reg_constructor : config_json -> accessory * list output;
  reg_dynamic : bool
}.

(** [homebridge.registerAccessory('homebridge-magichome', 'MagicHome',
    MagicHomeAccessory, false)]. *)
Definition plugin_registration : registration :=
  mkRegistration "homebridge-magichome" "MagicHome" new_accessory false.

(** The configuration entry of a spec configuration: the setup as a
    string, the three options as booleans, the controller's address. *)
Definition json_of_config (c : config) (ip : string) : config_json :=
  mkConfigJson JUndefined (JStr (setup_name (setup c))) JUndefined (JStr ip)
    (JBool (purewhite c)) (JBool (onlywhite c)) (JBool (combinedwhite c)).

Section Configured.
Context {N : Type} `{JsNumber N} `{ColorConverter N}.

(** The accessories Homebridge holds for that entry: the one the
    registered constructor builds, and every state it reaches through
    HomeKit's handlers and the completions of its execs. *)
Inductive configured (c : config) (ip : string) : accessory -> Prop :=
| configured_new : configured c ip (fst (reg_constructor plugin_registration (json_of_config c ip)))
| configured_step (a a' : accessory) (e : event) (outs : list output) :
    configured c ip a -> step N a e = Some (a', outs) -> configured c ip a'.
End Configured.

Arguments configured N {_ _} c ip _.

(** The configuration fields of an accessory. *)
Definition options_of (a : accessory) : jsval * jsval * jsval * jsval * jsval :=
  (acc_setup a, acc_onlywhite a, acc_combinedwhite a, acc_purewhite a, acc_ip a).

(** The fields a spec configuration and an address give. *)
Definition config_options (c : config) (ip : string) : jsval * jsval * jsval * jsval * jsval :=
  (JStr (setup_name (setup c)), JBool (onlywhite c), JBool (combinedwhite c),
   JBool (purewhite c), JStr ip).

(** ** The configuration is kept *)

Lemma step_options {N : Type} `{JsNumber N} `{ColorConverter N}
    (a a' : accessory) (e : event) (outs : list output) :
  step N a e = Some (a', outs) -> options_of a' = options_of a.
Proof.
  intros Hs. destruct e as [v|v|v|v| | | | | |i stdout].
  10:{ unfold step in Hs. destruct (take_nth i (acc_pending a)) as [[r rest]|]; [|discriminate].
       destruct r; injection Hs as <- <-; reflexivity. }
  all: injection Hs as <- <-; reflexivity.
Qed.

Lemma constructor_options (c : config) (ip : string) :
  options_of (fst (reg_constructor plugin_registration (json_of_config c ip))) = config_options c ip.
Proof. destruct c as [[] [] [] []]; reflexivity. Qed.

Lemma configured_options_eq {N : Type} `{JsNumber N} `{ColorConverter N}
    (c : config) (ip : string) (a : accessory) :
  configured N c ip a -> options_of a = config_options c ip.
Proof.
  induction 1 as [| a a' e outs _ IH Hs]; [apply constructor_options|].
  rewrite <- IH. exact (step_options a a' e outs Hs).
Qed.

Lemma configured_snapshot {N : Type} `{JsNumber N} `{ColorConverter N}
    (c : config) (ip : string) (a : accessory) :
  configured N c ip a -> snapshot_of a = config_snapshot c (acc_color a) (acc_brightness a).
Proof.
  intros Hc. apply configured_options_eq in Hc.
  destruct a; unfold options_of, config_options in Hc; cbn in Hc.
  injection Hc as -> -> -> -> _. reflexivity.
Qed.

(** ** The whole path of a request *)

(** C32. Refinement of the whole plugin, in binary64: for an accessory
    Homebridge built through the registration from a configuration of
    the spec, after any HomeKit handlers and exec completions, every
    color command a HomeKit request makes it send goes to the configured
    address with the configured setup name, and is the spec's policy
    command for the color and brightness the request leaves (when the
    brightness is in HomeKit's range and the color renders in 0..255),
    each channel rounded as the spec rounds, or one less at an exact
    half; the accessory stays one of that configuration's. *)
Theorem homekit_command_refines `{ColorConverter float} (c : config) (ip : string)
    (a a' : accessory) (r : hk_request) (outs : list output)
    (ip' setup' : jsval) (cmd : channel_command) :
  configured float c ip a -> homekit_request float a r = Some (a', outs) ->
  In (Exec ip' (FColor setup' cmd)) outs ->
  (0 <= acc_brightness a' <= 100)%Z -> rgb_in_range (cc_hsl_rgb (acc_color a')) = true ->
  configured float c ip a' /\ ip' = JStr ip /\ setup' = JStr (setup_name (setup c))
  /\ command_between (to_wire (spec_compute_down cc_hsl_rgb c (acc_color a') (acc_brightness a')))
       cmd (to_wire (spec_compute cc_hsl_rgb c (acc_color a') (acc_brightness a'))) = true.
Proof.
  intros Hc Hr Hin Hb Hrgb. unfold homekit_request in Hr.
  destruct (request_event a r) as [e|]; [|discriminate].
  assert (Hc' : configured float c ip a') by (eapply configured_step; eassumption).
  assert (Hx : ip' = acc_ip a' /\ setup' = acc_setup a'
               /\ cmd = set_to_current_color float (snapshot_of a')).
  { destruct e as [v|v|v|v| | | | | |i stdout].
    10:{ unfold step in Hr. destruct (take_nth i (acc_pending a)) as [[q rest]|]; [|discriminate].
         destruct q; injection Hr as <- <-; cbn in Hin; intuition discriminate. }
    all: injection Hr as <- <-; cbn in Hin |- *; intuition congruence. }
  destruct Hx as (-> & -> & ->).
  pose proof (configured_options_eq _ _ _ Hc') as Ho. unfold options_of, config_options in Ho.
  injection Ho as Hs _ _ _ Hip.
  rewrite (configured_snapshot _ _ _ Hc'). repeat split; try assumption.
  now apply set_to_current_color_f64_spec.
Qed.

Example homekit_command_refines_witness :
  let c := mkConfig RGBWW true false false in
  let a := fst (reg_constructor plugin_registration (json_of_config c "10.0.0.7")) in
  configured float c "10.0.0.7" a /\
  homekit_request float a (HKWrite Brightness (HVNum 50))
  = Some (fst (set_brightness float a 50), snd (set_brightness float a 50)) /\
  In (Exec (JStr "10.0.0.7") (FColor (JStr "RGBWW") (SetAll 0 0 0 0 127)))
    (snd (set_brightness float a 50)) /\
  (0 <= acc_brightness (fst (set_brightness float a 50)) <= 100)%Z /\
  rgb_in_range (cc_hsl_rgb (N:=float) (acc_color (fst (set_brightness float a 50)))) = true /\
  command_between
    (to_wire (spec_compute_down (cc_hsl_rgb (N:=float)) c (acc_color (fst (set_brightness float a 50)))
                (acc_brightness (fst (set_brightness float a 50)))))
    (SetAll 0 0 0 0 127)
    (to_wire (spec_compute (cc_hsl_rgb (N:=float)) c (acc_color (fst (set_brightness float a 50)))
                (acc_brightness (fst (set_brightness float a 50))))) = true.
Proof.
  cbv zeta.
  match goal with
  | |- configured float ?c ?ip ?a /\ homekit_request float _ ?r = Some (?a', ?outs) /\ In ?o _ /\ _ =>
      assert (Hr : homekit_request float a r = Some (a', outs)) by (vm_compute; reflexivity);
      assert (Hin : In o outs) by (vm_compute; left; reflexivity);
      assert (Hb : (0 <= acc_brightness a' <= 100)%Z) by (vm_compute; split; discriminate);
      assert (Hrgb : rgb_in_range (cc_hsl_rgb (N:=float) (acc_color a')) = true)
        by (vm_compute; reflexivity);
      split; [apply configured_new | split; [exact Hr | split; [exact Hin | split; [exact Hb |
        split; [exact Hrgb |]]]]];
      exact (proj2 (proj2 (proj2 (@homekit_command_refines (color_convert float)
               c ip a a' r outs _ _ _ (configured_new _ _) Hr Hin Hb Hrgb))))
  end.
Defined.

(** C33. Invariant: whatever HomeKit and the device do, an accessory
    keeps the setup, the three options and the address of the
    configuration entry it was built from. *)
Theorem configured_keeps_options {N : Type} `{JsNumber N} `{ColorConverter N}
    (c : config) (ip : string) (a : accessory) :
  configured N c ip a -> options_of a = config_options c ip.
Proof. apply configured_options_eq. Qed.

Example configured_keeps_options_witness :
  let c := mkConfig RGB false true false in
  let a := fst (reg_constructor plugin_registration (json_of_config c "10.0.0.7")) in
  configured Q c "10.0.0.7" (fst (set_hue Q a 120)) /\
  options_of (fst (set_hue Q a 120)) = config_options c "10.0.0.7".
Proof.
  cbv zeta.
  match goal with
  | |- configured Q ?c ?ip (fst (set_hue Q ?a 120)) /\ _ =>
      assert (Hs : step Q a (SetHue 120) = Some (fst (set_hue Q a 120), snd (set_hue Q a 120)))
        by (vm_compute; reflexivity);
      assert (H : configured Q c ip (fst (set_hue Q a 120)))
        by exact (configured_step _ _ _ _ (SetHue 120) _ (configured_new _ _) Hs);
      split; [exact H | exact (configured_keeps_options c ip _ H)]
  end.
Defined.

Lemma spec_white_over (v : Z) : (100 < v)%Z -> (255 < spec_white v)%Z.
Proof.
  intros Hv. unfold spec_white, round_div.
  enough (256 <= (v * 255 * 2 + 100) / (100 * 2))%Z by lia.
  apply Z.div_le_lower_bound; lia.
Qed.

Lemma channel_ok_over (v : Z) : (255 < v)%Z -> channel_ok v = false.
Proof. intros Hv. unfold channel_ok. rewrite (proj2 (Z.leb_gt v 255) Hv). apply Bool.andb_false_r. Qed.

(** C34. Out-of-range values are not clamped: the spec asks the core to
    clamp a brightness beyond 0..100 at the boundary, while for every
    configured accessory [setBrightness] stores a brightness above 100 as
    given, and whenever the policy drives a white channel by the
    brightness (RGBW onlywhite, combinedwhite, purewhite), the command
    sent carries a channel level above 255 (exact arithmetic). *)
Theorem brightness_beyond_range_not_clamped `{ColorConverter Q} (c : config) (ip : string)
    (a : accessory) (v : Z) :
  configured Q c ip a -> (100 < v)%Z ->
  spec_policy c (acc_color a) <> OnlyWhiteRGBWW -> spec_policy c (acc_color a) <> ColorOnly ->
  exists cmd, set_brightness Q a v
    = (with_brightness a v, [Exec (JStr ip) (FColor (JStr (setup_name (setup c))) cmd); Reply HKDone])
    /\ command_in_range cmd = false.
Proof.
  intros Hc Hv H1 H2.
  assert (Hc' : configured Q c ip (with_brightness a v))
    by exact (configured_step _ _ a _ (SetBrightness v) _ Hc eq_refl).
  pose proof (configured_options_eq _ _ _ Hc) as Ho. unfold options_of, config_options in Ho.
  injection Ho as Hs _ _ _ Hip.
  exists (set_to_current_color Q (snapshot_of (with_brightness a v))). split.
  - unfold set_brightness, set_and_render, set_to_current_color_effect, send_command.
    cbn [acc_ip acc_setup with_brightness]. now rewrite Hs, Hip.
  - rewrite (configured_snapshot _ _ _ Hc'), set_to_current_color_spec.
    unfold spec_compute, spec_table. cbn [acc_color acc_brightness with_brightness].
    pose proof (channel_ok_over _ (spec_white_over v Hv)) as Hw.
    destruct (spec_policy c (acc_color a)); try congruence; cbn [to_wire command_in_range];
      rewrite Hw; now rewrite ?Bool.andb_false_r.
Qed.

Example brightness_beyond_range_not_clamped_witness :
  let c := mkConfig RGBW false true false in
  let a := fst (reg_constructor plugin_registration (json_of_config c "10.0.0.7")) in
  configured Q c "10.0.0.7" a /\ (100 < 150)%Z /\
  spec_policy c (acc_color a) <> OnlyWhiteRGBWW /\ spec_policy c (acc_color a) <> ColorOnly /\
  exists cmd, set_brightness Q a 150
    = (with_brightness a 150, [Exec (JStr "10.0.0.7") (FColor (JStr "RGBW") cmd); Reply HKDone])
    /\ command_in_range cmd = false.
Proof.
  cbv zeta. split; [apply configured_new | split; [lia | split; [discriminate | split; [discriminate |]]]].
  exact (brightness_beyond_range_not_clamped (mkConfig RGBW false true false) "10.0.0.7" _ 150
           (configured_new _ _) ltac:(lia) ltac:(discriminate) ltac:(discriminate)).
Defined.
