(* ===== verification/Wire.v ===== *)
(** * The command line: what the shell and [flux_led.py] receive

    [sendCommand] (src/index.js) builds
    [__dirname + '/flux_led.py ' + this.ip + ' ' + command] and hands it
    to [child_process.exec], which runs it with [/bin/sh -c]: the shell
    splits the line into words at spaces, and [flux_led.py] reads its
    options from those words.  [shell_words] is that splitting for lines
    made of characters the shell passes through unchanged ([plain_char]);
    [decode_argv] reads the words back as the command [flux_led.py] is
    asked to run ([-x <setup> -V r,g,b,ww,cw], [-x <setup> -c r,g,b],
    [-i], [--on], [--off], [-w <n>]).  The script itself is not part of
    the repository: the decoder states what the plugin's command lines
    mean, and the round trip shows every command survives the line
    intact, when the configured values are plain words. *)

From Stdlib Require Import ZArith String Ascii List Lia DecimalString DecimalZ DecimalPos.
From S2P Require Import Prelude ChannelMapper Accessory.
Import ListNotations.
Local Open Scope bool_scope.

(** ** Splitting *)

(** The fields of [s] between the separators [sep]. *)
Fixpoint split_on (sep : ascii) (s : string) : list string :=
  match s with
  | EmptyString => [EmptyString]
  | String c s' =>
      if Ascii.eqb c sep then EmptyString :: split_on sep s'
      else match split_on sep s' with
           | w :: ws => String c w :: ws
           | [] => [String c EmptyString]
           end
  end.

Definition is_digit_char (c : ascii) : bool :=
  (48 <=? nat_of_ascii c)%nat && (nat_of_ascii c <=? 57)%nat.

Definition is_lower (c : ascii) : bool :=
  (97 <=? nat_of_ascii c)%nat && (nat_of_ascii c <=? 122)%nat.

(** Characters [/bin/sh] gives no meaning to inside a word. *)
Definition plain_char (c : ascii) : bool :=
  is_digit_char c || is_upper c || is_lower c
  || existsb (Ascii.eqb c) ["."; "-"; "_"; "/"; ":"; ","; "+"; "@"]%char.

Definition plain_word (w : string) : bool :=
  negb (String.eqb w EmptyString) && all_chars plain_char w.

(** [/bin/sh]'s field splitting of a line of plain words separated by
    spaces. *)
Definition shell_words (line : string) : list string :=
  filter (fun w => negb (String.eqb w EmptyString)) (split_on " "%char line).

(** ** Decoding *)

(** A decimal integer, optionally negative. *)
Definition decode_int (w : string) : option Z :=
  option_map Z.of_int (NilZero.int_of_string w).

Fixpoint decode_values (ws : list string) : option (list Z) :=
  match ws with
  | [] => Some []
  | w :: ws' =>
      match decode_int w, decode_values ws' with
      | Some v, Some vs => Some (v :: vs)
      | _, _ => None
      end
  end.

(** The options after the address. *)
Definition decode_args (args : list string) : option flux_command :=
  match args with
  | [x; setup; String d (String k vs)] =>
      if String.eqb x "-x" && Ascii.eqb d "-"%char then
        match decode_values (split_on ","%char vs) with
        | Some [r; g; b; ww; cw] =>
            if Ascii.eqb k "V"%char then Some (FColor (JStr setup) (SetAll r g b ww cw)) else None
        | Some [r; g; b] =>
            if Ascii.eqb k "c"%char then Some (FColor (JStr setup) (SetRGB r g b)) else None
        | _ => None
        end
      else None
  | [w; n] => if String.eqb w "-w" then option_map FWarmWhite (decode_int n) else None
  | [w] =>
      if String.eqb w "-i" then Some FInfo
      else if String.eqb w "--on" then Some (FPower true)
      else if String.eqb w "--off" then Some (FPower false)
      else None
  | _ => None
  end.

(** The program, the address and the command of a command line's
    words. *)
Definition decode_argv (argv : list string) : option (string * string * flux_command) :=
  match argv with
  | prog :: ip :: args => option_map (fun c => (prog, ip, c)) (decode_args args)
  | _ => None
  end.

(** The command as it reads on the line: the setup as its text. *)
Definition wire_form (c : flux_command) : flux_command :=
  match c with
  | FColor setup cmd => FColor (JStr (js_to_string setup)) cmd
  | _ => c
  end.

(** The configured text a command carries. *)
Definition setup_plain (c : flux_command) : bool :=
  match c with
  | FColor setup _ => plain_word (js_to_string setup)
  | _ => true
  end.

(** ** Strings and fields *)

Lemma string_app_assoc (a b c : string) : ((a ++ b) ++ c = a ++ (b ++ c))%string.
Proof. induction a as [|x a IH]; cbn; congruence. Qed.

Lemma all_chars_impl (f g : ascii -> bool) (s : string) :
  (forall c, f c = true -> g c = true) -> all_chars f s = true -> all_chars g s = true.
Proof.
  intros Hfg. induction s as [|c s IH]; cbn; [reflexivity|].
  rewrite !Bool.andb_true_iff. intros [Hc Hs]. auto.
Qed.

Lemma split_on_nonnil (sep : ascii) (s : string) : split_on sep s <> [].
Proof.
  induction s as [|c s IH]; cbn; [discriminate|].
  destruct (Ascii.eqb c sep); [discriminate|]. destruct (split_on sep s); [contradiction | discriminate].
Qed.

(** A separator ends the last field of what precedes it. *)
Lemma split_on_app (sep : ascii) (a b : string) :
  split_on sep (a ++ String sep b) = split_on sep a ++ split_on sep b.
Proof.
  induction a as [|c a IH]; cbn.
  - now rewrite Ascii.eqb_refl.
  - rewrite IH. destruct (Ascii.eqb c sep); [reflexivity|].
    destruct (split_on sep a) eqn:E; [now apply split_on_nonnil in E | reflexivity].
Qed.

Lemma split_on_none (sep : ascii) (a : string) :
  all_chars (fun c => negb (Ascii.eqb c sep)) a = true -> split_on sep a = [a].
Proof.
  induction a as [|c a IH]; cbn; [reflexivity|].
  rewrite Bool.andb_true_iff, Bool.negb_true_iff. intros [Hc Ha]. now rewrite Hc, IH.
Qed.

Lemma plain_char_not_space (c : ascii) : plain_char c = true -> negb (Ascii.eqb c " "%char) = true.
Proof. destruct (Ascii.eqb_spec c " "%char) as [->|]; [discriminate | reflexivity]. Qed.

Lemma shell_words_app (a b : string) :
  shell_words (a ++ String " "%char b) = shell_words a ++ shell_words b.
Proof. unfold shell_words. now rewrite split_on_app, filter_app. Qed.

Lemma shell_words_plain (w : string) : plain_word w = true -> shell_words w = [w].
Proof.
  unfold plain_word, shell_words. rewrite Bool.andb_true_iff. intros [Hne Hw].
  rewrite split_on_none by exact (all_chars_impl _ _ w plain_char_not_space Hw).
  cbn. now rewrite Hne.
Qed.

(** ** Numbers *)

Lemma string_of_uint_digits (u : Decimal.uint) :
  all_chars is_digit_char (NilEmpty.string_of_uint u) = true.
Proof. induction u; cbn; auto. Qed.

Lemma Z_to_string_chars (z : Z) :
  all_chars (fun c => is_digit_char c || Ascii.eqb c "-"%char) (Z_to_string z) = true
  /\ Z_to_string z <> EmptyString.
Proof.
  assert (Hu : forall u, all_chars (fun c => is_digit_char c || Ascii.eqb c "-"%char)
                           (NilZero.string_of_uint u) = true /\ NilZero.string_of_uint u <> EmptyString).
  { intros u. destruct u; (split; [|discriminate]); try reflexivity;
      refine (all_chars_impl is_digit_char _ _ _ (string_of_uint_digits _));
      intros c Hc; now rewrite Hc. }
  unfold Z_to_string. destruct (Z.to_int z) as [u|u]; cbn [NilZero.string_of_int]; [apply Hu|].
  split; [|discriminate]. cbn [all_chars]. apply Hu.
Qed.

Lemma Z_to_string_plain (z : Z) : plain_word (Z_to_string z) = true.
Proof.
  destruct (Z_to_string_chars z) as [Hc Hne]. unfold plain_word.
  apply Bool.andb_true_iff. split; [now apply Bool.negb_true_iff, String.eqb_neq|].
  refine (all_chars_impl _ _ _ _ Hc). intros c. unfold plain_char.
  rewrite !Bool.orb_true_iff. intros [H|H]; [tauto|]. apply Ascii.eqb_eq in H. subst. now right.
Qed.

Lemma decode_int_Z_to_string (z : Z) : decode_int (Z_to_string z) = Some z.
Proof.
  unfold decode_int, Z_to_string. rewrite NilZero.isi.
  - cbn [option_map]. f_equal. apply DecimalZ.of_to.
  - destruct z as [|p|p]; cbn; intros E; try discriminate.
    injection E. apply DecimalPos.Unsigned.to_uint_nonnil.
  - destruct z as [|p|p]; cbn; intros E; try discriminate.
    injection E. apply DecimalPos.Unsigned.to_uint_nonnil.
Qed.

Lemma split_on_Z_to_string (v : Z) : split_on ","%char (Z_to_string v) = [Z_to_string v].
Proof.
  apply split_on_none. refine (all_chars_impl _ _ _ _ (proj1 (Z_to_string_chars v))).
  intros c. rewrite Bool.orb_true_iff. intros [H|H]; apply Bool.negb_true_iff.
  - destruct (Ascii.eqb_spec c ","%char) as [->|]; [discriminate | reflexivity].
  - apply Ascii.eqb_eq in H. now subst.
Qed.

Lemma join_values_split (vs : list Z) :
  vs <> [] -> split_on ","%char (join_values vs) = map Z_to_string vs.
Proof.
  induction vs as [|v [|w rest] IH]; intros Hne; [contradiction | apply split_on_Z_to_string |].
  change (join_values (v :: w :: rest))
    with (Z_to_string v ++ String ","%char (join_values (w :: rest)))%string.
  rewrite split_on_app, split_on_Z_to_string, IH by discriminate. reflexivity.
Qed.

Lemma decode_values_map (vs : list Z) : decode_values (map Z_to_string vs) = Some vs.
Proof. induction vs as [|v vs IH]; cbn; [reflexivity|]. now rewrite decode_int_Z_to_string, IH. Qed.

Lemma join_values_plain (vs : list Z) : all_chars plain_char (join_values vs) = true.
Proof.
  assert (Hv : forall v, all_chars plain_char (Z_to_string v) = true).
  { intros v. pose proof (Z_to_string_plain v) as Hv. unfold plain_word in Hv.
    now apply Bool.andb_true_iff in Hv as [_ ->]. }
  induction vs as [|v [|w rest] IH]; [reflexivity | apply Hv |].
  change (join_values (v :: w :: rest))
    with (Z_to_string v ++ String ","%char (join_values (w :: rest)))%string.
  rewrite all_chars_app. cbn [all_chars]. now rewrite IH, Hv.
Qed.

Lemma plain_option_word (opt : ascii) (vs : list Z) :
  plain_char opt = true -> plain_word (String "-" (String opt (join_values vs))) = true.
Proof. intros Ho. cbn. now rewrite Ho, join_values_plain. Qed.

Lemma decode_color (setup : string) (opt : ascii) (vs : list Z) :
  decode_args ["-x"; setup; String "-" (String opt (join_values vs))]%string
  = match decode_values (map Z_to_string vs) with
    | Some [r; g; b; ww; cw] =>
        if Ascii.eqb opt "V"%char then Some (FColor (JStr setup) (SetAll r g b ww cw)) else None
    | Some [r; g; b] =>
        if Ascii.eqb opt "c"%char then Some (FColor (JStr setup) (SetRGB r g b)) else None
    | _ => None
    end.
Proof.
  destruct vs as [|v vs]; [reflexivity|]. unfold decode_args. cbn [String.eqb Ascii.eqb Bool.eqb andb].
  now rewrite join_values_split by discriminate.
Qed.

(** The options [sendCommand] is given read back as the command. *)
Lemma decode_flux_argument (c : flux_command) :
  setup_plain c = true -> decode_args (shell_words (flux_argument c)) = Some (wire_form c).
Proof.
  destruct c as [setup [r g b ww cw | r g b] | | on | br]; cbn [setup_plain]; intros Hs.
  - change (flux_argument (FColor setup (SetAll r g b ww cw))) with
      ("-x" ++ String " " (js_to_string setup ++ String " "
        (String "-" (String "V" (join_values [r; g; b; ww; cw])))))%string.
    rewrite !shell_words_app, !shell_words_plain by (reflexivity || assumption || now apply plain_option_word).
    cbn [List.app]. rewrite decode_color, decode_values_map. reflexivity.
  - change (flux_argument (FColor setup (SetRGB r g b))) with
      ("-x" ++ String " " (js_to_string setup ++ String " "
        (String "-" (String "c" (join_values [r; g; b])))))%string.
    rewrite !shell_words_app, !shell_words_plain by (reflexivity || assumption || now apply plain_option_word).
    cbn [List.app]. rewrite decode_color, decode_values_map. reflexivity.
  - reflexivity.
  - destruct on; reflexivity.
  - change (flux_argument (FWarmWhite br)) with ("-w" ++ String " " (Z_to_string br))%string.
    rewrite shell_words_app, !shell_words_plain by (reflexivity || apply Z_to_string_plain).
    cbn [List.app decode_args String.eqb Ascii.eqb Bool.eqb andb].
    now rewrite decode_int_Z_to_string.
Qed.

(** The script's path in a plain directory is a plain word. *)
Lemma plain_script_path (dir : string) :
  all_chars plain_char dir = true -> plain_word (dir ++ "/flux_led.py") = true.
Proof. intros Hdir. unfold plain_word. rewrite all_chars_app, Hdir. destruct dir; reflexivity. Qed.

(** C28. Round trip of the command line: when the plugin's directory,
    the configured address and the configured setup are plain words,
    the words the shell makes of [sendCommand]'s line are the script,
    the address and the options of the command, and reading the options
    back gives the command sent, channel values included. *)
Theorem command_line_roundtrip (dir : string) (ip : jsval) (c : flux_command) :
  all_chars plain_char dir = true -> plain_word (js_to_string ip) = true -> setup_plain c = true ->
  decode_argv (shell_words (command_line dir ip c))
  = Some ((dir ++ "/flux_led.py")%string, js_to_string ip, wire_form c).
Proof.
  intros Hdir Hip Hc. unfold command_line.
  replace (dir ++ "/flux_led.py " ++ js_to_string ip ++ " " ++ flux_argument c)%string
    with ((dir ++ "/flux_led.py") ++ String " " (js_to_string ip ++ String " " (flux_argument c)))%string
    by now rewrite string_app_assoc.
  rewrite !shell_words_app, (shell_words_plain (dir ++ "/flux_led.py")), (shell_words_plain _ Hip).
  - cbn [List.app decode_argv]. now rewrite decode_flux_argument.
  - now apply plain_script_path.
Qed.

Example command_line_roundtrip_witness :
  all_chars plain_char "/usr/lib/node_modules/homebridge-magicwifi" = true /\
  plain_word (js_to_string (JStr "10.0.0.7")) = true /\
  setup_plain (FColor (JStr "RGBWW") (SetAll 0 0 0 128 127)) = true /\
  decode_argv (shell_words (command_line "/usr/lib/node_modules/homebridge-magicwifi"
                 (JStr "10.0.0.7") (FColor (JStr "RGBWW") (SetAll 0 0 0 128 127))))
  = Some (("/usr/lib/node_modules/homebridge-magicwifi" ++ "/flux_led.py")%string, "10.0.0.7"%string,
          wire_form (FColor (JStr "RGBWW") (SetAll 0 0 0 128 127))).
Proof.
  do 3 (split; [reflexivity|]).
  apply command_line_roundtrip; reflexivity.
Defined.

(** C29. The configured values reach the shell unquoted: for every
    command and every address made of two plain words separated by a
    space, the shell gives [flux_led.py] the second word as an extra
    argument between the address and the options (an address
    ["10.0.0.7 --on"] adds an option the plugin never meant to send). *)
Theorem unquoted_address_adds_option (dir ip extra : string) (c : flux_command) :
  all_chars plain_char dir = true -> plain_word ip = true -> plain_word extra = true ->
  shell_words (command_line dir (JStr (ip ++ " " ++ extra)) c)
  = [(dir ++ "/flux_led.py")%string; ip; extra] ++ shell_words (flux_argument c).
Proof.
  intros Hdir Hip Hex. unfold command_line. cbn [js_to_string].
  replace (dir ++ "/flux_led.py " ++ (ip ++ " " ++ extra) ++ " " ++ flux_argument c)%string
    with ((dir ++ "/flux_led.py") ++ String " " (ip ++ String " " (extra ++ String " " (flux_argument c))))%string
    by now rewrite !string_app_assoc.
  rewrite !shell_words_app, (shell_words_plain ip Hip), (shell_words_plain extra Hex).
  rewrite shell_words_plain by now apply plain_script_path. reflexivity.
Qed.

Example unquoted_address_adds_option_witness :
  all_chars plain_char "/hb" = true /\ plain_word "10.0.0.7" = true /\ plain_word "--on" = true /\
  shell_words (command_line "/hb" (JStr ("10.0.0.7" ++ " " ++ "--on")) FInfo)
  = [("/hb" ++ "/flux_led.py")%string; "10.0.0.7"%string; "--on"%string] ++ shell_words (flux_argument FInfo)
  /\ decode_argv (shell_words (command_line "/hb" (JStr ("10.0.0.7" ++ " " ++ "--on")) FInfo)) = None.
Proof.
  do 3 (split; [reflexivity|]). split; [|reflexivity].
  apply unquoted_address_adds_option; reflexivity.
Defined.
